(** * winpty agent: a shallow embedding of [src/agent/Agent.cc]

    The agent is the in-console controller of winpty.  It reads framed
    requests from a duplex control pipe, spawns one child process, scrapes
    the console into one or two output pipes and closes them once the child
    has exited and the output has drained.

    The embedding follows the C++ file function by function.  Methods of
    [Agent] become computations in a small state-and-failure monad over the
    record [Agent]; [ASSERT] aborts the process; [ReadBuffer::DecodeError]
    is a second, catchable failure.  Everything the agent reaches through a
    header that is not part of [Agent.cc] (the operating system, the console,
    the scrapers, the input translator, numeric constants) is taken from a
    [Platform] record, so every theorem holds for every platform. *)

From Stdlib Require Import ZArith List Bool Lia.
From Stdlib.Strings Require Import Byte.
From Stdlib.Strings Require String Ascii.
Import String.StringSyntax.
Import ListNotations.

Set Implicit Arguments.
Local Open Scope Z_scope.

(** ** Bytes and fixed-width integers *)

Definition bytes := list byte.

(** A [std::wstring]: UTF-16 code units, each in [0, 65536). *)
Definition wchar := Z.
Definition wstring := list wchar.

Definition byte_of_Z (z : Z) : byte :=
  match Byte.of_N (Z.to_N (z mod 256)) with
  | Some b => b
  | None => x00
  end.

Definition Z_of_byte (b : byte) : Z := Z.of_N (Byte.to_N b).

(** Little-endian value of a run of bytes, as [memcpy] into an unsigned
    integer reads it on x86. *)
Fixpoint le_decode (bs : bytes) : Z :=
  match bs with
  | [] => 0
  | b :: rest => Z_of_byte b + 256 * le_decode rest
  end.

(** The [n] low bytes of [z], little-endian; [z] wraps modulo [256^n]. *)
Fixpoint le_encode (n : nat) (z : Z) : bytes :=
  match n with
  | O => []
  | S k => byte_of_Z z :: le_encode k (z / 256)
  end.

(** Reinterpreting a [w]-bit pattern as a two's complement value. *)
Definition to_signed (w : Z) (u : Z) : Z :=
  let m := u mod 2 ^ w in
  if m <? 2 ^ (w - 1) then m else m - 2 ^ w.

Definition to_unsigned (w : Z) (v : Z) : Z := v mod 2 ^ w.

(** A wide string literal [L"..."] of ASCII characters. *)
Fixpoint L (s : String.string) : wstring :=
  match s with
  | String.EmptyString => []
  | String.String c rest => Z.of_N (Ascii.N_of_ascii c) :: L rest
  end.

Delimit Scope string_scope with string.
Arguments L s%_string.

Fixpoint wstring_eqb (a b : wstring) : bool :=
  match a, b with
  | [], [] => true
  | x :: a', y :: b' => (x =? y) && wstring_eqb a' b'
  | _, _ => false
  end.

(** ** Named pipes

    [NamedPipe.h] is a header of its own; the agent only uses the members
    below. *)

Inductive PipeState := Connecting | Open | Closed.

(** Modelled from the spec: the class NamedPipe ([NamedPipe.h]).  "Each has
    a connect/open/closed lifecycle and byte counters"; a pipe endpoint
    "tracks bytes buffered for send/receive".  [inQueue] holds the bytes
    received and not yet read, [outQueue] the bytes written and not yet
    sent. *)
Record NamedPipe := mkPipe {
  pipe_name : wstring;
  pipe_state : PipeState;
  inQueue : bytes;
  outQueue : bytes;
  m_readBufferSize : Z
}.

Module NamedPipe.

Definition name (p : NamedPipe) : wstring := pipe_name p.

Definition isClosed (p : NamedPipe) : bool :=
  match pipe_state p with Closed => true | _ => false end.

Definition isConnecting (p : NamedPipe) : bool :=
  match pipe_state p with Connecting => true | _ => false end.

Definition bytesToSend (p : NamedPipe) : Z := Z.of_nat (length (outQueue p)).

Definition bytesAvailable (p : NamedPipe) : Z := Z.of_nat (length (inQueue p)).

Definition readBufferSize (p : NamedPipe) : Z := m_readBufferSize p.

Definition setReadBufferSize (size : Z) (p : NamedPipe) : NamedPipe :=
  mkPipe (pipe_name p) (pipe_state p) (inQueue p) (outQueue p) size.

(** [peek(data, size)] copies up to [size] buffered bytes without
    consuming them and returns how many it copied. *)
Definition peek (size : nat) (p : NamedPipe) : bytes := firstn size (inQueue p).

(** [read(data, size)] consumes what [peek] would have copied. *)
Definition read (size : nat) (p : NamedPipe) : bytes * NamedPipe :=
  (firstn size (inQueue p),
   mkPipe (pipe_name p) (pipe_state p) (skipn size (inQueue p)) (outQueue p)
          (m_readBufferSize p)).

Definition readAllToString (p : NamedPipe) : bytes * NamedPipe :=
  (inQueue p,
   mkPipe (pipe_name p) (pipe_state p) [] (outQueue p) (m_readBufferSize p)).

Definition write (data : bytes) (p : NamedPipe) : NamedPipe :=
  mkPipe (pipe_name p) (pipe_state p) (inQueue p) (outQueue p ++ data)
         (m_readBufferSize p).

Definition closePipe (p : NamedPipe) : NamedPipe :=
  mkPipe (pipe_name p) Closed (inQueue p) (outQueue p) (m_readBufferSize p).

End NamedPipe.

(** ** Packet buffers

    Modelled from the spec: the classes ReadBuffer and WriteBuffer
    ([shared/Buffer.h]).  A frame body holds "fixed-width integers" and
    "length-prefixed wide-character strings"; a read past the end, or
    trailing bytes at [assertEof], raise the decode error.  Integers are
    little-endian; a wide string is its 64-bit length in code units and
    then two bytes per unit. *)

Record ReadBuffer := mkReadBuffer {
  rb_buf : bytes;
  rb_off : nat
}.

Module ReadBuffer.

(** [None] stands for a thrown [DecodeError]. *)
Definition getRawData (n : nat) (b : ReadBuffer) : option (bytes * ReadBuffer) :=
  if (rb_off b + n <=? length (rb_buf b))%nat
  then Some (firstn n (skipn (rb_off b) (rb_buf b)),
             mkReadBuffer (rb_buf b) (rb_off b + n))
  else None.

Definition getRawValue (n : nat) (b : ReadBuffer) : option (Z * ReadBuffer) :=
  match getRawData n b with
  | Some (bs, b') => Some (le_decode bs, b')
  | None => None
  end.

Definition getInt32 (b : ReadBuffer) : option (Z * ReadBuffer) :=
  match getRawValue 4 b with
  | Some (u, b') => Some (to_signed 32 u, b')
  | None => None
  end.

Definition getInt64 (b : ReadBuffer) : option (Z * ReadBuffer) :=
  match getRawValue 8 b with
  | Some (u, b') => Some (to_signed 64 u, b')
  | None => None
  end.

Fixpoint wchars_of_bytes (bs : bytes) : wstring :=
  match bs with
  | lo :: hi :: rest => (Z_of_byte lo + 256 * Z_of_byte hi) :: wchars_of_bytes rest
  | _ => []
  end.

Definition getWString (b : ReadBuffer) : option (wstring * ReadBuffer) :=
  match getRawValue 8 b with
  | Some (len, b') =>
      match getRawData (2 * Z.to_nat len) b' with
      | Some (bs, b'') => Some (wchars_of_bytes bs, b'')
      | None => None
      end
  | None => None
  end.

Definition assertEof (b : ReadBuffer) : option (unit * ReadBuffer) :=
  if (rb_off b =? length (rb_buf b))%nat then Some (tt, b) else None.

End ReadBuffer.

Definition WriteBuffer := bytes.

Module WriteBuffer.

Definition putRawValue (n : nat) (v : Z) (w : WriteBuffer) : WriteBuffer :=
  w ++ le_encode n v.

Definition putInt32 (v : Z) (w : WriteBuffer) : WriteBuffer := putRawValue 4 v w.

Definition putInt64 (v : Z) (w : WriteBuffer) : WriteBuffer := putRawValue 8 v w.

Definition bytes_of_wchars (s : wstring) : bytes :=
  flat_map (le_encode 2) s.

Definition putWString (s : wstring) (w : WriteBuffer) : WriteBuffer :=
  putRawValue 8 (Z.of_nat (length s)) w ++ bytes_of_wchars s.

(** [replaceRawValue<T>(pos, v)] overwrites [sizeof(T)] bytes at [pos]. *)
Definition replaceRawValue (n : nat) (pos : nat) (v : Z) (w : WriteBuffer)
  : WriteBuffer :=
  firstn pos w ++ le_encode n v ++ skipn (pos + n) w.

End WriteBuffer.

(** ** Windows and console types *)

Definition HANDLE := Z.
Definition NULL : HANDLE := 0.

(** The value sent over the wire for a handle: [static_cast<int64_t>] of
    its [intptr_t] value. *)
Definition int64FromHandle (h : HANDLE) : Z := h.

Record Coord := mkCoord { X : Z; Y : Z }.

Definition Coord_eqb (a b : Coord) : bool := (X a =? X b) && (Y a =? Y b).

(** [SmallRect(x, y, width, height)]. *)
Record SmallRect := mkSmallRect {
  rect_left : Z; rect_top : Z; rect_width : Z; rect_height : Z
}.

Record ConsoleScreenBufferInfo := mkInfo {
  dwSize : Coord;
  dwCursorPosition : Coord;
  windowRect : SmallRect
}.

Record PROCESS_INFORMATION := mkProcessInformation {
  hProcess : HANDLE;
  hThread : HANDLE;
  dwProcessId : Z
}.

Definition CREATE_UNICODE_ENVIRONMENT : Z := 0x400.

(** The arguments of the one [CreateProcessW] call; [None] is a null
    pointer.  [sui_stdHandles] is [Some (in, out, err)] when
    [STARTF_USESTDHANDLES] is set. *)
Record CreateProcessArgs := mkCreateProcessArgs {
  programArg : option wstring;
  cmdlineArg : option wstring;
  bInheritHandles : bool;
  dwCreationFlags : Z;
  envArg : option wstring;
  cwdArg : option wstring;
  sui_lpDesktop : option wstring;
  sui_stdHandles : option (HANDLE * HANDLE * HANDLE)
}.

Inductive StdHandle := STD_INPUT_HANDLE | STD_OUTPUT_HANDLE.

(** The two system commands that freeze the console. *)
Inductive Syscommand := SC_CONSOLE_MARK | SC_CONSOLE_SELECT_ALL.

(** Which screen buffer an operation addresses: the two ways of opening the
    primary buffer ([openConout], [openStdout]) and the error buffer. *)
Inductive BufferId := ConoutBuffer | StdoutBuffer | ErrorBuffer.

Inductive ScraperId := PrimaryScraper | ErrorScraper.

Inductive PipeRole := ControlPipe | ConinPipe | ConoutPipe | ConerrPipe.

(** [size_t] is 32 or 64 bits wide, by the build. *)
Inductive Arch := Win32 | Win64.

Definition SIZE_MAX (a : Arch) : Z :=
  match a with
  | Win32 => 2 ^ 32 - 1
  | Win64 => 2 ^ 64 - 1
  end.

(** ** The platform

    What [Agent.cc] uses and does not define.  [World] is the state of
    everything outside the agent object: the operating system, the console
    and its screen buffers, the private state of the scrapers, of their
    terminal encoders and of the input translator.  Each operation is named
    after the call in the source. *)

Record Platform (World : Type) := mkPlatform {
  arch : Arch;
  (* Scraper.h *)
  MAX_CONSOLE_WIDTH : Z;
  BUFFER_LINE_COUNT : Z;
  (* AgentMsg.h *)
  AgentMsg_StartProcess : Z;
  AgentMsg_SetSize : Z;
  StartProcessResult_ProcessCreated : Z;
  StartProcessResult_CreateProcessFailed : Z;
  StartProcessResult_PipesStillOpen : Z;
  (* winpty_constants.h *)
  WINPTY_FLAG_CONERR : Z;
  WINPTY_FLAG_PLAIN_OUTPUT : Z;
  WINPTY_FLAG_COLOR_ESCAPES : Z;
  WINPTY_SPAWN_FLAG_AUTO_SHUTDOWN : Z;
  (* windows.h; a failed CreateProcessW is None *)
  CreateProcessW : CreateProcessArgs -> World -> option PROCESS_INFORMATION * World;
  GetLastError : World -> Z;
  WaitForSingleObject_signaled : HANDLE -> World -> bool;
  CloseHandle : HANDLE -> World -> World;
  DuplicateHandle : HANDLE -> World -> option HANDLE * World;
  GetStdHandle : StdHandle -> World -> HANDLE;
  SetConsoleCtrlHandler : option (Z -> bool) -> bool -> World -> World;
  (* Win32Console *)
  console_title : World -> wstring;
  console_setTitle : wstring -> World -> World;
  console_sendSyscommand : Syscommand -> World -> World;
  console_sendEscape : World -> World;
  (* Win32ConsoleBuffer *)
  createErrorBuffer : World -> World;
  buffer_conout : BufferId -> World -> HANDLE;
  buffer_bufferInfo : BufferId -> World -> ConsoleScreenBufferInfo;
  buffer_resizeBuffer : BufferId -> Coord -> World -> World;
  buffer_moveWindow : BufferId -> SmallRect -> World -> World;
  buffer_setCursorPosition : BufferId -> Coord -> World -> World;
  buffer_cursorPosition : BufferId -> World -> Coord;
  (* Scraper and its Terminal: the bytes are what the terminal writes to
     its output pipe during the call *)
  scraper_new :
    ScraperId -> BufferId -> bool (* plainMode *) -> bool (* outputColor *) ->
    Coord -> World -> World;
  scraper_resizeWindow :
    ScraperId -> BufferId -> Coord -> World -> ConsoleScreenBufferInfo * bytes * World;
  scraper_scrapeBuffer :
    ScraperId -> BufferId -> World -> ConsoleScreenBufferInfo * bytes * World;
  terminal_enableMouseMode : bool -> World -> bytes * World;
  (* ConsoleInput; writeInput reports how often it called back sendDsr *)
  consoleInput_new : HANDLE -> Z -> World -> World;
  consoleInput_updateMouseInputFlags : World -> bool * World;
  consoleInput_flushIncompleteEscapeCode : World -> World;
  consoleInput_writeInput : bytes -> World -> nat * World;
  (* shared/ *)
  hasDebugFlag_input_separated_bytes : World -> bool;
  GenRandom_uniqueName : World -> wstring * World;
  utf8FromWide : wstring -> bytes
}.

(** ** The agent object *)

(** Modelled from the spec: the class Win32Console ([Win32Console.h]), as
    far as the agent touches it: whether the console is frozen, and which
    of the two suspension primitives a freeze uses. *)
Record Win32Console := mkConsole {
  m_frozen : bool;
  m_freezeUsesMark : bool
}.

(** The part of the input translator that the agent sets. *)
Record ConsoleInput := mkConsoleInput {
  m_mouseWindowRect : SmallRect
}.

Inductive TraceMsg :=
| Trace_AgentEntered
| Trace_UsingSyscommand (useMark : bool)
| Trace_AgentShuttingDown
| Trace_UnrecognizedMessage (type : Z)
| Trace_CreateProcess (success : bool) (pid : Z)
| Trace_ResizeInvalidSize (cols rows : Z)
| Trace_ClosingConout
| Trace_ClosingConerr.

(** What the agent does that is visible from outside the object, in program
    order. *)
Inductive Event :=
| EvTrace (msg : TraceMsg)
| EvHandlePacket (frame : bytes)
| EvCreateProcessW (args : CreateProcessArgs)
| EvDuplicateHandle (h : HANDLE)
| EvCloseHandle (h : HANDLE)
| EvSyscommand (c : Syscommand)
| EvSendEscape
| EvResizeWindow (which : ScraperId) (size : Coord)
| EvScrapeBuffer (which : ScraperId)
| EvClosePipe (role : PipeRole).

(** The assertions of the file, by what they check. *)
Inductive Assertion :=
| Assert_consoleNotFrozen        (* ASSERT(!console.frozen()) *)
| Assert_duplicateHandle         (* ASSERT(false && "DuplicateHandle failed!") *)
| Assert_packetSize              (* ASSERT(packetSize >= sizeof(packetSize) && packetSize <= SIZE_MAX) *)
| Assert_readAmount              (* ASSERT(amt2 == packetSize) *)
| Assert_decodeError             (* ASSERT(false && "Decode error") *)
| Assert_noChildProcess          (* ASSERT(m_childProcess == nullptr) *)
| Assert_notClosingOutputPipes.  (* ASSERT(!m_closingOutputPipes) *)

Section WithPlatform.

Variable World : Type.
Variable P : Platform World.

Record Agent := mkAgent {
  m_useConerr : bool;
  m_plainMode : bool;
  m_mouseMode : Z;
  m_console : Win32Console;
  m_controlPipe : NamedPipe;
  m_coninPipe : NamedPipe;
  m_conoutPipe : NamedPipe;
  m_conerrPipe : option NamedPipe;      (* None is nullptr *)
  m_errorScraper : bool;                (* whether the unique_ptr is set *)
  m_consoleInput : ConsoleInput;
  m_childProcess : HANDLE;
  m_autoShutdown : bool;
  m_closingOutputPipes : bool;
  m_currentTitle : wstring;
  m_exiting : bool;                     (* EventLoop::shutdown was called *)
  world : World;
  history : list Event
}.

Definition set_console (c : Win32Console) (s : Agent) : Agent :=
  mkAgent (m_useConerr s) (m_plainMode s) (m_mouseMode s) c (m_controlPipe s)
    (m_coninPipe s) (m_conoutPipe s) (m_conerrPipe s) (m_errorScraper s)
    (m_consoleInput s) (m_childProcess s) (m_autoShutdown s)
    (m_closingOutputPipes s) (m_currentTitle s) (m_exiting s) (world s) (history s).

Definition set_controlPipe (p : NamedPipe) (s : Agent) : Agent :=
  mkAgent (m_useConerr s) (m_plainMode s) (m_mouseMode s) (m_console s) p
    (m_coninPipe s) (m_conoutPipe s) (m_conerrPipe s) (m_errorScraper s)
    (m_consoleInput s) (m_childProcess s) (m_autoShutdown s)
    (m_closingOutputPipes s) (m_currentTitle s) (m_exiting s) (world s) (history s).

Definition set_coninPipe (p : NamedPipe) (s : Agent) : Agent :=
  mkAgent (m_useConerr s) (m_plainMode s) (m_mouseMode s) (m_console s)
    (m_controlPipe s) p (m_conoutPipe s) (m_conerrPipe s) (m_errorScraper s)
    (m_consoleInput s) (m_childProcess s) (m_autoShutdown s)
    (m_closingOutputPipes s) (m_currentTitle s) (m_exiting s) (world s) (history s).

Definition set_conoutPipe (p : NamedPipe) (s : Agent) : Agent :=
  mkAgent (m_useConerr s) (m_plainMode s) (m_mouseMode s) (m_console s)
    (m_controlPipe s) (m_coninPipe s) p (m_conerrPipe s) (m_errorScraper s)
    (m_consoleInput s) (m_childProcess s) (m_autoShutdown s)
    (m_closingOutputPipes s) (m_currentTitle s) (m_exiting s) (world s) (history s).

Definition set_conerrPipe (p : option NamedPipe) (s : Agent) : Agent :=
  mkAgent (m_useConerr s) (m_plainMode s) (m_mouseMode s) (m_console s)
    (m_controlPipe s) (m_coninPipe s) (m_conoutPipe s) p (m_errorScraper s)
    (m_consoleInput s) (m_childProcess s) (m_autoShutdown s)
    (m_closingOutputPipes s) (m_currentTitle s) (m_exiting s) (world s) (history s).

Definition set_errorScraper (b : bool) (s : Agent) : Agent :=
  mkAgent (m_useConerr s) (m_plainMode s) (m_mouseMode s) (m_console s)
    (m_controlPipe s) (m_coninPipe s) (m_conoutPipe s) (m_conerrPipe s) b
    (m_consoleInput s) (m_childProcess s) (m_autoShutdown s)
    (m_closingOutputPipes s) (m_currentTitle s) (m_exiting s) (world s) (history s).

Definition set_consoleInput (c : ConsoleInput) (s : Agent) : Agent :=
  mkAgent (m_useConerr s) (m_plainMode s) (m_mouseMode s) (m_console s)
    (m_controlPipe s) (m_coninPipe s) (m_conoutPipe s) (m_conerrPipe s)
    (m_errorScraper s) c (m_childProcess s) (m_autoShutdown s)
    (m_closingOutputPipes s) (m_currentTitle s) (m_exiting s) (world s) (history s).

Definition set_childProcess (h : HANDLE) (s : Agent) : Agent :=
  mkAgent (m_useConerr s) (m_plainMode s) (m_mouseMode s) (m_console s)
    (m_controlPipe s) (m_coninPipe s) (m_conoutPipe s) (m_conerrPipe s)
    (m_errorScraper s) (m_consoleInput s) h (m_autoShutdown s)
    (m_closingOutputPipes s) (m_currentTitle s) (m_exiting s) (world s) (history s).

Definition set_autoShutdown (b : bool) (s : Agent) : Agent :=
  mkAgent (m_useConerr s) (m_plainMode s) (m_mouseMode s) (m_console s)
    (m_controlPipe s) (m_coninPipe s) (m_conoutPipe s) (m_conerrPipe s)
    (m_errorScraper s) (m_consoleInput s) (m_childProcess s) b
    (m_closingOutputPipes s) (m_currentTitle s) (m_exiting s) (world s) (history s).

Definition set_closingOutputPipes (b : bool) (s : Agent) : Agent :=
  mkAgent (m_useConerr s) (m_plainMode s) (m_mouseMode s) (m_console s)
    (m_controlPipe s) (m_coninPipe s) (m_conoutPipe s) (m_conerrPipe s)
    (m_errorScraper s) (m_consoleInput s) (m_childProcess s) (m_autoShutdown s)
    b (m_currentTitle s) (m_exiting s) (world s) (history s).

Definition set_currentTitle (t : wstring) (s : Agent) : Agent :=
  mkAgent (m_useConerr s) (m_plainMode s) (m_mouseMode s) (m_console s)
    (m_controlPipe s) (m_coninPipe s) (m_conoutPipe s) (m_conerrPipe s)
    (m_errorScraper s) (m_consoleInput s) (m_childProcess s) (m_autoShutdown s)
    (m_closingOutputPipes s) t (m_exiting s) (world s) (history s).

Definition set_exiting (b : bool) (s : Agent) : Agent :=
  mkAgent (m_useConerr s) (m_plainMode s) (m_mouseMode s) (m_console s)
    (m_controlPipe s) (m_coninPipe s) (m_conoutPipe s) (m_conerrPipe s)
    (m_errorScraper s) (m_consoleInput s) (m_childProcess s) (m_autoShutdown s)
    (m_closingOutputPipes s) (m_currentTitle s) b (world s) (history s).

Definition set_world (w : World) (s : Agent) : Agent :=
  mkAgent (m_useConerr s) (m_plainMode s) (m_mouseMode s) (m_console s)
    (m_controlPipe s) (m_coninPipe s) (m_conoutPipe s) (m_conerrPipe s)
    (m_errorScraper s) (m_consoleInput s) (m_childProcess s) (m_autoShutdown s)
    (m_closingOutputPipes s) (m_currentTitle s) (m_exiting s) w (history s).

Definition record (e : Event) (s : Agent) : Agent :=
  mkAgent (m_useConerr s) (m_plainMode s) (m_mouseMode s) (m_console s)
    (m_controlPipe s) (m_coninPipe s) (m_conoutPipe s) (m_conerrPipe s)
    (m_errorScraper s) (m_consoleInput s) (m_childProcess s) (m_autoShutdown s)
    (m_closingOutputPipes s) (m_currentTitle s) (m_exiting s) (world s)
    (history s ++ [e]).

(** ** The monad of agent methods

    A method runs on the agent object and ends in one of three ways: it
    returns, it throws [ReadBuffer::DecodeError], or an [ASSERT] fails and
    the process aborts.  The two failures keep the state reached so far. *)

Inductive Outcome (A : Type) :=
| Ok (a : A) (s : Agent)
| Throw (s : Agent)
| Abort (why : Assertion) (s : Agent).

Arguments Throw {A} s.
Arguments Abort {A} why s.

Definition M (A : Type) := Agent -> Outcome A.

Definition ret {A} (a : A) : M A := fun s => Ok a s.

Definition bind {A B} (m : M A) (k : A -> M B) : M B :=
  fun s =>
    match m s with
    | Ok a s' => k a s'
    | Throw s' => Throw s'
    | Abort why s' => Abort why s'
    end.

Definition gets {A} (f : Agent -> A) : M A := fun s => Ok (f s) s.

Definition modify (f : Agent -> Agent) : M unit := fun s => Ok tt (f s).

Definition ASSERT (why : Assertion) (cond : bool) : M unit :=
  fun s => if cond then Ok tt s else Abort why s.

(** A [ReadBuffer] getter run inside a method. *)
Definition decode {A} (r : option (A * ReadBuffer)) : M (A * ReadBuffer) :=
  fun s => match r with Some v => Ok v s | None => Throw s end.

(** [try { m } catch (const ReadBuffer::DecodeError &) { h }]. *)
Definition try_catch {A} (m : M A) (h : M A) : M A :=
  fun s =>
    match m s with
    | Throw s' => h s'
    | r => r
    end.

Definition when (c : bool) (m : M unit) : M unit := if c then m else ret tt.

Definition trace (msg : TraceMsg) : M unit := modify (record (EvTrace msg)).

(** A call into the platform that changes the world and returns a value. *)
Definition call {A} (f : World -> A * World) : M A :=
  fun s => let (a, w) := f (world s) in Ok a (set_world w s).

Definition call_ (f : World -> World) : M unit :=
  modify (fun s => set_world (f (world s)) s).


Notation "x <- m ;; k" := (bind m (fun x => k))
  (at level 61, m at next level, right associativity).
Notation "' pat <- m ;; k" := (bind m (fun x => match x with pat => k end))
  (at level 61, pat pattern, m at next level, right associativity).
Notation "m ;;; k" := (bind m (fun _ => k))
  (at level 61, right associativity).

(** ** Collaborators driven by the agent *)

Definition Win32Console_setFreezeUsesMark (useMark : bool) : M unit :=
  modify (fun s => set_console (mkConsole (m_frozen (m_console s)) useMark) s).

(** Modelled from the spec: Win32Console::setFrozen.  Freezing "applies"
    one of the "two candidate suspension primitives", the one chosen by
    [setFreezeUsesMark]; unfreezing releases it.  Asking for the state the
    console is already in does nothing. *)
Definition Win32Console_setFrozen (frozen : bool) : M unit :=
  c <- gets m_console ;;
  if Bool.eqb frozen (m_frozen c) then ret tt
  else if frozen then
    let command :=
      if m_freezeUsesMark c then SC_CONSOLE_MARK else SC_CONSOLE_SELECT_ALL in
    modify (record (EvSyscommand command)) ;;;
    call_ (console_sendSyscommand P command) ;;;
    modify (set_console (mkConsole true (m_freezeUsesMark c)))
  else
    modify (record EvSendEscape) ;;;
    call_ (console_sendEscape P) ;;;
    modify (set_console (mkConsole false (m_freezeUsesMark c))).

(** [Win32Console::FreezeGuard guard(m_console, frozen)] around [body]:
    the guard's destructor restores the previous state when the scope is
    left. *)
Definition with_FreezeGuard {A} (frozen : bool) (body : M A) : M A :=
  previous <- gets (fun s => m_frozen (m_console s)) ;;
  Win32Console_setFrozen frozen ;;;
  a <- body ;;
  Win32Console_setFrozen previous ;;;
  ret a.

Definition setMouseWindowRect (r : SmallRect) : M unit :=
  modify (set_consoleInput (mkConsoleInput r)).

Definition conout_write (data : bytes) : M unit :=
  modify (fun s => set_conoutPipe (NamedPipe.write data (m_conoutPipe s)) s).

Definition conerr_write (data : bytes) : M unit :=
  modify (fun s =>
    match m_conerrPipe s with
    | Some p => set_conerrPipe (Some (NamedPipe.write data p)) s
    | None => s
    end).

Definition conout_closePipe : M unit :=
  modify (fun s => set_conoutPipe (NamedPipe.closePipe (m_conoutPipe s)) s).

Definition conerr_closePipe : M unit :=
  modify (fun s =>
    match m_conerrPipe s with
    | Some p => set_conerrPipe (Some (NamedPipe.closePipe p)) s
    | None => s
    end).

Definition control_setReadBufferSize (size : Z) : M unit :=
  modify (fun s =>
    set_controlPipe (NamedPipe.setReadBufferSize size (m_controlPipe s)) s).

Definition control_read (size : nat) : M bytes :=
  fun s =>
    let (data, pipe) := NamedPipe.read size (m_controlPipe s) in
    Ok data (set_controlPipe pipe s).

Definition conin_readAllToString : M bytes :=
  fun s =>
    let (data, pipe) := NamedPipe.readAllToString (m_coninPipe s) in
    Ok data (set_coninPipe pipe s).

(** The output of a scraper's terminal goes to the pipe the terminal was
    built on in the constructor. *)
Definition terminal_write (which : ScraperId) (data : bytes) : M unit :=
  match which with
  | PrimaryScraper => conout_write data
  | ErrorScraper => conerr_write data
  end.

(** ** [Agent.cc], anonymous namespace *)

Definition CTRL_C_EVENT : Z := 0.

Definition consoleCtrlHandler (dwCtrlType : Z) : bool :=
  if dwCtrlType =? CTRL_C_EVENT then
    (* Do nothing and claim to have handled the event. *)
    true
  else false.

Definition initConsoleFreezeMethod (buffer : BufferId) : M unit :=
  info <- gets (fun s => buffer_bufferInfo P buffer (world s)) ;;
  call_ (buffer_resizeBuffer P buffer
           (mkCoord (Z.max 2 (X (dwSize info))) (Z.max 2 (Y (dwSize info))))) ;;;
  call_ (buffer_moveWindow P buffer (mkSmallRect 0 0 2 2)) ;;;
  let initialPosition := mkCoord 1 1 in
  call_ (buffer_setCursorPosition P buffer initialPosition) ;;;
  (* Test whether MARK moves the cursor. *)
  frozen <- gets (fun s => m_frozen (m_console s)) ;;
  ASSERT Assert_consoleNotFrozen (negb frozen) ;;;
  Win32Console_setFreezeUsesMark true ;;;
  Win32Console_setFrozen true ;;;
  position <- gets (fun s => buffer_cursorPosition P buffer (world s)) ;;
  let useMark := Coord_eqb position initialPosition in
  Win32Console_setFrozen false ;;;
  trace (Trace_UsingSyscommand useMark) ;;;
  Win32Console_setFreezeUsesMark useMark.

Definition newPacket : WriteBuffer :=
  WriteBuffer.putRawValue 8 0 [].   (* Reserve space for size. *)

Definition duplicateHandle (h : HANDLE) : M HANDLE :=
  modify (record (EvDuplicateHandle h)) ;;;
  r <- call (DuplicateHandle P h) ;;
  match r with
  | Some dup => ret dup
  | None => ASSERT Assert_duplicateHandle false ;;; ret NULL
  end.

(** ** [Agent] methods *)

Fixpoint forEach {A} (l : list A) (f : A -> M unit) : M unit :=
  match l with
  | [] => ret tt
  | x :: rest => f x ;;; forEach rest f
  end.

Fixpoint repeatM (n : nat) (m : M unit) : M unit :=
  match n with
  | O => ret tt
  | S k => m ;;; repeatM k m
  end.

Definition isEmpty (s : wstring) : bool :=
  match s with [] => true | _ => false end.

(** [\x1B[6n], the Device Status Report request. *)
Definition DSR : bytes := [x1b; x5b; x36; x6e].

Definition sendDsr : M unit :=
  s <- gets (fun s => s) ;;
  when (negb (m_plainMode s) && negb (NamedPipe.isClosed (m_conoutPipe s)))
       (conout_write DSR).

(** [pipe.connectToServer(pipeName, Duplex)] on a fresh pipe, then
    [setReadBufferSize(64 * 1024)]. *)
Definition connectToControlPipe (pipeName : wstring) : NamedPipe :=
  NamedPipe.setReadBufferSize (64 * 1024) (mkPipe pipeName Open [] [] 0).

(** Returns a new server named pipe.  It has not yet been connected. *)
Definition createDataServerPipe (write : bool) (kind : wstring) : M NamedPipe :=
  unique <- call (GenRandom_uniqueName P) ;;
  let name := L "\\.\pipe\winpty-" ++ kind ++ L "-" ++ unique in
  let pipe := mkPipe name Connecting [] [] 0 in
  ret (if write then pipe else NamedPipe.setReadBufferSize (64 * 1024) pipe).

Definition writePacket (packet : WriteBuffer) : M unit :=
  let bytes := WriteBuffer.replaceRawValue 8 0 (Z.of_nat (length packet)) packet in
  modify (fun s => set_controlPipe (NamedPipe.write bytes (m_controlPipe s)) s).

Definition openPrimaryBuffer (s : Agent) : BufferId :=
  if negb (m_useConerr s) then ConoutBuffer else StdoutBuffer.

(** One step of the loop over [{ m_coninPipe, m_conoutPipe, m_conerrPipe }]. *)
Definition appendPendingPipe (pipeList : wstring) (pipe : option NamedPipe)
  : wstring :=
  match pipe with
  | Some p =>
      if NamedPipe.isConnecting p then
        (if negb (isEmpty pipeList) then pipeList ++ L ", " else pipeList)
          ++ NamedPipe.name p
      else pipeList
  | None => pipeList
  end.

Definition dataPipes (s : Agent) : list (option NamedPipe) :=
  [Some (m_coninPipe s); Some (m_conoutPipe s); m_conerrPipe s].

Definition nonNull (s : wstring) (v : wstring) : option wstring :=
  if isEmpty s then None else Some v.

Definition handleStartProcessPacket (packet : ReadBuffer) : M unit :=
  child <- gets m_childProcess ;;
  ASSERT Assert_noChildProcess (child =? NULL) ;;;
  closing <- gets m_closingOutputPipes ;;
  ASSERT Assert_notClosingOutputPipes (negb closing) ;;;

  '(spawnFlags, packet) <- decode (ReadBuffer.getInt64 packet) ;;
  let spawnFlags := to_unsigned 64 spawnFlags in
  '(wantProcessHandle, packet) <- decode (ReadBuffer.getInt32 packet) ;;
  let wantProcessHandle := negb (wantProcessHandle =? 0) in
  '(wantThreadHandle, packet) <- decode (ReadBuffer.getInt32 packet) ;;
  let wantThreadHandle := negb (wantThreadHandle =? 0) in
  '(program, packet) <- decode (ReadBuffer.getWString packet) ;;
  '(cmdline, packet) <- decode (ReadBuffer.getWString packet) ;;
  '(cwd, packet) <- decode (ReadBuffer.getWString packet) ;;
  '(env, packet) <- decode (ReadBuffer.getWString packet) ;;
  '(desktop, packet) <- decode (ReadBuffer.getWString packet) ;;
  '(_, packet) <- decode (ReadBuffer.assertEof packet) ;;

  (* Ensure that all I/O pipes are connected. *)
  pipeList <- gets (fun s => fold_left appendPendingPipe (dataPipes s) []) ;;
  if negb (isEmpty pipeList) then
    let reply := newPacket in
    let reply := WriteBuffer.putInt32 (StartProcessResult_PipesStillOpen P) reply in
    let reply := WriteBuffer.putWString pipeList reply in
    writePacket reply
  else

  let cmdlineV := cmdline ++ [0] in
  let desktopV := desktop ++ [0] in
  let envV := env in
  useConerr <- gets m_useConerr ;;
  stdHandles <-
    (if useConerr then
       s <- gets (fun s => s) ;;
       ret (Some (GetStdHandle P STD_INPUT_HANDLE (world s),
                  GetStdHandle P STD_OUTPUT_HANDLE (world s),
                  buffer_conout P ErrorBuffer (world s)))
     else ret None) ;;
  let args :=
    mkCreateProcessArgs
      (nonNull program program) (nonNull cmdline cmdlineV)
      useConerr CREATE_UNICODE_ENVIRONMENT
      (nonNull env envV) (nonNull cwd cwd)
      (nonNull desktop desktopV) stdHandles in
  modify (record (EvCreateProcessW args)) ;;;
  created <- call (CreateProcessW P args) ;;
  lastError <-
    match created with
    | Some _ => ret 0
    | None => gets (fun s => GetLastError P (world s))
    end ;;
  trace (Trace_CreateProcess
           (match created with Some _ => true | None => false end)
           (match created with Some pi => dwProcessId pi | None => 0 end)) ;;;
  let reply := newPacket in
  match created with
  | Some pi =>
      replyProcess <-
        (if wantProcessHandle
         then h <- duplicateHandle (hProcess pi) ;; ret (int64FromHandle h)
         else ret 0) ;;
      replyThread <-
        (if wantThreadHandle
         then h <- duplicateHandle (hThread pi) ;; ret (int64FromHandle h)
         else ret 0) ;;
      modify (record (EvCloseHandle (hThread pi))) ;;;
      call_ (CloseHandle P (hThread pi)) ;;;
      modify (set_childProcess (hProcess pi)) ;;;
      modify (set_autoShutdown
                (negb (Z.land spawnFlags (WINPTY_SPAWN_FLAG_AUTO_SHUTDOWN P) =? 0))) ;;;
      let reply := WriteBuffer.putInt32 (StartProcessResult_ProcessCreated P) reply in
      let reply := WriteBuffer.putInt64 replyProcess reply in
      let reply := WriteBuffer.putInt64 replyThread reply in
      writePacket reply
  | None =>
      let reply := WriteBuffer.putInt32 (StartProcessResult_CreateProcessFailed P) reply in
      let reply := WriteBuffer.putInt32 lastError reply in
      writePacket reply
  end.

Definition invalidSize (cols rows : Z) : bool :=
  (cols <? 1) || (cols >? MAX_CONSOLE_WIDTH P) ||
  (rows <? 1) || (rows >? BUFFER_LINE_COUNT P - 1).

Definition resizeWindow (cols rows : Z) : M unit :=
  if invalidSize cols rows then
    trace (Trace_ResizeInvalidSize cols rows)
  else
    with_FreezeGuard true (
      let newSize := mkCoord cols rows in
      primaryBuffer <- gets openPrimaryBuffer ;;
      modify (record (EvResizeWindow PrimaryScraper newSize)) ;;;
      '(info, output) <-
        call (scraper_resizeWindow P PrimaryScraper primaryBuffer newSize) ;;
      terminal_write PrimaryScraper output ;;;
      setMouseWindowRect (windowRect info) ;;;
      hasErrorScraper <- gets m_errorScraper ;;
      when hasErrorScraper (
        modify (record (EvResizeWindow ErrorScraper newSize)) ;;;
        '(info, output) <-
          call (scraper_resizeWindow P ErrorScraper ErrorBuffer newSize) ;;
        terminal_write ErrorScraper output)).

Definition handleSetSizePacket (packet : ReadBuffer) : M unit :=
  '(cols, packet) <- decode (ReadBuffer.getInt32 packet) ;;
  '(rows, packet) <- decode (ReadBuffer.getInt32 packet) ;;
  '(_, packet) <- decode (ReadBuffer.assertEof packet) ;;
  resizeWindow cols rows ;;;
  let reply := newPacket in
  writePacket reply.

Definition handlePacket (packet : ReadBuffer) : M unit :=
  modify (record (EvHandlePacket (rb_buf packet))) ;;;
  '(type, packet) <- decode (ReadBuffer.getInt32 packet) ;;
  if type =? AgentMsg_StartProcess P then handleStartProcessPacket packet
  else if type =? AgentMsg_SetSize P then handleSetSizePacket packet
  else trace (Trace_UnrecognizedMessage type).

(** [EventLoop::shutdown()]: the loop stops after the current handler. *)
Definition shutdown : M unit := modify (set_exiting true).

(** One pass through the body of [while (true)] in [pollControlPipe]:
    [false] is [break], [true] goes round again. *)
Definition pollControlPipe_body : M bool :=
  pipe <- gets m_controlPipe ;;
  (* peek into a zero-initialised uint64_t *)
  let header := NamedPipe.peek 8 pipe in
  let packetSize := le_decode header in
  let amt1 := length header in
  if (amt1 <? 8)%nat then ret false
  else
  ASSERT Assert_packetSize
         ((8 <=? packetSize) && (packetSize <=? SIZE_MAX (arch P))) ;;;
  if NamedPipe.bytesAvailable pipe <? packetSize then
    when (NamedPipe.readBufferSize pipe <? packetSize)
         (control_setReadBufferSize packetSize) ;;;
    ret false
  else
  packetData <- control_read (Z.to_nat packetSize) ;;
  let amt2 := Z.of_nat (length packetData) in
  ASSERT Assert_readAmount (amt2 =? packetSize) ;;;
  try_catch
    (let buffer := mkReadBuffer packetData 0 in
     '(_, buffer) <- decode (ReadBuffer.getRawValue 8 buffer) ;;  (* Discard the size. *)
     handlePacket buffer)
    (ASSERT Assert_decodeError false) ;;;
  ret true.

(** The loop, with a bound on the number of passes; [None] when the bound
    is reached. *)
Fixpoint pollControlPipe_loop (fuel : nat) (s : Agent) : option (Outcome unit) :=
  match fuel with
  | O => None
  | S fuel' =>
      match pollControlPipe_body s with
      | Ok true s' => pollControlPipe_loop fuel' s'
      | Ok false s' => Some (Ok tt s')
      | Throw s' => Some (Throw s')
      | Abort why s' => Some (Abort why s')
      end
  end.

(** Every pass that goes round again has consumed a frame of at least eight
    bytes, so one pass more than there are buffered bytes is enough. *)
Definition pollControlPipe (s : Agent) : option (Outcome unit) :=
  if NamedPipe.isClosed (m_controlPipe s) then
    Some ((trace Trace_AgentShuttingDown ;;; shutdown) s)
  else
    pollControlPipe_loop (S (length (inQueue (m_controlPipe s)))) s.

Definition writeInput (data : bytes) : M unit :=
  dsrRequests <- call (consoleInput_writeInput P data) ;;
  repeatM dsrRequests sendDsr.

Definition pollConinPipe : M unit :=
  newData <- conin_readAllToString ;;
  separated <- gets (fun s => hasDebugFlag_input_separated_bytes P (world s)) ;;
  if separated then forEach newData (fun b => writeInput [b])
  else writeInput newData.

(** [\x1b]0;] and [\x07] around the UTF-8 title.  The overload of
    [write] that takes a C string stops at the first NUL. *)
Fixpoint c_str (data : bytes) : bytes :=
  match data with
  | [] => []
  | b :: rest => if Byte.eqb b x00 then [] else b :: c_str rest
  end.

Definition titleCommand (newTitle : wstring) : bytes :=
  [x1b; x5d; x30; x3b] ++ utf8FromWide P newTitle ++ [x07].

Definition syncConsoleTitle : M unit :=
  newTitle <- gets (fun s => console_title P (world s)) ;;
  currentTitle <- gets m_currentTitle ;;
  when (negb (wstring_eqb newTitle currentTitle)) (
    let command := titleCommand newTitle in
    conout_write (c_str command) ;;;
    modify (set_currentTitle newTitle)).

Definition scrapeBuffers : M unit :=
  with_FreezeGuard true (
    primaryBuffer <- gets openPrimaryBuffer ;;
    modify (record (EvScrapeBuffer PrimaryScraper)) ;;;
    '(info, output) <- call (scraper_scrapeBuffer P PrimaryScraper primaryBuffer) ;;
    terminal_write PrimaryScraper output ;;;
    setMouseWindowRect (windowRect info) ;;;
    hasErrorScraper <- gets m_errorScraper ;;
    when hasErrorScraper (
      modify (record (EvScrapeBuffer ErrorScraper)) ;;;
      '(info, output) <- call (scraper_scrapeBuffer P ErrorScraper ErrorBuffer) ;;
      terminal_write ErrorScraper output)).

Definition autoClosePipesForShutdown : M unit :=
  closing <- gets m_closingOutputPipes ;;
  when closing (
    conout <- gets m_conoutPipe ;;
    when (negb (NamedPipe.isClosed conout) &&
          (NamedPipe.bytesToSend conout =? 0)) (
      trace Trace_ClosingConout ;;;
      modify (record (EvClosePipe ConoutPipe)) ;;;
      conout_closePipe) ;;;
    conerr <- gets m_conerrPipe ;;
    match conerr with
    | Some p =>
        when (negb (NamedPipe.isClosed p) && (NamedPipe.bytesToSend p =? 0)) (
          trace Trace_ClosingConerr ;;;
          modify (record (EvClosePipe ConerrPipe)) ;;;
          conerr_closePipe)
    | None => ret tt
    end).

Definition onPollTimeout : M unit :=
  (* Check the mouse input flag so we can output a trace message. *)
  enableMouseMode <- call (consoleInput_updateMouseInputFlags P) ;;
  (* Give the ConsoleInput object a chance to flush input from an
     incomplete escape sequence (e.g. pressing ESC). *)
  call_ (consoleInput_flushIncompleteEscapeCode P) ;;;
  closing <- gets m_closingOutputPipes ;;
  let shouldScrapeContent := negb closing in
  (* Check if the child process has exited. *)
  s <- gets (fun s => s) ;;
  when (m_autoShutdown s &&
        negb (m_childProcess s =? NULL) &&
        WaitForSingleObject_signaled P (m_childProcess s) (world s)) (
    modify (record (EvCloseHandle (m_childProcess s))) ;;;
    call_ (CloseHandle P (m_childProcess s)) ;;;
    modify (set_childProcess NULL) ;;;
    modify (set_closingOutputPipes true)) ;;;
  (* Scrape for output *after* the above exit-check to ensure that we
     collect the child process's final output. *)
  when shouldScrapeContent (
    syncConsoleTitle ;;;
    scrapeBuffers) ;;;
  (* We must ensure that we disable mouse mode before closing the CONOUT
     pipe, so update the mouse mode here. *)
  closing <- gets m_closingOutputPipes ;;
  output <- call (terminal_enableMouseMode P (enableMouseMode && negb closing)) ;;
  terminal_write PrimaryScraper output ;;;
  autoClosePipesForShutdown.

Definition onPipeIo (namedPipe : PipeRole) (s : Agent) : option (Outcome unit) :=
  match namedPipe with
  | ConoutPipe => Some (autoClosePipesForShutdown s)
  | ConerrPipe => Some (autoClosePipesForShutdown s)
  | ConinPipe => Some (pollConinPipe s)
  | ControlPipe => pollControlPipe s
  end.

(** ** Construction *)

Definition hasFlag (flags flag : Z) : bool := negb (Z.land flags flag =? 0).

(** The members as they are when the constructor body is entered: the
    three from the initialiser list, the others at their defaults.  The
    pipe members are unset until the body assigns them. *)
Definition Agent_members (agentFlags mouseMode : Z) (w : World) : Agent :=
  let unset := mkPipe [] Closed [] [] 0 in
  mkAgent (hasFlag agentFlags (WINPTY_FLAG_CONERR P))
          (hasFlag agentFlags (WINPTY_FLAG_PLAIN_OUTPUT P))
          mouseMode
          (mkConsole false false)
          unset unset unset None false
          (mkConsoleInput (mkSmallRect 0 0 0 0))
          NULL false false [] false w [].

Definition Agent_ctor_body (controlPipeName : wstring) (agentFlags : Z)
    (initialCols initialRows : Z) : M unit :=
  trace Trace_AgentEntered ;;;
  useConerr <- gets m_useConerr ;;
  plainMode <- gets m_plainMode ;;
  mouseMode <- gets m_mouseMode ;;
  let outputColor :=
    negb plainMode || hasFlag agentFlags (WINPTY_FLAG_COLOR_ESCAPES P) in
  let initialSize := mkCoord initialCols initialRows in
  primaryBuffer <- gets openPrimaryBuffer ;;
  when useConerr (call_ (createErrorBuffer P)) ;;;
  initConsoleFreezeMethod primaryBuffer ;;;
  modify (set_controlPipe (connectToControlPipe controlPipeName)) ;;;
  conin <- createDataServerPipe false (L "conin") ;;
  modify (set_coninPipe conin) ;;;
  conout <- createDataServerPipe true (L "conout") ;;
  modify (set_conoutPipe conout) ;;;
  conerr <-
    (if useConerr
     then p <- createDataServerPipe true (L "conerr") ;; ret (Some p)
     else ret None) ;;
  modify (set_conerrPipe conerr) ;;;
  (* Send an initial response packet to winpty.dll containing pipe names. *)
  (let setupPacket := newPacket in
   let setupPacket := WriteBuffer.putWString (NamedPipe.name conin) setupPacket in
   let setupPacket := WriteBuffer.putWString (NamedPipe.name conout) setupPacket in
   let setupPacket :=
     match conerr with
     | Some p => WriteBuffer.putWString (NamedPipe.name p) setupPacket
     | None => setupPacket
     end in
   writePacket setupPacket) ;;;
  call_ (scraper_new P PrimaryScraper primaryBuffer plainMode outputColor initialSize) ;;;
  when useConerr (
    call_ (scraper_new P ErrorScraper ErrorBuffer plainMode outputColor initialSize) ;;;
    modify (set_errorScraper true)) ;;;
  currentTitle <- gets m_currentTitle ;;
  call_ (console_setTitle P currentTitle) ;;;
  conin <- gets (fun s => GetStdHandle P STD_INPUT_HANDLE (world s)) ;;
  call_ (consoleInput_new P conin mouseMode) ;;;
  (* Setup Ctrl-C handling. *)
  call_ (SetConsoleCtrlHandler P None false) ;;;
  call_ (SetConsoleCtrlHandler P (Some consoleCtrlHandler) true).

Definition Agent_ctor (controlPipeName : wstring) (agentFlags mouseMode : Z)
    (initialCols initialRows : Z) (w : World) : Outcome unit :=
  Agent_ctor_body controlPipeName agentFlags initialCols initialRows
                  (Agent_members agentFlags mouseMode w).

(** ** The event loop

    Modelled from the spec: the class EventLoop and the transport inside
    NamedPipe.  The loop is a "single reactor: one blocking wait on the set
    of pipe-readiness conditions plus a fixed periodic timeout", calling
    [onPipeIo] and [onPollTimeout]; it runs until [shutdown].  Between two
    handlers the transport moves a pipe along its "connect/open/closed
    lifecycle", delivers received bytes and completes pending sends, and
    anything outside the agent may change. *)

Inductive pipe_io : NamedPipe -> NamedPipe -> Prop :=
| io_connected : forall p,
    pipe_state p = Connecting ->
    pipe_io p (mkPipe (pipe_name p) Open (inQueue p) (outQueue p) (m_readBufferSize p))
| io_received : forall p data,
    pipe_state p = Open ->
    pipe_io p (mkPipe (pipe_name p) Open (inQueue p ++ data) (outQueue p)
                      (m_readBufferSize p))
| io_sent : forall p n,
    pipe_state p = Open ->
    pipe_io p (mkPipe (pipe_name p) Open (inQueue p) (skipn n (outQueue p))
                      (m_readBufferSize p))
| io_closed : forall p,
    pipe_io p (NamedPipe.closePipe p).

Inductive step : Agent -> Agent -> Prop :=
| step_world : forall s w,
    step s (set_world w s)
| step_io_control : forall s p,
    pipe_io (m_controlPipe s) p -> step s (set_controlPipe p s)
| step_io_conin : forall s p,
    pipe_io (m_coninPipe s) p -> step s (set_coninPipe p s)
| step_io_conout : forall s p,
    pipe_io (m_conoutPipe s) p -> step s (set_conoutPipe p s)
| step_io_conerr : forall s p0 p,
    m_conerrPipe s = Some p0 ->
    pipe_io p0 p -> step s (set_conerrPipe (Some p) s)
| step_onPipeIo : forall s namedPipe s',
    m_exiting s = false ->
    onPipeIo namedPipe s = Some (Ok tt s') -> step s s'
| step_onPollTimeout : forall s s',
    m_exiting s = false ->
    onPollTimeout s = Ok tt s' -> step s s'.

(** The states an agent can be in between two events of the event loop. *)
Inductive reachable : Agent -> Prop :=
| reachable_constructed :
    forall controlPipeName agentFlags mouseMode initialCols initialRows w s,
      Agent_ctor controlPipeName agentFlags mouseMode initialCols initialRows w
        = Ok tt s ->
      reachable s
| reachable_step : forall s s',
    reachable s -> step s s' -> reachable s'.

(** The states at the head of a pass of the control loop: a poll starts in
    a reachable state, and every pass that goes round again leads to the
    next. *)
Inductive polling : Agent -> Prop :=
| polling_start : forall s,
    reachable s -> polling s
| polling_next : forall s s',
    polling s -> pollControlPipe_body s = Ok true s' -> polling s'.

(** The states in which a packet handler is entered: a pass of the loop
    has found a complete frame of acceptable size at the head of the
    control pipe, has read it, and [handlePacket] has been called with
    it.  (Reading the message type does not change the state.) *)
Inductive handlerEntry : Agent -> Prop :=
| handlerEntry_intro : forall s,
    polling s ->
    (8 <= length (inQueue (m_controlPipe s)))%nat ->
    8 <= le_decode (NamedPipe.peek 8 (m_controlPipe s)) <= SIZE_MAX (arch P) ->
    le_decode (NamedPipe.peek 8 (m_controlPipe s))
      <= Z.of_nat (length (inQueue (m_controlPipe s))) ->
    let n := Z.to_nat (le_decode (NamedPipe.peek 8 (m_controlPipe s))) in
    handlerEntry
      (record (EvHandlePacket (fst (NamedPipe.read n (m_controlPipe s))))
         (set_controlPipe (snd (NamedPipe.read n (m_controlPipe s))) s)).

(** ** Notions of the specification *)

(** The data pipes in creation order: input, primary output, secondary
    output when configured. *)
Definition dataPipesInOrder (s : Agent) : list NamedPipe :=
  m_coninPipe s :: m_conoutPipe s ::
  match m_conerrPipe s with Some p => [p] | None => [] end.

(** The names of the data pipes that are still in the connecting state. *)
Definition pendingNames (s : Agent) : list wstring :=
  map NamedPipe.name (filter NamedPipe.isConnecting (dataPipesInOrder s)).

(** [join sep [a; b; c]] is [a ++ sep ++ b ++ sep ++ c]. *)
Fixpoint join (sep : wstring) (l : list wstring) : wstring :=
  match l with
  | [] => []
  | [x] => x
  | x :: rest => x ++ sep ++ join sep rest
  end.

(** The frame that [writePacket] sends for a payload: the eight-byte total
    length, then the payload. *)
Definition frameOf (payload : bytes) : bytes :=
  le_encode 8 (8 + Z.of_nat (length payload)) ++ payload.

(** The declared total length of a frame: its first eight bytes. *)
Definition declaredLength (frame : bytes) : Z := le_decode (firstn 8 frame).

(** The frames handed to [handlePacket], oldest first. *)
Fixpoint dispatched (h : list Event) : list bytes :=
  match h with
  | [] => []
  | EvHandlePacket frame :: rest => frame :: dispatched rest
  | _ :: rest => dispatched rest
  end.

(** Whether the history holds an attempt to create a process. *)
Fixpoint spawnAttempts (h : list Event) : nat :=
  match h with
  | [] => O
  | EvCreateProcessW _ :: rest => S (spawnAttempts rest)
  | _ :: rest => spawnAttempts rest
  end.

(** The scrape passes (calls of a scraper's [scrapeBuffer]) in a history. *)
Fixpoint scrapes (h : list Event) : list ScraperId :=
  match h with
  | [] => []
  | EvScrapeBuffer which :: rest => which :: scrapes rest
  | _ :: rest => scrapes rest
  end.

Fixpoint closedPipes (h : list Event) : list PipeRole :=
  match h with
  | [] => []
  | EvClosePipe role :: rest => role :: closedPipes rest
  | _ :: rest => closedPipes rest
  end.

(** The fields of a StartProcess request, in wire order. *)
Record StartProcessRequest := mkStartProcessRequest {
  req_spawnFlags : Z;
  req_wantProcessHandle : Z;
  req_wantThreadHandle : Z;
  req_program : wstring;
  req_cmdline : wstring;
  req_cwd : wstring;
  req_env : wstring;
  req_desktop : wstring
}.

(** A packet, positioned behind the message type, holds a StartProcess
    request when its fields can be read in order and nothing follows. *)
Definition parseStartProcess (packet : ReadBuffer) : option StartProcessRequest :=
  match ReadBuffer.getInt64 packet with
  | Some (spawnFlags, packet) =>
  match ReadBuffer.getInt32 packet with
  | Some (wantProcessHandle, packet) =>
  match ReadBuffer.getInt32 packet with
  | Some (wantThreadHandle, packet) =>
  match ReadBuffer.getWString packet with
  | Some (program, packet) =>
  match ReadBuffer.getWString packet with
  | Some (cmdline, packet) =>
  match ReadBuffer.getWString packet with
  | Some (cwd, packet) =>
  match ReadBuffer.getWString packet with
  | Some (env, packet) =>
  match ReadBuffer.getWString packet with
  | Some (desktop, packet) =>
  match ReadBuffer.assertEof packet with
  | Some _ =>
      Some (mkStartProcessRequest spawnFlags wantProcessHandle wantThreadHandle
              program cmdline cwd env desktop)
  | None => None end
  | None => None end
  | None => None end
  | None => None end
  | None => None end
  | None => None end
  | None => None end
  | None => None end
  | None => None end.

(** Likewise for a SetSize request: [cols], [rows], end of packet. *)
Definition parseSetSize (packet : ReadBuffer) : option (Z * Z) :=
  match ReadBuffer.getInt32 packet with
  | Some (cols, packet) =>
  match ReadBuffer.getInt32 packet with
  | Some (rows, packet) =>
  match ReadBuffer.assertEof packet with
  | Some _ => Some (cols, rows)
  | None => None end
  | None => None end
  | None => None end.

(** The state in which a computation ended, however it ended. *)
Definition final {A} (r : Outcome A) : Agent :=
  match r with
  | Ok _ s => s
  | Throw s => s
  | Abort _ s => s
  end.

(** [post r Q F]: [Q] holds if [r] is a return, [F] if it is a failure. *)
Definition post {A} (r : Outcome A) (Q : A -> Agent -> Prop) (F : Agent -> Prop)
  : Prop :=
  match r with
  | Ok a s => Q a s
  | Throw s => F s
  | Abort _ s => F s
  end.

(** [m] relates every state to the state it ends in by [R]. *)
Definition keeps {A} (R : Agent -> Agent -> Prop) (m : M A) : Prop :=
  forall s, R s (final (m s)).

(** What a method that only talks to pipes and collaborators leaves alone:
    the identity of the data pipes and the fact that a pipe never goes back
    to the connecting state. *)
Definition pipeKept (p p' : NamedPipe) : Prop :=
  pipe_name p' = pipe_name p /\
  (NamedPipe.isConnecting p' = true -> NamedPipe.isConnecting p = true).

Definition optPipeKept (o o' : option NamedPipe) : Prop :=
  match o, o' with
  | Some p, Some p' => pipeKept p p'
  | None, None => True
  | _, _ => False
  end.

Definition samePipes (s s' : Agent) : Prop :=
  pipeKept (m_coninPipe s) (m_coninPipe s') /\
  pipeKept (m_conoutPipe s) (m_conoutPipe s') /\
  optPipeKept (m_conerrPipe s) (m_conerrPipe s').

(** The unread input of the control pipe and the list of dispatched frames
    are untouched. *)
Definition sameControlInput (s s' : Agent) : Prop :=
  inQueue (m_controlPipe s') = inQueue (m_controlPipe s) /\
  dispatched (history s') = dispatched (history s).

Definition sameChild (s s' : Agent) : Prop :=
  m_childProcess s' = m_childProcess s /\
  m_closingOutputPipes s' = m_closingOutputPipes s.

Definition frame (s s' : Agent) : Prop :=
  samePipes s s' /\ sameControlInput s s' /\ sameChild s s'.

(** The invariant of the event loop behind the spawn handshake: the data
    pipes have names, and once a child is tracked or the closing phase has
    begun no data pipe is still connecting. *)
Definition Inv (s : Agent) : Prop :=
  Forall (fun p => NamedPipe.name p <> []) (dataPipesInOrder s) /\
  (m_childProcess s <> NULL \/ m_closingOutputPipes s = true ->
   pendingNames s = []).

(** The frame of the spawn handler: it may set the child process. *)
Definition frameSpawn (s s' : Agent) : Prop :=
  samePipes s s' /\ sameControlInput s s' /\
  m_closingOutputPipes s' = m_closingOutputPipes s.

(** How a poll tick may change the child record and the closing flag: the
    child is kept or dropped, and the closing phase begins only for a
    tracked child. *)
Definition childDropped (s s' : Agent) : Prop :=
  (m_childProcess s' = m_childProcess s \/ m_childProcess s' = NULL) /\
  (m_closingOutputPipes s' = m_closingOutputPipes s \/ m_childProcess s <> NULL).


(** [m] never fails, and relates every state to the state it returns in
    by [R]. *)
Definition returns {A} (R : Agent -> Agent -> Prop) (m : M A) : Prop :=
  forall s, post (m s) (fun _ s' => R s s') (fun _ => False).

(** What the helpers of a poll tick and of a resize leave alone, besides
    the frame: the configuration, what was sent on the control pipe, and
    whether the output pipes are open; [passes] are the scrape passes they
    add. *)
Definition quietBut (passes : list ScraperId) (s s' : Agent) : Prop :=
  frame s s' /\
  scrapes (history s') = scrapes (history s) ++ passes /\
  m_errorScraper s' = m_errorScraper s /\
  m_useConerr s' = m_useConerr s /\
  m_autoShutdown s' = m_autoShutdown s /\
  outQueue (m_controlPipe s') = outQueue (m_controlPipe s) /\
  pipe_state (m_conoutPipe s') = pipe_state (m_conoutPipe s) /\
  option_map pipe_state (m_conerrPipe s') = option_map pipe_state (m_conerrPipe s).

Definition quiet (s s' : Agent) : Prop := quietBut [] s s'.


(** ** Notions for auto-shutdown *)

(** What one evaluation of auto-close does to an output pipe: the pipe is
    closed if the closing phase is on, the pipe is not closed yet and it
    has nothing left to send; otherwise it is left as it is. *)
Definition drainedAndDue (closing : bool) (p : NamedPipe) : bool :=
  closing && negb (NamedPipe.isClosed p) && (NamedPipe.bytesToSend p =? 0).

Definition afterAutoClose (closing : bool) (p : NamedPipe) : NamedPipe :=
  if drainedAndDue closing p then NamedPipe.closePipe p else p.

(** The scrape passes of one call of [scrapeBuffers]. *)
Definition scrapePass (s : Agent) : list ScraperId :=
  PrimaryScraper :: (if m_errorScraper s then [ErrorScraper] else []).

(** The world in which a poll tick tests the child process: after the
    input translator has updated its mouse flags and flushed an incomplete
    escape sequence. *)
Definition worldAtExitCheck (s : Agent) : World :=
  consoleInput_flushIncompleteEscapeCode P
    (snd (consoleInput_updateMouseInputFlags P (world s))).

(** Whether a poll tick entered in [s] detects the exit of the child. *)
Definition detectsExit (s : Agent) : bool :=
  m_autoShutdown s &&
  negb (m_childProcess s =? NULL) &&
  WaitForSingleObject_signaled P (m_childProcess s) (worldAtExitCheck s).


(** ** Notions for the control loop *)

(** The declared length of the frame at the head of the control pipe:
    what the loop peeks. *)
Definition headLength (s : Agent) : Z :=
  declaredLength (inQueue (m_controlPipe s)).


(** Between [s] and [s'] the loop took exactly the frames [frames] off the
    control pipe and handed each one to [handlePacket]; every one of them
    is as long as its header declares and at least as long as the header. *)
Definition consumedFrames (frames : list bytes) (s s' : Agent) : Prop :=
  inQueue (m_controlPipe s) = concat frames ++ inQueue (m_controlPipe s') /\
  dispatched (history s') = dispatched (history s) ++ frames /\
  Forall (fun f => declaredLength f = Z.of_nat (length f) /\
                   8 <= declaredLength f <= SIZE_MAX (arch P)) frames.


(** ** Notions for freeze calibration *)

(** The world in which the probe is made: buffer and window at least two
    by two, cursor at the probe coordinate (1, 1). *)
Definition probeWorld (buffer : BufferId) (w : World) : World :=
  let info := buffer_bufferInfo P buffer w in
  buffer_setCursorPosition P buffer (mkCoord 1 1)
    (buffer_moveWindow P buffer (mkSmallRect 0 0 2 2)
       (buffer_resizeBuffer P buffer
          (mkCoord (Z.max 2 (X (dwSize info))) (Z.max 2 (Y (dwSize info)))) w)).

(** Whether freezing with command [c] leaves the probe cursor where it was
    put. *)
Definition leavesProbeUnchanged (c : Syscommand) (buffer : BufferId) (w : World)
  : bool :=
  Coord_eqb (buffer_cursorPosition P buffer
               (console_sendSyscommand P c (probeWorld buffer w)))
            (mkCoord 1 1).

(** The command that every later freeze sends. *)
Definition selectedSyscommand (s : Agent) : Syscommand :=
  if m_freezeUsesMark (m_console s) then SC_CONSOLE_MARK else SC_CONSOLE_SELECT_ALL.

(** ** Notions for title synchronisation *)

(** [sent] is [whole] as a C string: the bytes of [whole] in front of
    its first NUL, and all of it if it holds none. *)
Definition asCString (whole sent : bytes) : Prop :=
  ~ In x00 sent /\
  exists tail,
    whole = sent ++ tail /\ (tail = [] \/ exists t, tail = x00 :: t).

(** The bytes that were appended to the primary output pipe between [s]
    and [s']. *)
Definition sentToConout (s s' : Agent) : bytes :=
  skipn (length (outQueue (m_conoutPipe s))) (outQueue (m_conoutPipe s')).

(** A run of title-sync passes, one per world in [ws] (the console title
    may change between passes).  Returns the last state and what the
    passes appended to the primary output pipe, oldest first; a pass that
    appended nothing leaves no entry. *)
Fixpoint titleSyncRun (ws : list World) (s : Agent) (written : list bytes)
  : Agent * list bytes :=
  match ws with
  | [] => (s, written)
  | w :: rest =>
      let s0 := set_world w s in
      let s1 := final (syncConsoleTitle s0) in
      titleSyncRun rest s1
        (match sentToConout s0 s1 with
         | [] => written
         | _ :: _ => written ++ [sentToConout s0 s1]
         end)
  end.

(** ** Notions for the life of the agent *)

(** The processes created so far: the successful calls of
    [CreateProcessW], each of which is traced. *)
Fixpoint created (h : list Event) : nat :=
  match h with
  | [] => O
  | EvTrace (Trace_CreateProcess true _) :: rest => S (created rest)
  | _ :: rest => created rest
  end.

(** The handles closed so far, oldest first. *)
Fixpoint closedHandles (h : list Event) : list HANDLE :=
  match h with
  | [] => []
  | EvCloseHandle handle :: rest => handle :: closedHandles rest
  | _ :: rest => closedHandles rest
  end.

Definition hasConerrPipe (s : Agent) : bool :=
  match m_conerrPipe s with Some _ => true | None => false end.

(** What no handler changes: the configuration fixed by the constructor,
    the state of the control pipe, and that the loop has not been told to
    stop. *)
Definition config (s s' : Agent) : Prop :=
  pipe_state (m_controlPipe s') = pipe_state (m_controlPipe s) /\
  m_exiting s' = m_exiting s /\
  m_useConerr s' = m_useConerr s /\
  m_plainMode s' = m_plainMode s /\
  m_mouseMode s' = m_mouseMode s /\
  m_errorScraper s' = m_errorScraper s /\
  m_freezeUsesMark (m_console s') = m_freezeUsesMark (m_console s) /\
  hasConerrPipe s' = hasConerrPipe s.

(** What every handler but the spawn handler leaves alone as well:
    whether auto-shutdown is armed, and the processes created. *)
Definition armed (s s' : Agent) : Prop :=
  config s s' /\
  m_autoShutdown s' = m_autoShutdown s /\
  created (history s') = created (history s).

(** What the helpers of the handlers leave alone: no handle is closed by
    them either. *)
Definition settled (s s' : Agent) : Prop :=
  armed s s' /\
  closedHandles (history s') = closedHandles (history s).

(** Facts about the life of an agent: the three marks of the secondary
    output stream agree, the loop is told to stop only once the control
    pipe is closed, and the closing phase begins only for an armed
    auto-shutdown and leaves no child tracked. *)
Definition Life (s : Agent) : Prop :=
  m_errorScraper s = m_useConerr s /\
  hasConerrPipe s = m_useConerr s /\
  (m_exiting s = true -> NamedPipe.isClosed (m_controlPipe s) = true) /\
  (m_closingOutputPipes s = true ->
   m_childProcess s = NULL /\ m_autoShutdown s = true).

(** The arguments of [CreateProcessW] for a request: an empty string
    becomes a null pointer, the command line and the desktop get a
    terminating NUL, and the standard handles are passed (and handles
    inherited) only with the secondary output stream. *)
Definition requestArgs (s : Agent) (req : StartProcessRequest)
  : CreateProcessArgs :=
  mkCreateProcessArgs
    (if isEmpty (req_program req) then None else Some (req_program req))
    (if isEmpty (req_cmdline req) then None else Some (req_cmdline req ++ [0]))
    (m_useConerr s) CREATE_UNICODE_ENVIRONMENT
    (if isEmpty (req_env req) then None else Some (req_env req))
    (if isEmpty (req_cwd req) then None else Some (req_cwd req))
    (if isEmpty (req_desktop req) then None else Some (req_desktop req ++ [0]))
    (if m_useConerr s
     then Some (GetStdHandle P STD_INPUT_HANDLE (world s),
                GetStdHandle P STD_OUTPUT_HANDLE (world s),
                buffer_conout P ErrorBuffer (world s))
     else None).

(** The handle value a reply carries for the new process or thread: zero
    unless the request wants the handle, else its duplicate.  [None] when
    [DuplicateHandle] fails. *)
Definition replyHandle (wanted : Z) (h : HANDLE) (w : World)
  : option (Z * World) :=
  if wanted =? 0 then Some (0, w)
  else match DuplicateHandle P h w with
       | (Some dup, w') => Some (int64FromHandle dup, w')
       | (None, _) => None
       end.

(** The pieces in which input is handed to the translator: whole, or byte
    by byte under the debug flag. *)
Definition inputChunks (separated : bool) (data : bytes) : list bytes :=
  if separated then map (fun b => [b]) data else [data].

(** Feeding the pieces to the translator in order: how many status
    reports it asked for in all, and the world afterwards. *)
Fixpoint inputRun (chunks : list bytes) (w : World) : nat * World :=
  match chunks with
  | [] => (O, w)
  | c :: rest =>
      let (k, w1) := consoleInput_writeInput P c w in
      let (k', w2) := inputRun rest w1 in
      ((k + k')%nat, w2)
  end.

(** What feeding input to the translator does to the agent: the world
    becomes [w], [k] status report requests are appended to the primary
    output pipe, and nothing else that is observable changes. *)
Definition answered (k : nat) (w : World) (s s' : Agent) : Prop :=
  world s' = w /\
  outQueue (m_conoutPipe s') =
    outQueue (m_conoutPipe s) ++ concat (repeat DSR k) /\
  pipe_state (m_conoutPipe s') = pipe_state (m_conoutPipe s) /\
  m_plainMode s' = m_plainMode s /\
  m_coninPipe s' = m_coninPipe s /\
  m_conerrPipe s' = m_conerrPipe s /\
  m_controlPipe s' = m_controlPipe s /\
  history s' = history s.

(** Whether a status report request is written: not in plain mode, and
    not to a closed pipe. *)
Definition dsrEnabled (s : Agent) : bool :=
  negb (m_plainMode s) && negb (NamedPipe.isClosed (m_conoutPipe s)).

End WithPlatform.

Arguments Ok {World A} a s.
Arguments Throw {World A} s.
Arguments Abort {World A} why s.
Arguments frame {World} s s'.
Arguments samePipes {World} s s'.
Arguments sameControlInput {World} s s'.
Arguments sameChild {World} s s'.
Arguments frameSpawn {World} s s'.
Arguments childDropped {World} s s'.
Arguments quiet {World} s s'.
Arguments quietBut {World} passes s s'.
Arguments config {World} s s'.
Arguments settled {World} s s'.
Arguments armed {World} s s'.
Arguments Life {World} s.
Arguments dsrEnabled {World} s.
Arguments hasConerrPipe {World} s.

(** ** A simulated platform

    A small console: the world is the cursor of the screen buffer, the
    console title, whether the child has exited, and a counter for pipe
    names.  The platform is given its word size and which of the two
    freeze commands moves the cursor (they send it to the origin). *)

Module Sim.

Record World := mkWorld {
  cursor : Coord;
  title : wstring;
  childExited : bool;
  serial : Z
}.

Definition setCursor (c : Coord) (w : World) : World :=
  mkWorld c (title w) (childExited w) (serial w).

Definition info (w : World) : ConsoleScreenBufferInfo :=
  mkInfo (mkCoord 80 300) (cursor w) (mkSmallRect 0 0 80 25).

Definition platform (a : Arch) (markMoves selectAllMoves : bool)
  : Platform World :=
  {| arch := a;
     MAX_CONSOLE_WIDTH := 2500;
     BUFFER_LINE_COUNT := 3000;
     AgentMsg_StartProcess := 0;
     AgentMsg_SetSize := 1;
     StartProcessResult_ProcessCreated := 0;
     StartProcessResult_CreateProcessFailed := 1;
     StartProcessResult_PipesStillOpen := 2;
     WINPTY_FLAG_CONERR := 1;
     WINPTY_FLAG_PLAIN_OUTPUT := 2;
     WINPTY_FLAG_COLOR_ESCAPES := 4;
     WINPTY_SPAWN_FLAG_AUTO_SHUTDOWN := 1;
     CreateProcessW := fun _ w => (Some (mkProcessInformation 100 104 7), w);
     GetLastError := fun _ => 2;
     WaitForSingleObject_signaled := fun _ w => childExited w;
     CloseHandle := fun _ w => w;
     DuplicateHandle := fun h w => (Some (h + 1000), w);
     GetStdHandle := fun k _ =>
       match k with STD_INPUT_HANDLE => 4 | STD_OUTPUT_HANDLE => 8 end;
     SetConsoleCtrlHandler := fun _ _ w => w;
     console_title := title;
     console_setTitle := fun t w => mkWorld (cursor w) t (childExited w) (serial w);
     console_sendSyscommand := fun c w =>
       match c with
       | SC_CONSOLE_MARK => if markMoves then setCursor (mkCoord 0 0) w else w
       | SC_CONSOLE_SELECT_ALL =>
           if selectAllMoves then setCursor (mkCoord 0 0) w else w
       end;
     console_sendEscape := fun w => w;
     createErrorBuffer := fun w => w;
     buffer_conout := fun _ _ => 12;
     buffer_bufferInfo := fun _ w => info w;
     buffer_resizeBuffer := fun _ _ w => w;
     buffer_moveWindow := fun _ _ w => w;
     buffer_setCursorPosition := fun _ c w => setCursor c w;
     buffer_cursorPosition := fun _ w => cursor w;
     scraper_new := fun _ _ _ _ _ w => w;
     scraper_resizeWindow := fun _ _ size w =>
       (mkInfo (mkCoord (X size) 300) (cursor w)
               (mkSmallRect 0 0 (X size) (Y size)), [], w);
     scraper_scrapeBuffer := fun _ _ w => (info w, [x6f; x6b], w);
     terminal_enableMouseMode := fun _ w => ([], w);
     consoleInput_new := fun _ _ w => w;
     consoleInput_updateMouseInputFlags := fun w => (false, w);
     consoleInput_flushIncompleteEscapeCode := fun w => w;
     consoleInput_writeInput := fun _ w => (O, w);
     hasDebugFlag_input_separated_bytes := fun _ => false;
     GenRandom_uniqueName := fun w =>
       ([48 + serial w],
        mkWorld (cursor w) (title w) (childExited w) (serial w + 1));
     utf8FromWide := map byte_of_Z |}.

Definition world0 : World := mkWorld (mkCoord 5 5) [] false 0.

(** A legacy console, where Mark moves the cursor and SelectAll does
    not, in a 64-bit and in a 32-bit build. *)
Definition legacy64 : Platform World := platform Win64 true false.

(** The agent as constructed with the secondary output stream: three
    data pipes, all connecting. *)
Definition fresh : Agent World :=
  final (Agent_ctor legacy64 (L "control") 1 0 80 25 world0).

(** A pipe whose client has connected. *)
Definition connectPipe (p : NamedPipe) : NamedPipe :=
  mkPipe (pipe_name p) Open (inQueue p) (outQueue p) (m_readBufferSize p).

(** All data pipes connected. *)
Definition connected : Agent World :=
  set_conerrPipe (option_map connectPipe (m_conerrPipe fresh))
    (set_conoutPipe (connectPipe (m_conoutPipe fresh))
       (set_coninPipe (connectPipe (m_coninPipe fresh)) fresh)).

(** A child (handle 100) spawned with auto-shutdown, which has exited
    while two bytes are still waiting on the primary output pipe. *)
Definition exited : Agent World :=
  set_world (mkWorld (mkCoord 0 0) [] true 3)
    (set_conoutPipe (NamedPipe.write [x68; x69] (m_conoutPipe connected))
       (set_autoShutdown true (set_childProcess 100 connected))).

(** The closing phase, with the primary output pipe drained and the
    secondary one holding one byte. *)
Definition closing : Agent World :=
  set_closingOutputPipes true
    (set_conerrPipe
       (option_map (NamedPipe.write [x21]) (m_conerrPipe connected))
       (set_autoShutdown true connected)).

(** [bytes] buffered on the control pipe of [s]. *)
Definition receive (data : bytes) (s : Agent World) : Agent World :=
  set_controlPipe
    (mkPipe (pipe_name (m_controlPipe s)) (pipe_state (m_controlPipe s))
            (inQueue (m_controlPipe s) ++ data) (outQueue (m_controlPipe s))
            (m_readBufferSize (m_controlPipe s))) s.

(** The body of a StartProcess request, behind the message type:
    [cmd.exe] as the command line, auto-shutdown, both handles wanted. *)
Definition startProcessFields : bytes :=
  WriteBuffer.putWString []
    (WriteBuffer.putWString []
       (WriteBuffer.putWString []
          (WriteBuffer.putWString (L "cmd.exe")
             (WriteBuffer.putWString []
                (WriteBuffer.putInt32 1
                   (WriteBuffer.putInt32 1
                      (WriteBuffer.putInt64 1 []))))))).

Definition startProcessFrame : bytes :=
  frameOf (WriteBuffer.putInt32 0 [] ++ startProcessFields).

(** The request as [handlePacket] passes it on: behind header and type. *)
Definition startProcessPacket : ReadBuffer := mkReadBuffer startProcessFrame 12.

(** [SetSize(cols, rows)]. *)
Definition setSizeFrame (cols rows : Z) : bytes :=
  frameOf (WriteBuffer.putInt32 rows
             (WriteBuffer.putInt32 cols (WriteBuffer.putInt32 1 []))).

Definition setSizePacket (cols rows : Z) : ReadBuffer :=
  mkReadBuffer (setSizeFrame cols rows) 12.

(** The fresh agent with a StartProcess frame on the control pipe, and
    the state in which the handler is entered for it. *)
Definition spawnRequested : Agent World := receive startProcessFrame fresh.

Definition atSpawnHandler : Agent World :=
  record (EvHandlePacket startProcessFrame)
    (set_controlPipe
       (snd (NamedPipe.read (length startProcessFrame)
               (m_controlPipe spawnRequested)))
       spawnRequested).

(** States of the control pipe: a header declaring 100000 bytes with two
    more bytes behind it; a header declaring 2^32 bytes; a header
    declaring three bytes; one complete SetSize frame; and the pipe
    closed with nine bytes buffered. *)
Definition partialFrame : Agent World :=
  receive (le_encode 8 100000 ++ [x01; x02]) connected.


Definition shortHeader : Agent World := receive (le_encode 8 3) connected.

Definition oneSetSize : Agent World := receive (setSizeFrame 100 30) connected.

Definition controlClosed : Agent World :=
  set_controlPipe
    (NamedPipe.closePipe
       (m_controlPipe (receive (le_encode 8 20 ++ [x01]) connected)))
    connected.

(** The agent before its constructor body has run. *)
Definition members : Agent World := Agent_members legacy64 1 0 world0.

(** The console title changed to [hi]. *)
Definition titled : Agent World :=
  set_world (mkWorld (mkCoord 0 0) (L "hi") false 3) connected.

(** Frames for the dispatcher: a bare header; a message of type 7; a
    SetSize message with one field only; a StartProcess message with no
    fields. *)
Definition bareHeader : Agent World := receive (frameOf []) connected.

Definition unknownMessage : Agent World :=
  receive (frameOf (WriteBuffer.putInt32 7 [])) connected.

Definition shortSetSize : Agent World :=
  receive (frameOf (WriteBuffer.putInt32 80 (WriteBuffer.putInt32 1 [])))
    connected.

Definition emptyStartProcess : Agent World :=
  receive (frameOf (WriteBuffer.putInt32 0 [])) connected.

(** A reply of four bytes, and an agent that receives it followed by one
    more byte. *)
Definition echoPayload : bytes := WriteBuffer.putInt32 7 [].

Definition echoed : Agent World :=
  receive (frameOf echoPayload ++ [x09]) connected.

(** The legacy console on a system where [CreateProcessW] fails, and on
    one where [DuplicateHandle] fails. *)
Definition faulty (createFails duplicateFails : bool) : Platform World :=
  let Q := legacy64 in
  {| arch := arch Q;
     MAX_CONSOLE_WIDTH := MAX_CONSOLE_WIDTH Q;
     BUFFER_LINE_COUNT := BUFFER_LINE_COUNT Q;
     AgentMsg_StartProcess := AgentMsg_StartProcess Q;
     AgentMsg_SetSize := AgentMsg_SetSize Q;
     StartProcessResult_ProcessCreated := StartProcessResult_ProcessCreated Q;
     StartProcessResult_CreateProcessFailed :=
       StartProcessResult_CreateProcessFailed Q;
     StartProcessResult_PipesStillOpen := StartProcessResult_PipesStillOpen Q;
     WINPTY_FLAG_CONERR := WINPTY_FLAG_CONERR Q;
     WINPTY_FLAG_PLAIN_OUTPUT := WINPTY_FLAG_PLAIN_OUTPUT Q;
     WINPTY_FLAG_COLOR_ESCAPES := WINPTY_FLAG_COLOR_ESCAPES Q;
     WINPTY_SPAWN_FLAG_AUTO_SHUTDOWN := WINPTY_SPAWN_FLAG_AUTO_SHUTDOWN Q;
     CreateProcessW := fun a w =>
       if createFails then (None, w) else CreateProcessW Q a w;
     GetLastError := GetLastError Q;
     WaitForSingleObject_signaled := WaitForSingleObject_signaled Q;
     CloseHandle := CloseHandle Q;
     DuplicateHandle := fun h w =>
       if duplicateFails then (None, w) else DuplicateHandle Q h w;
     GetStdHandle := GetStdHandle Q;
     SetConsoleCtrlHandler := SetConsoleCtrlHandler Q;
     console_title := console_title Q;
     console_setTitle := console_setTitle Q;
     console_sendSyscommand := console_sendSyscommand Q;
     console_sendEscape := console_sendEscape Q;
     createErrorBuffer := createErrorBuffer Q;
     buffer_conout := buffer_conout Q;
     buffer_bufferInfo := buffer_bufferInfo Q;
     buffer_resizeBuffer := buffer_resizeBuffer Q;
     buffer_moveWindow := buffer_moveWindow Q;
     buffer_setCursorPosition := buffer_setCursorPosition Q;
     buffer_cursorPosition := buffer_cursorPosition Q;
     scraper_new := scraper_new Q;
     scraper_resizeWindow := scraper_resizeWindow Q;
     scraper_scrapeBuffer := scraper_scrapeBuffer Q;
     terminal_enableMouseMode := terminal_enableMouseMode Q;
     consoleInput_new := consoleInput_new Q;
     consoleInput_updateMouseInputFlags := consoleInput_updateMouseInputFlags Q;
     consoleInput_flushIncompleteEscapeCode :=
       consoleInput_flushIncompleteEscapeCode Q;
     consoleInput_writeInput := consoleInput_writeInput Q;
     hasDebugFlag_input_separated_bytes := hasDebugFlag_input_separated_bytes Q;
     GenRandom_uniqueName := GenRandom_uniqueName Q;
     utf8FromWide := utf8FromWide Q |}.

Definition noSpawn : Platform World := faulty true false.
Definition noDuplicate : Platform World := faulty false true.

(** The request of [startProcessPacket], decoded. *)
Definition startProcessRequest : StartProcessRequest :=
  mkStartProcessRequest 1 1 1 [] (L "cmd.exe") [] [] [].

End Sim.

(** * Properties *)

(** ** Integers and strings on the wire *)

Lemma le_encode_length : forall n z, length (le_encode n z) = n.
Proof.
  induction n as [|n IH]; intros z; simpl; [reflexivity|].
  now rewrite IH.
Qed.

Lemma Z_of_byte_range : forall b, 0 <= Z_of_byte b < 256.
Proof.
  intros b. unfold Z_of_byte.
  pose proof (Byte.to_N_bounded b) as Hb. lia.
Qed.

Lemma Z_of_byte_of_Z : forall z, Z_of_byte (byte_of_Z z) = z mod 256.
Proof.
  intros z. unfold Z_of_byte, byte_of_Z.
  assert (Hr : 0 <= z mod 256 < 256) by (apply Z.mod_pos_bound; lia).
  destruct (Byte.of_N (Z.to_N (z mod 256))) as [b|] eqn:E.
  - apply Byte.to_of_N in E. rewrite E. lia.
  - apply Byte.of_N_None_iff in E. lia.
Qed.

Lemma le_decode_range :
  forall bs, 0 <= le_decode bs < 256 ^ Z.of_nat (length bs).
Proof.
  induction bs as [|b bs IH]; cbn [le_decode length].
  - simpl. lia.
  - rewrite Nat2Z.inj_succ, Z.pow_succ_r by lia.
    pose proof (Z_of_byte_range b) as Hb.
    remember (256 ^ Z.of_nat (length bs)) as m.
    remember (le_decode bs) as d. remember (Z_of_byte b) as v. lia.
Qed.

Lemma le_decode_encode :
  forall n z, le_decode (le_encode n z) = z mod 256 ^ Z.of_nat n.
Proof.
  induction n as [|n IH]; intros z.
  - simpl. now rewrite Z.mod_1_r.
  - cbn [le_encode le_decode]. rewrite IH, Z_of_byte_of_Z.
    rewrite Nat2Z.inj_succ, Z.pow_succ_r by lia.
    assert (Hp : 0 < 256 ^ Z.of_nat n) by (apply Z.pow_pos_nonneg; lia).
    rewrite Z.rem_mul_r by lia. lia.
Qed.

Lemma wstring_eqb_eq : forall a b, wstring_eqb a b = true <-> a = b.
Proof.
  induction a as [|x a IH]; destruct b as [|y b]; simpl; split;
    try congruence; try reflexivity.
  - intros H. apply andb_prop in H. destruct H as [Hx Hab].
    apply Z.eqb_eq in Hx. apply IH in Hab. congruence.
  - intros H. injection H as -> ->.
    rewrite Z.eqb_refl. simpl. now apply IH.
Qed.

Lemma wstring_eqb_neq : forall a b, wstring_eqb a b = false <-> a <> b.
Proof.
  intros a b. split.
  - intros H E. apply wstring_eqb_eq in E. congruence.
  - intros H. destruct (wstring_eqb a b) eqn:E; [|reflexivity].
    apply wstring_eqb_eq in E. contradiction.
Qed.

(** A frame built by [frameOf] declares its own length, as long as that
    length fits the 64-bit header. *)
Lemma declaredLength_frameOf :
  forall payload,
    8 + Z.of_nat (length payload) < 2 ^ 64 ->
    declaredLength (frameOf payload) = Z.of_nat (length (frameOf payload)).
Proof.
  intros payload Hfit. unfold declaredLength, frameOf.
  rewrite firstn_app, le_encode_length, Nat.sub_diag, firstn_O, app_nil_r.
  rewrite firstn_all2 by (rewrite le_encode_length; lia).
  rewrite le_decode_encode, length_app, le_encode_length.
  change (256 ^ Z.of_nat 8) with (2 ^ 64).
  rewrite Z.mod_small by lia. lia.
Qed.

(** ** Reasoning about agent methods *)

Section Logic.

Context {World : Type}.

Lemma post_bind :
  forall A B (m : M World A) (k : A -> M World B) s
         (Q : B -> Agent World -> Prop) (F : Agent World -> Prop),
    post (m s) (fun a s' => post (k a s') Q F) F ->
    post (bind m k s) Q F.
Proof.
  intros A B m k s Q F H. unfold bind. destruct (m s); simpl in *; auto.
Qed.

Lemma post_mono :
  forall A (r : Outcome World A) (Q Q' : A -> Agent World -> Prop)
         (F F' : Agent World -> Prop),
    post r Q F ->
    (forall a s, Q a s -> Q' a s) -> (forall s, F s -> F' s) ->
    post r Q' F'.
Proof.
  intros A r Q Q' F F' H HQ HF. destruct r; simpl in *; auto.
Qed.

Lemma keeps_post :
  forall A (R : Agent World -> Agent World -> Prop) (m : M World A) s,
    keeps R m -> post (m s) (fun _ s' => R s s') (fun s' => R s s').
Proof.
  intros A R m s H. specialize (H s). destruct (m s); simpl in *; auto.
Qed.

Section Keeps.

Variable R : Agent World -> Agent World -> Prop.
Hypothesis R_refl : forall s, R s s.
Hypothesis R_trans : forall a b c, R a b -> R b c -> R a c.

Lemma keeps_ret : forall A (a : A), keeps R (ret a).
Proof. intros A a s. apply R_refl. Qed.

Lemma keeps_gets : forall A (f : Agent World -> A), keeps R (gets f).
Proof. intros A f s. apply R_refl. Qed.

Lemma keeps_ASSERT : forall why cond, keeps R (ASSERT (World:=World) why cond).
Proof. intros why cond s. unfold ASSERT. destruct cond; apply R_refl. Qed.

Lemma keeps_decode :
  forall A (r : option (A * ReadBuffer)), keeps R (decode (World:=World) r).
Proof. intros A r s. unfold decode. destruct r; apply R_refl. Qed.

Lemma keeps_modify :
  forall f : Agent World -> Agent World,
    (forall s, R s (f s)) -> keeps R (modify f).
Proof. intros f H s. apply H. Qed.

Lemma keeps_bind :
  forall A B (m : M World A) (k : A -> M World B),
    keeps R m -> (forall a, keeps R (k a)) -> keeps R (bind m k).
Proof.
  intros A B m k Hm Hk s. unfold bind.
  specialize (Hm s). destruct (m s) as [a s'| |]; simpl in *; auto.
  eapply R_trans; [exact Hm | apply Hk].
Qed.

Lemma keeps_when :
  forall c (m : M World unit), keeps R m -> keeps R (when c m).
Proof. intros c m H. destruct c; simpl; [exact H | apply keeps_ret]. Qed.

Lemma keeps_try_catch :
  forall A (m h : M World A), keeps R m -> keeps R h -> keeps R (try_catch m h).
Proof.
  intros A m h Hm Hh s. unfold try_catch.
  specialize (Hm s). destruct (m s); simpl in *; auto.
  eapply R_trans; [exact Hm | apply Hh].
Qed.

Lemma keeps_forEach :
  forall A (l : list A) (f : A -> M World unit),
    (forall a, keeps R (f a)) -> keeps R (forEach l f).
Proof.
  intros A l f Hf. induction l as [|x l IH]; simpl.
  - apply keeps_ret.
  - apply keeps_bind; auto.
Qed.

Lemma keeps_repeatM :
  forall n (m : M World unit), keeps R m -> keeps R (repeatM n m).
Proof.
  intros n m Hm. induction n as [|n IH]; simpl.
  - apply keeps_ret.
  - apply keeps_bind; auto.
Qed.

Lemma keeps_call :
  forall A (f : World -> A * World),
    (forall s w, R s (set_world w s)) -> keeps R (call f).
Proof.
  intros A f H s. unfold call. destruct (f (world s)). simpl. apply H.
Qed.

End Keeps.

(** *** The frame *)

Lemma pipeKept_refl : forall p, pipeKept p p.
Proof. intros p. split; auto. Qed.

Lemma pipeKept_trans :
  forall a b c, pipeKept a b -> pipeKept b c -> pipeKept a c.
Proof.
  intros a b c [Hn1 Hc1] [Hn2 Hc2]. split; [congruence | auto].
Qed.

Lemma optPipeKept_refl : forall o, optPipeKept o o.
Proof. intros [p|]; simpl; auto using pipeKept_refl. Qed.

Lemma optPipeKept_trans :
  forall a b c, optPipeKept a b -> optPipeKept b c -> optPipeKept a c.
Proof.
  intros [a|] [b|] [c|]; simpl; try tauto. apply pipeKept_trans.
Qed.

Lemma pipeKept_write : forall p data, pipeKept p (NamedPipe.write data p).
Proof. intros p data. split; auto. Qed.

Lemma pipeKept_closePipe : forall p, pipeKept p (NamedPipe.closePipe p).
Proof. intros p. split; [reflexivity | discriminate]. Qed.

Lemma samePipes_refl : forall s : Agent World, samePipes s s.
Proof.
  intros s. repeat split; auto using optPipeKept_refl.
Qed.

Lemma samePipes_trans :
  forall a b c : Agent World, samePipes a b -> samePipes b c -> samePipes a c.
Proof.
  intros a b c (H1 & H2 & H3) (H4 & H5 & H6).
  split; [|split].
  - eapply pipeKept_trans; eassumption.
  - eapply pipeKept_trans; eassumption.
  - eapply optPipeKept_trans; eassumption.
Qed.

Lemma frame_refl : forall s : Agent World, frame s s.
Proof.
  intros s. split; [apply samePipes_refl | split; split; reflexivity].
Qed.

Lemma frame_trans :
  forall a b c : Agent World, frame a b -> frame b c -> frame a c.
Proof.
  intros a b c (H1 & [H2 H3] & [H4 H5]) (H6 & [H7 H8] & [H9 H10]).
  split; [eapply samePipes_trans; eassumption|].
  split; split; congruence.
Qed.

End Logic.

(** ** Frame properties of the methods *)

Lemma dispatched_app :
  forall h1 h2, dispatched (h1 ++ h2) = dispatched h1 ++ dispatched h2.
Proof.
  induction h1 as [|e h1 IH]; intros h2; simpl; [reflexivity|].
  destruct e; simpl; rewrite ?IH; reflexivity.
Qed.

Lemma keeps_weaken :
  forall World A (R R' : Agent World -> Agent World -> Prop) (m : M World A),
    (forall s s', R s s' -> R' s s') -> keeps R m -> keeps R' m.
Proof. intros World A R R' m H Hm s. apply H, Hm. Qed.

(** Goals of the form [R s (update s)], with [R] built from the frame
    relations. *)
Ltac frame_prim :=
  unfold frame, samePipes, sameControlInput, sameChild; cbn;
  repeat match goal with
         | H : m_conerrPipe _ = _ |- _ => rewrite H
         end;
  unfold optPipeKept;
  repeat match goal with
         | |- _ /\ _ => split
         | |- match ?o with _ => _ end => destruct o
         end;
  rewrite ?dispatched_app, ?app_nil_r;
  auto using pipeKept_refl, pipeKept_write, pipeKept_closePipe.

Create HintDb frame_db.

(** One step through the structure of a method, for a relation [R] with
    proofs [Rrefl] and [Rtrans], known methods being looked up in
    [frame_db]. *)
Ltac keeps_step Rrefl Rtrans :=
  match goal with
  | |- keeps _ (bind _ _) => apply (keeps_bind (Rtrans _)); [ | intro ]
  | |- keeps _ (ret _) => apply (keeps_ret _ (Rrefl _))
  | |- keeps _ (gets _) => apply (keeps_gets _ (Rrefl _))
  | |- keeps _ (ASSERT _ _) => apply (keeps_ASSERT _ (Rrefl _))
  | |- keeps _ (decode _) => apply (keeps_decode _ (Rrefl _))
  | |- keeps _ (when _ _) => apply (keeps_when (Rrefl _))
  | |- keeps _ (try_catch _ _) => apply (keeps_try_catch (Rtrans _))
  | |- keeps _ (forEach _ _) => apply (keeps_forEach (Rrefl _) (Rtrans _)); intro
  | |- keeps _ (repeatM _ _) => apply (keeps_repeatM (Rrefl _) (Rtrans _))
  | |- keeps _ (call _) => apply keeps_call; intros; frame_prim
  | |- keeps _ (call_ _) => apply keeps_modify; intro; frame_prim
  | |- keeps _ (trace _) => apply keeps_modify; intro; frame_prim
  | |- keeps _ (modify _) => apply keeps_modify; intro; frame_prim
  | |- keeps _ (match ?x with _ => _ end) => destruct x
  | |- keeps _ (if ?c then _ else _) => destruct c
  | |- keeps _ _ => solve [auto with frame_db]
  end.

Ltac frame_auto := repeat keeps_step @frame_refl @frame_trans.

Section Frames.

Context {World : Type} (P : Platform World).

Lemma frame_conout_write :
  forall d, keeps frame (conout_write (World:=World) d).
Proof. intros d. unfold conout_write. frame_auto. Qed.

Lemma frame_conerr_write :
  forall d, keeps frame (conerr_write (World:=World) d).
Proof.
  intros d. apply keeps_modify. intros s.
  destruct (m_conerrPipe s) eqn:E; [|apply frame_refl]. frame_prim.
Qed.

Lemma frame_conout_closePipe : keeps frame (conout_closePipe (World:=World)).
Proof. unfold conout_closePipe. frame_auto. Qed.

Lemma frame_conerr_closePipe : keeps frame (conerr_closePipe (World:=World)).
Proof.
  apply keeps_modify. intros s.
  destruct (m_conerrPipe s) eqn:E; [|apply frame_refl]. frame_prim.
Qed.

Lemma frame_terminal_write :
  forall which d, keeps frame (terminal_write (World:=World) which d).
Proof.
  intros [|] d; simpl; [apply frame_conout_write | apply frame_conerr_write].
Qed.

Lemma frame_setFreezeUsesMark :
  forall b, keeps frame (Win32Console_setFreezeUsesMark (World:=World) b).
Proof. intros b. unfold Win32Console_setFreezeUsesMark. frame_auto. Qed.

Lemma frame_setFrozen : forall b, keeps frame (Win32Console_setFrozen P b).
Proof. intros b. unfold Win32Console_setFrozen. frame_auto. Qed.

Hint Resolve frame_conout_write frame_conerr_write frame_conout_closePipe
  frame_conerr_closePipe frame_terminal_write frame_setFreezeUsesMark
  frame_setFrozen : frame_db.

Lemma frame_with_FreezeGuard :
  forall A b (body : M World A),
    keeps frame body -> keeps frame (with_FreezeGuard P b body).
Proof. intros A b body H. unfold with_FreezeGuard. frame_auto. Qed.

Lemma frame_setMouseWindowRect :
  forall r, keeps frame (setMouseWindowRect (World:=World) r).
Proof. intros r. unfold setMouseWindowRect. frame_auto. Qed.

Lemma frame_sendDsr : keeps frame (sendDsr (World:=World)).
Proof. unfold sendDsr. frame_auto. Qed.

Lemma frame_writePacket : forall p, keeps frame (writePacket (World:=World) p).
Proof. intros p. unfold writePacket. frame_auto. Qed.

Lemma frame_duplicateHandle : forall h, keeps frame (duplicateHandle P h).
Proof. intros h. unfold duplicateHandle. frame_auto. Qed.

Hint Resolve frame_setMouseWindowRect frame_sendDsr frame_writePacket
  frame_duplicateHandle : frame_db.

Lemma frame_resizeWindow :
  forall cols rows, keeps frame (resizeWindow P cols rows).
Proof.
  intros cols rows. unfold resizeWindow.
  destruct (invalidSize P cols rows); [frame_auto|].
  apply frame_with_FreezeGuard. frame_auto.
Qed.

Lemma frame_syncConsoleTitle : keeps frame (syncConsoleTitle P).
Proof. unfold syncConsoleTitle. frame_auto. Qed.

Lemma frame_scrapeBuffers : keeps frame (scrapeBuffers P).
Proof.
  unfold scrapeBuffers. apply frame_with_FreezeGuard. frame_auto.
Qed.

Lemma frame_autoClosePipesForShutdown :
  keeps frame (autoClosePipesForShutdown (World:=World)).
Proof. unfold autoClosePipesForShutdown. frame_auto. Qed.

Hint Resolve frame_resizeWindow frame_syncConsoleTitle frame_scrapeBuffers
  frame_autoClosePipesForShutdown : frame_db.

Lemma frame_handleSetSizePacket :
  forall packet, keeps frame (handleSetSizePacket P packet).
Proof. intros packet. unfold handleSetSizePacket. frame_auto. Qed.

Lemma frame_writeInput : forall data, keeps frame (writeInput P data).
Proof. intros data. unfold writeInput. frame_auto. Qed.

Lemma frame_conin_readAllToString :
  keeps frame (conin_readAllToString (World:=World)).
Proof.
  intros s. unfold conin_readAllToString. simpl. frame_prim.
  split; auto.
Qed.

Hint Resolve frame_handleSetSizePacket frame_writeInput
  frame_conin_readAllToString : frame_db.

Lemma frame_pollConinPipe : keeps frame (pollConinPipe P).
Proof. unfold pollConinPipe. frame_auto. Qed.

End Frames.

#[local] Hint Resolve frame_conout_write frame_conerr_write
  frame_conout_closePipe frame_conerr_closePipe frame_terminal_write
  frame_setFreezeUsesMark frame_setFrozen frame_setMouseWindowRect
  frame_sendDsr frame_writePacket frame_duplicateHandle frame_resizeWindow
  frame_syncConsoleTitle frame_scrapeBuffers frame_autoClosePipesForShutdown
  frame_handleSetSizePacket frame_writeInput frame_conin_readAllToString
  frame_pollConinPipe : frame_db.

(** ** The spawn handler and the poll tick *)

Lemma frameSpawn_refl : forall World (s : Agent World), frameSpawn s s.
Proof.
  intros World s. split; [apply samePipes_refl | split; [split|]; reflexivity].
Qed.

Lemma frameSpawn_trans :
  forall World (a b c : Agent World),
    frameSpawn a b -> frameSpawn b c -> frameSpawn a c.
Proof.
  intros World a b c (H1 & [H2 H3] & H4) (H5 & [H6 H7] & H8).
  split; [eapply samePipes_trans; eassumption|].
  split; [split|]; congruence.
Qed.

Lemma frame_frameSpawn :
  forall World (s s' : Agent World), frame s s' -> frameSpawn s s'.
Proof. intros World s s' (H1 & H2 & [H3 H4]). repeat split; try apply H1; try apply H2; auto. Qed.

Lemma frame_samePipes :
  forall World (s s' : Agent World), frame s s' -> samePipes s s'.
Proof. intros World s s' (H1 & _). exact H1. Qed.

Lemma frame_sameChild :
  forall World (s s' : Agent World), frame s s' -> sameChild s s'.
Proof. intros World s s' (_ & _ & H). exact H. Qed.

Ltac spawn_step :=
  first
    [ match goal with
      | |- keeps _ (modify _) =>
          apply keeps_modify; intro; unfold frameSpawn; frame_prim
      | |- keeps _ (trace _) =>
          apply keeps_modify; intro; unfold frameSpawn; frame_prim
      | |- keeps _ (call _) =>
          apply keeps_call; intros; unfold frameSpawn; frame_prim
      | |- keeps _ (call_ _) =>
          apply keeps_modify; intro; unfold frameSpawn; frame_prim
      end
    | keeps_step @frameSpawn_refl @frameSpawn_trans
    | eapply keeps_weaken;
      [exact (@frame_frameSpawn _) | solve [auto with frame_db]] ].

Section Spawn.

Context {World : Type} (P : Platform World).

Lemma frameSpawn_handleStartProcessPacket :
  forall packet, keeps frameSpawn (handleStartProcessPacket P packet).
Proof.
  intros packet. unfold handleStartProcessPacket. repeat spawn_step.
Qed.

End Spawn.

Section Pointwise.

Context {World : Type} (P : Platform World).

Lemma post_True :
  forall A (r : Outcome World A), post r (fun _ _ => True) (fun _ => True).
Proof. intros A [a s|s|why s]; exact I. Qed.

Lemma post_keeps :
  forall A (R : Agent World -> Agent World -> Prop) (m : M World A) s
         (Q : A -> Agent World -> Prop) (F : Agent World -> Prop),
    keeps R m ->
    (forall a s', R s s' -> Q a s') -> (forall s', R s s' -> F s') ->
    post (m s) Q F.
Proof.
  intros A R m s Q F Hm HQ HF. specialize (Hm s).
  destruct (m s); simpl in *; auto.
Qed.

Lemma post_ret :
  forall A (a : A) s (Q : A -> Agent World -> Prop) F,
    Q a s -> post (ret a s) Q F.
Proof. intros. assumption. Qed.

Lemma post_gets :
  forall A (f : Agent World -> A) s (Q : A -> Agent World -> Prop) F,
    Q (f s) s -> post (gets f s) Q F.
Proof. intros. assumption. Qed.

Lemma post_modify :
  forall (f : Agent World -> Agent World) s (Q : unit -> Agent World -> Prop) F,
    Q tt (f s) -> post (modify f s) Q F.
Proof. intros. assumption. Qed.

Lemma post_ASSERT :
  forall why cond s (Q : unit -> Agent World -> Prop) (F : Agent World -> Prop),
    (cond = true -> Q tt s) -> (cond = false -> F s) ->
    post (ASSERT why cond s) Q F.
Proof. intros why [|] s Q F HQ HF; simpl; auto. Qed.

Lemma post_decode :
  forall A (r : option (A * ReadBuffer)) s
         (Q : A * ReadBuffer -> Agent World -> Prop) (F : Agent World -> Prop),
    (forall v, r = Some v -> Q v s) -> (r = None -> F s) ->
    post (decode r s) Q F.
Proof. intros A [v|] s Q F HQ HF; simpl; auto. Qed.

Lemma post_call :
  forall A (f : World -> A * World) s (Q : A -> Agent World -> Prop) F,
    (forall a w, f (world s) = (a, w) -> Q a (set_world w s)) ->
    post (call f s) Q F.
Proof.
  intros A f s Q F H. unfold call. destruct (f (world s)) as [a w] eqn:E.
  simpl. auto.
Qed.

End Pointwise.

(** Projections of updated agents. *)
Ltac agent_simpl :=
  cbn [m_useConerr m_plainMode m_mouseMode m_console m_controlPipe m_coninPipe
       m_conoutPipe m_conerrPipe m_errorScraper m_consoleInput m_childProcess
       m_autoShutdown m_closingOutputPipes m_currentTitle m_exiting world
       history set_console set_controlPipe set_coninPipe set_conoutPipe
       set_conerrPipe set_errorScraper set_consoleInput set_childProcess
       set_autoShutdown set_closingOutputPipes set_currentTitle set_exiting
       set_world record] in *.

(** One step of forward execution from a known state. *)
Ltac post_step :=
  match goal with
  | |- post (bind _ _ _) _ _ => apply post_bind
  | |- post (gets _ _) _ _ => apply post_gets; cbv beta
  | |- post (modify _ _) _ _ => apply post_modify; cbv beta
  | |- post (call_ _ _) _ _ => apply post_modify; cbv beta
  | |- post (trace _ _) _ _ => apply post_modify; cbv beta
  | |- post (ASSERT _ _ _) _ _ =>
      apply post_ASSERT; cbv beta; [intros ? | intros; try exact I]
  | |- post (decode _ _) _ _ =>
      apply post_decode; cbv beta; [intros [? ?] ? | intros; try exact I]
  | |- post (call _ _) _ _ => apply post_call; cbv beta; intros ? ? ?
  | |- post (ret _ _) _ _ => apply post_ret; cbv beta
  end.

Section SpawnChild.

Context {World : Type} (P : Platform World).

(** The spawn handler changes the child record only when it found no data
    pipe connecting. *)
Lemma handleStartProcessPacket_child :
  forall packet (s : Agent World),
    post (handleStartProcessPacket P packet s)
         (fun _ s' =>
            m_childProcess s' = m_childProcess s \/
            fold_left appendPendingPipe (dataPipes s) [] = [])
         (fun _ => True).
Proof.
  intros packet s. unfold handleStartProcessPacket.
  repeat post_step.
  destruct (fold_left appendPendingPipe (dataPipes s) []) as [|c l] eqn:E.
  - simpl. eapply post_mono; [apply post_True | auto | auto].
  - simpl. left. reflexivity.
Qed.

Lemma onPollTimeout_childDropped :
  forall s : Agent World,
    post (onPollTimeout P s) (fun _ s' => childDropped s s') (fun _ => True).
Proof.
  intros s. unfold onPollTimeout.
  repeat post_step. agent_simpl.
  match goal with
  | |- post (when ?c _ _) _ _ => destruct c eqn:Hexit
  end; unfold when; repeat post_step; agent_simpl.
  - apply andb_prop in Hexit. destruct Hexit as [Hexit _].
    apply andb_prop in Hexit. destruct Hexit as [_ Hchild].
    apply negb_true_iff, Z.eqb_neq in Hchild.
    apply post_keeps with (R := frame); [frame_auto | | auto].
    intros _ s1 Hf1. cbv beta.
    apply post_keeps with (R := frame); [frame_auto | | auto].
    intros _ s2 Hf2. cbv beta.
    destruct (@frame_sameChild _ _ _ (frame_trans Hf1 Hf2)) as [Hc Hcl].
    unfold childDropped. agent_simpl.
    split; [right; exact Hc | right; exact Hchild].
  - apply post_keeps with (R := frame); [frame_auto | | auto].
    intros _ s1 Hf1. cbv beta.
    apply post_keeps with (R := frame); [frame_auto | | auto].
    intros _ s2 Hf2. cbv beta.
    destruct (@frame_sameChild _ _ _ (frame_trans Hf1 Hf2)) as [Hc Hcl].
    unfold childDropped. agent_simpl.
    split; [left; exact Hc | left; exact Hcl].
Qed.

Lemma samePipes_onPollTimeout : keeps samePipes (onPollTimeout P).
Proof.
  unfold onPollTimeout.
  repeat first
    [ match goal with
      | |- keeps _ (modify _) => apply keeps_modify; intro; frame_prim
      | |- keeps _ (call _) => apply keeps_call; intros; frame_prim
      | |- keeps _ (call_ _) => apply keeps_modify; intro; frame_prim
      end
    | keeps_step @samePipes_refl @samePipes_trans
    | eapply keeps_weaken;
      [exact (@frame_samePipes _) | solve [auto with frame_db]] ].
Qed.

End SpawnChild.

(** ** The list of pending pipes *)

Section Pending.

Context {World : Type} (P : Platform World).

(** The loop of the spawn handler builds the comma-separated list of the
    names of the connecting pipes, when no data pipe has an empty name. *)
Lemma pipeList_join :
  forall s : Agent World,
    Forall (fun p => NamedPipe.name p <> []) (dataPipesInOrder s) ->
    fold_left appendPendingPipe (dataPipes s) [] = join (L ", ") (pendingNames s).
Proof.
  intros s Hnames. unfold dataPipes, pendingNames, dataPipesInOrder in *.
  destruct (m_coninPipe s) as [n1 st1 i1 o1 b1].
  destruct (m_conoutPipe s) as [n2 st2 i2 o2 b2].
  inversion Hnames as [|? ? Hn1 Hrest]; subst.
  inversion Hrest as [|? ? Hn2 Hrest']; subst.
  unfold NamedPipe.name in *. simpl in Hn1, Hn2.
  destruct n1 as [|c1 n1]; [congruence|].
  destruct n2 as [|c2 n2]; [congruence|].
  destruct (m_conerrPipe s) as [[n3 st3 i3 o3 b3]|].
  - inversion Hrest' as [|? ? Hn3 _]; subst. simpl in Hn3.
    destruct n3 as [|c3 n3]; [congruence|].
    destruct st1, st2, st3; cbn; rewrite <- ?app_assoc; reflexivity.
  - destruct st1, st2; cbn; rewrite <- ?app_assoc; reflexivity.
Qed.

Lemma join_nil :
  forall sep l, Forall (fun x : wstring => x <> []) l -> join sep l = [] -> l = [].
Proof.
  intros sep [|x l] Hl Hj; [reflexivity|].
  inversion Hl as [|? ? Hx _]; subst.
  destruct x as [|c x]; [congruence|].
  destruct l; simpl in Hj; discriminate.
Qed.

Lemma pendingNames_nonempty :
  forall s : Agent World,
    Forall (fun p => NamedPipe.name p <> []) (dataPipesInOrder s) ->
    Forall (fun x : wstring => x <> []) (pendingNames s).
Proof.
  intros s H. unfold pendingNames.
  apply Forall_map. apply Forall_forall. intros p Hp.
  apply filter_In in Hp. destruct Hp as [Hp _].
  rewrite Forall_forall in H. auto.
Qed.

Lemma pipeList_nil :
  forall s : Agent World,
    Forall (fun p => NamedPipe.name p <> []) (dataPipesInOrder s) ->
    fold_left appendPendingPipe (dataPipes s) [] = [] ->
    pendingNames s = [].
Proof.
  intros s Hnames H. rewrite pipeList_join in H by assumption.
  eapply join_nil; [apply pendingNames_nonempty; assumption | exact H].
Qed.

(** *** The invariant *)

Lemma samePipes_names :
  forall s s' : Agent World,
    samePipes s s' ->
    Forall (fun p => NamedPipe.name p <> []) (dataPipesInOrder s) ->
    Forall (fun p => NamedPipe.name p <> []) (dataPipesInOrder s').
Proof.
  intros s s' ([Hn1 _] & [Hn2 _] & H3) H. unfold dataPipesInOrder in *.
  inversion H as [|? ? H1 Hr]; subst. inversion Hr as [|? ? H2 Hr']; subst.
  unfold NamedPipe.name in *.
  constructor; [congruence|]. constructor; [congruence|].
  destruct (m_conerrPipe s) as [p|], (m_conerrPipe s') as [p'|];
    simpl in H3; try contradiction; [|constructor].
  destruct H3 as [Hn3 _]. inversion Hr' as [|? ? H3' _]; subst.
  constructor; [congruence | constructor].
Qed.

Lemma samePipes_pending :
  forall s s' : Agent World,
    samePipes s s' -> pendingNames s = [] -> pendingNames s' = [].
Proof.
  intros s s' ([_ Hc1] & [_ Hc2] & H3) H.
  unfold pendingNames, dataPipesInOrder in *.
  cbn [filter] in *.
  destruct (NamedPipe.isConnecting (m_coninPipe s)) eqn:E1; [discriminate|].
  destruct (NamedPipe.isConnecting (m_conoutPipe s)) eqn:E2; [discriminate|].
  destruct (NamedPipe.isConnecting (m_coninPipe s')) eqn:E1';
    [specialize (Hc1 eq_refl); congruence|].
  destruct (NamedPipe.isConnecting (m_conoutPipe s')) eqn:E2';
    [specialize (Hc2 eq_refl); congruence|].
  destruct (m_conerrPipe s) as [p|], (m_conerrPipe s') as [p'|];
    simpl in H3; try contradiction; [|reflexivity].
  destruct H3 as [_ Hc3]. cbn [filter] in *.
  destruct (NamedPipe.isConnecting p) eqn:E3; [discriminate|].
  destruct (NamedPipe.isConnecting p') eqn:E3';
    [specialize (Hc3 eq_refl); congruence | reflexivity].
Qed.

(** A step keeps the invariant when it keeps the pipes and touches the
    child record and the closing flag only as the two handlers do. *)
Lemma Inv_kept :
  forall s s' : Agent World,
    Inv s ->
    samePipes s s' ->
    (m_childProcess s' <> NULL ->
     m_childProcess s <> NULL \/ pendingNames s = []) ->
    (m_closingOutputPipes s' = true ->
     m_closingOutputPipes s = true \/ m_childProcess s <> NULL) ->
    Inv s'.
Proof.
  intros s s' [Hnames Hpend] Hpipes Hchild Hclosing. split.
  - eapply samePipes_names; eassumption.
  - intros H. eapply samePipes_pending; [eassumption|].
    destruct H as [H|H].
    + destruct (Hchild H) as [H'|H']; auto.
    + destruct (Hclosing H) as [H'|H']; auto.
Qed.

Lemma Inv_frame :
  forall s s' : Agent World, Inv s -> frame s s' -> Inv s'.
Proof.
  intros s s' HI (Hp & _ & [Hc Hcl]).
  eapply Inv_kept; [exact HI | exact Hp | |]; rewrite ?Hc, ?Hcl; auto.
Qed.

End Pending.

(** ** The control loop *)

Section ControlLoop.

Context {World : Type} (P : Platform World).

Lemma handlePacket_frameSpawn :
  forall packet (s : Agent World),
    frameSpawn (record (EvHandlePacket (rb_buf packet)) s)
               (final (handlePacket P packet s)).
Proof.
  intros packet s. unfold handlePacket.
  unfold bind at 1. unfold modify at 1.
  match goal with
  | |- frameSpawn ?s0 (final (?m ?s0)) =>
      assert (Hk : keeps frameSpawn m); [|exact (Hk s0)]
  end.
  repeat spawn_step.
  apply frameSpawn_handleStartProcessPacket.
Qed.

Lemma headLength_peek :
  forall s : Agent World,
    le_decode (NamedPipe.peek 8 (m_controlPipe s)) = headLength s.
Proof. reflexivity. Qed.

(** Fewer than eight bytes buffered: the loop stops. *)
Lemma body_short :
  forall s : Agent World,
    (length (inQueue (m_controlPipe s)) < 8)%nat ->
    pollControlPipe_body P s = Ok false s.
Proof.
  intros s Hlen. unfold pollControlPipe_body. cbn [bind gets].
  unfold NamedPipe.peek. rewrite length_firstn.
  destruct (Nat.ltb_spec (Nat.min 8 (length (inQueue (m_controlPipe s)))) 8);
    [reflexivity | lia].
Qed.

Lemma body_header :
  forall s : Agent World,
    (8 <= length (inQueue (m_controlPipe s)))%nat ->
    (length (NamedPipe.peek 8 (m_controlPipe s)) <? 8)%nat = false.
Proof.
  intros s Hlen. unfold NamedPipe.peek. rewrite length_firstn.
  apply Nat.ltb_ge. lia.
Qed.

(** A header that declares less than its own size, or more than fits in
    memory: the size assertion fails, with the state untouched. *)
Lemma body_badSize :
  forall s : Agent World,
    (8 <= length (inQueue (m_controlPipe s)))%nat ->
    ~ (8 <= headLength s <= SIZE_MAX (arch P)) ->
    pollControlPipe_body P s = Abort Assert_packetSize s.
Proof.
  intros s Hlen Hbad. unfold pollControlPipe_body. cbn [bind gets].
  rewrite body_header by assumption.
  unfold bind, ASSERT. rewrite headLength_peek.
  destruct ((8 <=? headLength s) && (headLength s <=? SIZE_MAX (arch P)))
    eqn:E; [|reflexivity].
  apply andb_prop in E. destruct E as [E1 E2].
  apply Z.leb_le in E1, E2. lia.
Qed.

Lemma body_sizeOk :
  forall s : Agent World,
    8 <= headLength s <= SIZE_MAX (arch P) ->
    (8 <=? le_decode (NamedPipe.peek 8 (m_controlPipe s))) &&
    (le_decode (NamedPipe.peek 8 (m_controlPipe s)) <=? SIZE_MAX (arch P)) = true.
Proof.
  intros s [H1 H2]. rewrite headLength_peek.
  apply andb_true_intro. split; apply Z.leb_le; assumption.
Qed.

(** A header whose frame is not yet complete: the loop stops, after
    growing the read buffer to the declared length if it was smaller. *)
Lemma body_partial :
  forall s : Agent World,
    (8 <= length (inQueue (m_controlPipe s)))%nat ->
    8 <= headLength s <= SIZE_MAX (arch P) ->
    Z.of_nat (length (inQueue (m_controlPipe s))) < headLength s ->
    pollControlPipe_body P s =
    Ok false
       (if NamedPipe.readBufferSize (m_controlPipe s) <? headLength s
        then set_controlPipe
               (NamedPipe.setReadBufferSize (headLength s) (m_controlPipe s)) s
        else s).
Proof.
  intros s Hlen Hsize Hpart. unfold pollControlPipe_body. cbn [bind gets].
  rewrite body_header by assumption.
  unfold bind at 1. rewrite body_sizeOk by assumption. cbn [ASSERT].
  unfold NamedPipe.bytesAvailable.
  rewrite !headLength_peek.
  destruct (Z.ltb_spec (Z.of_nat (length (inQueue (m_controlPipe s)))) (headLength s));
    [|lia].
  unfold bind, when, control_setReadBufferSize, modify, ret.
  destruct (NamedPipe.readBufferSize (m_controlPipe s) <? headLength s);
    reflexivity.
Qed.

(** A complete frame: exactly the declared number of bytes is read, and
    the frame goes to [handlePacket], positioned behind the header. *)
Lemma body_full :
  forall s : Agent World,
    (8 <= length (inQueue (m_controlPipe s)))%nat ->
    8 <= headLength s <= SIZE_MAX (arch P) ->
    headLength s <= Z.of_nat (length (inQueue (m_controlPipe s))) ->
    let n := Z.to_nat (headLength s) in
    let frame := firstn n (inQueue (m_controlPipe s)) in
    let s1 := set_controlPipe (snd (NamedPipe.read n (m_controlPipe s))) s in
    pollControlPipe_body P s =
    match handlePacket P (mkReadBuffer frame 8) s1 with
    | Ok _ s2 => Ok true s2
    | Throw s2 => Abort Assert_decodeError s2
    | Abort why s2 => Abort why s2
    end.
Proof.
  intros s Hlen Hsize Hfull n frame s1.
  unfold pollControlPipe_body. cbn [bind gets].
  rewrite body_header by assumption.
  unfold bind at 1. rewrite body_sizeOk by assumption. cbn [ASSERT].
  unfold NamedPipe.bytesAvailable.
  rewrite !headLength_peek.
  destruct (Z.ltb_spec (Z.of_nat (length (inQueue (m_controlPipe s)))) (headLength s));
    [lia|].
  unfold bind at 1. unfold control_read. cbn [NamedPipe.read].
  fold n. fold frame.
  assert (Hframe : length frame = n).
  { unfold frame. rewrite length_firstn. unfold n. lia. }
  unfold bind at 1. unfold ASSERT at 1.
  rewrite Hframe. unfold n at 1. rewrite Z2Nat.id by lia. rewrite Z.eqb_refl.
  unfold bind at 1. unfold try_catch. unfold bind at 1.
  unfold ReadBuffer.getRawValue, ReadBuffer.getRawData. cbn [rb_off rb_buf].
  assert (H8 : (0 + 8 <=? length frame)%nat = true).
  { apply Nat.leb_le. rewrite Hframe. unfold n. lia. }
  rewrite H8. cbn [decode]. change (0 + 8)%nat with 8%nat.
  change (set_controlPipe _ s) with s1.
  destruct (handlePacket P {| rb_buf := frame; rb_off := 8 |} s1);
    reflexivity.
Qed.

End ControlLoop.

Section ControlLoopRuns.

Context {World : Type} (P : Platform World).

Lemma consumedFrames_nil : forall s : Agent World, consumedFrames P [] s s.
Proof.
  intros s. split; [|split]; simpl; auto.
  symmetry. apply app_nil_r.
Qed.

Lemma consumedFrames_app :
  forall f1 f2 (s s1 s2 : Agent World),
    consumedFrames P f1 s s1 -> consumedFrames P f2 s1 s2 ->
    consumedFrames P (f1 ++ f2) s s2.
Proof.
  intros f1 f2 s s1 s2 (Hq1 & Hd1 & Hf1) (Hq2 & Hd2 & Hf2).
  split; [|split].
  - rewrite Hq1, Hq2, concat_app, app_assoc. reflexivity.
  - rewrite Hd2, Hd1, app_assoc. reflexivity.
  - apply Forall_app. split; assumption.
Qed.

(** What one pass of the loop does to the control pipe, case by case. *)
Lemma body_consumed :
  forall s : Agent World,
    match pollControlPipe_body P s with
    | Ok true s' => exists frame, consumedFrames P [frame] s s'
    | Ok false s' => consumedFrames P [] s s'
    | Throw _ => False
    | Abort why s' =>
        (why = Assert_packetSize /\ s' = s) \/
        exists frame, consumedFrames P [frame] s s'
    end.
Proof.
  intros s.
  destruct (Nat.lt_ge_cases (length (inQueue (m_controlPipe s))) 8) as [Hlen|Hlen].
  { rewrite body_short by assumption. apply consumedFrames_nil. }
  destruct (Z_le_dec 8 (headLength s)) as [H8|H8];
    [destruct (Z_le_dec (headLength s) (SIZE_MAX (arch P))) as [Hmax|Hmax]|].
  2,3: rewrite body_badSize by (assumption || lia); left; split; reflexivity.
  destruct (Z_lt_le_dec (Z.of_nat (length (inQueue (m_controlPipe s))))
                        (headLength s)) as [Hpart|Hfull].
  { rewrite body_partial by (assumption || lia).
    destruct (NamedPipe.readBufferSize (m_controlPipe s) <? headLength s);
      (split; [|split]; simpl; auto; symmetry; apply app_nil_r). }
  rewrite body_full by (assumption || lia).
  set (n := Z.to_nat (headLength s)).
  set (frame := firstn n (inQueue (m_controlPipe s))).
  set (s1 := set_controlPipe (snd (NamedPipe.read n (m_controlPipe s))) s).
  pose proof (handlePacket_frameSpawn P (mkReadBuffer frame 8) s1) as Hh.
  cbn [rb_buf] in Hh.
  assert (Hone : consumedFrames P [frame] s
                   (final (handlePacket P (mkReadBuffer frame 8) s1))).
  { destruct Hh as (_ & [Hq Hd] & _). split; [|split].
    - rewrite Hq. simpl. rewrite app_nil_r. unfold frame.
      symmetry. apply firstn_skipn.
    - rewrite Hd. simpl. rewrite dispatched_app. reflexivity.
    - constructor; [|constructor].
      assert (Hdecl : declaredLength frame = headLength s).
      { unfold headLength, declaredLength, frame.
        rewrite firstn_firstn. f_equal. f_equal. unfold n. lia. }
      rewrite Hdecl. split; [|lia].
      unfold frame. rewrite length_firstn. unfold n. lia. }
  destruct (handlePacket P (mkReadBuffer frame 8) s1) as [[] s2|s2|why s2];
    simpl in Hone; eauto.
Qed.

Lemma loop_consumed :
  forall fuel (s : Agent World) r,
    pollControlPipe_loop P fuel s = Some r ->
    exists frames, consumedFrames P frames s (final r).
Proof.
  induction fuel as [|fuel IH]; intros s r H; simpl in H; [discriminate|].
  pose proof (body_consumed s) as Hb.
  destruct (pollControlPipe_body P s) as [[|] s'|s'|why s'].
  - destruct Hb as [frame Hf]. destruct (IH _ _ H) as [frames Hfs].
    exists ([frame] ++ frames). eapply consumedFrames_app; eassumption.
  - injection H as <-. exists []. exact Hb.
  - contradiction.
  - injection H as <-. destruct Hb as [[_ ->]|[frame Hf]].
    + exists []. apply consumedFrames_nil.
    + exists [frame]. exact Hf.
Qed.

Lemma consumed_one_shorter :
  forall frame (s s' : Agent World),
    consumedFrames P [frame] s s' ->
    (length (inQueue (m_controlPipe s')) < length (inQueue (m_controlPipe s)))%nat.
Proof.
  intros frame s s' (Hq & _ & Hf). inversion Hf as [|? ? [Hlen Hmin] _]; subst.
  rewrite Hq. simpl. rewrite app_nil_r, length_app. lia.
Qed.

(** The loop ends: with more passes allowed than bytes buffered it
    returns a result. *)
Lemma loop_total :
  forall fuel (s : Agent World),
    (length (inQueue (m_controlPipe s)) < fuel)%nat ->
    exists r, pollControlPipe_loop P fuel s = Some r.
Proof.
  induction fuel as [|fuel IH]; intros s Hlen; [lia|]. simpl.
  pose proof (body_consumed s) as Hb.
  destruct (pollControlPipe_body P s) as [[|] s'|s'|why s']; eauto.
  destruct Hb as [frame Hf]. apply IH.
  pose proof (@consumed_one_shorter _ _ _ Hf). lia.
Qed.

Lemma pollControlPipe_total :
  forall s : Agent World, exists r, pollControlPipe P s = Some r.
Proof.
  intros s. unfold pollControlPipe.
  destruct (NamedPipe.isClosed (m_controlPipe s)); [eauto|].
  apply loop_total. lia.
Qed.

End ControlLoopRuns.

(** ** The invariant holds in every reachable state *)

Section Invariant.

Context {World : Type} (P : Platform World).

Lemma Inv_same_data :
  forall s s' : Agent World,
    m_coninPipe s' = m_coninPipe s ->
    m_conoutPipe s' = m_conoutPipe s ->
    m_conerrPipe s' = m_conerrPipe s ->
    m_childProcess s' = m_childProcess s ->
    m_closingOutputPipes s' = m_closingOutputPipes s ->
    Inv s -> Inv s'.
Proof.
  intros s s' H1 H2 H3 H4 H5 [Hn Hp].
  unfold Inv, pendingNames, dataPipesInOrder in *.
  rewrite H1, H2, H3, H4, H5. split; assumption.
Qed.

Lemma handleStartProcessPacket_Inv :
  forall packet (s : Agent World),
    Inv s ->
    post (handleStartProcessPacket P packet s) (fun _ s' => Inv s') (fun _ => True).
Proof.
  intros packet s HI.
  pose proof (frameSpawn_handleStartProcessPacket P packet s) as Hf.
  pose proof (handleStartProcessPacket_child P packet s) as Hc.
  destruct (handleStartProcessPacket P packet s) as [[] s'|s'|why s'];
    simpl in *; auto.
  destruct Hf as (Hp & _ & Hcl).
  eapply Inv_kept; [exact HI | exact Hp | |].
  - intros H. destruct Hc as [Hc|Hc].
    + left. rewrite <- Hc. exact H.
    + right. apply pipeList_nil; [apply HI | exact Hc].
  - intros H. left. congruence.
Qed.

Lemma handlePacket_Inv :
  forall packet (s : Agent World),
    Inv s ->
    post (handlePacket P packet s) (fun _ s' => Inv s') (fun _ => True).
Proof.
  intros packet s HI. unfold handlePacket.
  repeat post_step.
  assert (HI' : Inv (record (EvHandlePacket (rb_buf packet)) s)).
  { eapply Inv_same_data; [| | | | |exact HI]; reflexivity. }
  destruct (z =? AgentMsg_StartProcess P).
  - apply handleStartProcessPacket_Inv. exact HI'.
  - destruct (z =? AgentMsg_SetSize P).
    + apply post_keeps with (R := frame);
        [apply frame_handleSetSizePacket | | auto].
      intros _ s' Hf. eapply Inv_frame; eassumption.
    + simpl. eapply Inv_same_data; [| | | | |exact HI']; reflexivity.
Qed.

Lemma body_Inv :
  forall (s : Agent World),
    Inv s ->
    post (pollControlPipe_body P s) (fun _ s' => Inv s') (fun _ => True).
Proof.
  intros s HI.
  destruct (Nat.lt_ge_cases (length (inQueue (m_controlPipe s))) 8) as [Hlen|Hlen].
  { rewrite body_short by assumption. exact HI. }
  destruct (Z_le_dec 8 (headLength s)) as [H8|H8];
    [destruct (Z_le_dec (headLength s) (SIZE_MAX (arch P))) as [Hmax|Hmax]|].
  2,3: rewrite body_badSize by (assumption || lia); exact I.
  destruct (Z_lt_le_dec (Z.of_nat (length (inQueue (m_controlPipe s))))
                        (headLength s)) as [Hpart|Hfull].
  { rewrite body_partial by (assumption || lia).
    destruct (NamedPipe.readBufferSize (m_controlPipe s) <? headLength s);
      simpl; [|exact HI].
    eapply Inv_same_data; [| | | | |exact HI]; reflexivity. }
  rewrite body_full by (assumption || lia).
  match goal with
  | |- context [handlePacket P ?b ?s1] =>
      assert (HI1 : Inv s1)
        by (eapply Inv_same_data; [| | | | |exact HI]; reflexivity);
      pose proof (@handlePacket_Inv b s1 HI1) as Hh;
      destruct (handlePacket P b s1); simpl in *; auto
  end.
Qed.

Lemma loop_Inv :
  forall fuel (s s' : Agent World),
    Inv s -> pollControlPipe_loop P fuel s = Some (Ok tt s') -> Inv s'.
Proof.
  induction fuel as [|fuel IH]; intros s s' HI H; simpl in H; [discriminate|].
  pose proof (body_Inv HI) as Hb.
  destruct (pollControlPipe_body P s) as [[|] s1|s1|why s1]; simpl in Hb.
  - eapply IH; eassumption.
  - injection H as <-. exact Hb.
  - discriminate.
  - discriminate.
Qed.

Lemma onPipeIo_Inv :
  forall namedPipe (s s' : Agent World),
    Inv s -> onPipeIo P namedPipe s = Some (Ok tt s') -> Inv s'.
Proof.
  intros namedPipe s s' HI H. destruct namedPipe; simpl in H.
  - unfold pollControlPipe in H.
    destruct (NamedPipe.isClosed (m_controlPipe s)).
    + injection H as <-. eapply Inv_same_data; [| | | | |exact HI]; reflexivity.
    + eapply loop_Inv; eassumption.
  - injection H as H. pose proof (frame_pollConinPipe P s) as Hf.
    rewrite H in Hf. eapply Inv_frame; eassumption.
  - injection H as H.
    pose proof (@frame_autoClosePipesForShutdown World s) as Hf.
    rewrite H in Hf. eapply Inv_frame; eassumption.
  - injection H as H.
    pose proof (@frame_autoClosePipesForShutdown World s) as Hf.
    rewrite H in Hf. eapply Inv_frame; eassumption.
Qed.

Lemma onPollTimeout_Inv :
  forall s s' : Agent World,
    Inv s -> onPollTimeout P s = Ok tt s' -> Inv s'.
Proof.
  intros s s' HI H.
  pose proof (samePipes_onPollTimeout P s) as Hp.
  pose proof (onPollTimeout_childDropped P s) as Hc.
  rewrite H in Hp, Hc. simpl in Hp, Hc. destruct Hc as [Hchild Hclosing].
  eapply Inv_kept; [exact HI | exact Hp | |].
  - intros Hn. left. destruct Hchild as [E|E]; congruence.
  - intros Ht. destruct Hclosing as [E|E]; [left; congruence | right; exact E].
Qed.

Lemma pipe_io_kept : forall p p', pipe_io p p' -> pipeKept p p'.
Proof.
  intros p p' H. destruct H; split; simpl; auto; discriminate.
Qed.

Lemma step_Inv : forall s s' : Agent World, Inv s -> step P s s' -> Inv s'.
Proof.
  intros s s' HI H. destruct H.
  - eapply Inv_same_data; [| | | | |exact HI]; reflexivity.
  - eapply Inv_same_data; [| | | | |exact HI]; reflexivity.
  - eapply Inv_kept; [exact HI | | auto | auto].
    repeat split; simpl; auto using optPipeKept_refl; apply pipe_io_kept; auto.
  - eapply Inv_kept; [exact HI | | auto | auto].
    repeat split; simpl; auto using optPipeKept_refl; apply pipe_io_kept; auto.
  - eapply Inv_kept; [exact HI | | auto | auto].
    split; [apply pipeKept_refl | split; [apply pipeKept_refl|]].
    simpl. rewrite H. simpl. apply pipe_io_kept. assumption.
  - eapply onPipeIo_Inv; eassumption.
  - eapply onPollTimeout_Inv; eassumption.
Qed.

End Invariant.

Section Reachable.

Context {World : Type} (P : Platform World).

Lemma frame_initConsoleFreezeMethod :
  forall buffer, keeps frame (initConsoleFreezeMethod P buffer).
Proof. intros buffer. unfold initConsoleFreezeMethod. frame_auto. Qed.

(** The constructor leaves three connecting data pipes with names, no
    child and the closing flag down. *)
Lemma Agent_ctor_Inv :
  forall controlPipeName agentFlags mouseMode initialCols initialRows w
         (s : Agent World),
    Agent_ctor P controlPipeName agentFlags mouseMode initialCols initialRows w
      = Ok tt s ->
    Inv s.
Proof.
  intros name flags mouse cols rows w s H. unfold Agent_ctor in H.
  match type of H with
  | ?m ?s0 = _ =>
      assert (Hpost : post (m s0) (fun _ s' => Inv s') (fun _ => True));
        [|rewrite H in Hpost; exact Hpost]
  end.
  clear H. unfold Agent_ctor_body, createDataServerPipe, writePacket.
  set (s0 := Agent_members P flags mouse w).
  assert (Hchild0 : m_childProcess s0 = NULL) by reflexivity.
  assert (Hclosing0 : m_closingOutputPipes s0 = false) by reflexivity.
  clearbody s0.
  repeat post_step. agent_simpl.
  destruct (m_useConerr s0); cbn [when].
  - repeat post_step.
    apply post_keeps with (R := frame);
      [apply frame_initConsoleFreezeMethod | | auto].
    intros _ s1 Hf. cbv beta.
    destruct (@frame_sameChild _ _ _ Hf) as [Hc Hcl]. agent_simpl.
    repeat post_step. cbn [ret when]. repeat post_step. cbn [ret post].
    split; agent_simpl.
    + unfold dataPipesInOrder. agent_simpl.
      repeat constructor; discriminate.
    + intros [Hn|Ht]; congruence.
  - repeat post_step.
    apply post_keeps with (R := frame);
      [apply frame_initConsoleFreezeMethod | | auto].
    intros _ s1 Hf. cbv beta.
    destruct (@frame_sameChild _ _ _ Hf) as [Hc Hcl]. agent_simpl.
    repeat post_step. cbn [ret when]. repeat post_step. cbn [ret post].
    split; agent_simpl.
    + unfold dataPipesInOrder. agent_simpl.
      repeat constructor; discriminate.
    + intros [Hn|Ht]; congruence.
Qed.

(** In every reachable state the data pipes have names, and a connecting
    data pipe excludes a tracked child and the closing phase. *)
Lemma reachable_Inv : forall s : Agent World, reachable P s -> Inv s.
Proof.
  intros s H. induction H as [? ? ? ? ? ? ? Hctor|s s' _ IH Hstep].
  - eapply Agent_ctor_Inv; eassumption.
  - eapply step_Inv; eassumption.
Qed.

Lemma polling_Inv : forall s : Agent World, polling P s -> Inv s.
Proof.
  intros s H. induction H as [s Hreach|s s' _ IH Hbody].
  - apply reachable_Inv. exact Hreach.
  - pose proof (@body_Inv _ P s IH) as Hb. rewrite Hbody in Hb. exact Hb.
Qed.

(** The invariant also holds wherever a packet handler is entered. *)
Lemma handlerEntry_Inv : forall s : Agent World, handlerEntry P s -> Inv s.
Proof.
  intros s H. destruct H as [s Hpoll _ _ _ n].
  eapply Inv_same_data; [| | | | |apply polling_Inv; exact Hpoll]; reflexivity.
Qed.

End Reachable.

(** ** Methods that cannot fail *)

Lemma scrapes_app :
  forall h1 h2, scrapes (h1 ++ h2) = scrapes h1 ++ scrapes h2.
Proof.
  induction h1 as [|e h1 IH]; intros h2; simpl; [reflexivity|].
  destruct e; simpl; rewrite ?IH; reflexivity.
Qed.

Section Returns.

Context {World : Type}.

Variable R : Agent World -> Agent World -> Prop.
Hypothesis R_refl : forall s, R s s.
Hypothesis R_trans : forall a b c, R a b -> R b c -> R a c.

Lemma returns_ret : forall A (a : A), returns R (ret a).
Proof. intros A a s. apply R_refl. Qed.

Lemma returns_gets : forall A (f : Agent World -> A), returns R (gets f).
Proof. intros A f s. apply R_refl. Qed.

Lemma returns_modify :
  forall f : Agent World -> Agent World,
    (forall s, R s (f s)) -> returns R (modify f).
Proof. intros f H s. apply H. Qed.

Lemma returns_call :
  forall A (f : World -> A * World),
    (forall s w, R s (set_world w s)) -> returns R (call f).
Proof.
  intros A f H s. unfold call. destruct (f (world s)). simpl. apply H.
Qed.

Lemma returns_bind :
  forall A B (m : M World A) (k : A -> M World B),
    returns R m -> (forall a, returns R (k a)) -> returns R (bind m k).
Proof.
  intros A B m k Hm Hk s. unfold bind.
  specialize (Hm s). destruct (m s) as [a s'| |]; simpl in *; try contradiction.
  specialize (Hk a s'). destruct (k a s'); simpl in *; try contradiction.
  eapply R_trans; eassumption.
Qed.

Lemma returns_when :
  forall c (m : M World unit), returns R m -> returns R (when c m).
Proof. intros c m H. destruct c; simpl; [exact H | apply returns_ret]. Qed.

End Returns.

Lemma returns_weaken :
  forall World A (R R' : Agent World -> Agent World -> Prop) (m : M World A),
    (forall s s', R s s' -> R' s s') -> returns R m -> returns R' m.
Proof.
  intros World A R R' m H Hm s. specialize (Hm s).
  destruct (m s); simpl in *; auto.
Qed.

Lemma returns_post :
  forall World A (R : Agent World -> Agent World -> Prop) (m : M World A) s
         (Q : A -> Agent World -> Prop) (F : Agent World -> Prop),
    returns R m -> (forall a s', R s s' -> Q a s') -> post (m s) Q F.
Proof.
  intros World A R m s Q F Hm HQ. specialize (Hm s).
  destruct (m s); simpl in *; auto; contradiction.
Qed.

Lemma quiet_refl : forall World (s : Agent World), quiet s s.
Proof.
  intros World s. split; [apply frame_refl | repeat split].
  symmetry. apply app_nil_r.
Qed.

Lemma quietBut_trans :
  forall World l1 l2 (a b c : Agent World),
    quietBut l1 a b -> quietBut l2 b c -> quietBut (l1 ++ l2) a c.
Proof.
  intros World l1 l2 a b c (H1 & H2 & H3 & H4 & H5 & H6 & H7 & H8)
         (G1 & G2 & G3 & G4 & G5 & G6 & G7 & G8).
  split; [eapply frame_trans; eassumption|].
  split; [rewrite G2, H2, app_assoc; reflexivity|].
  repeat split; congruence.
Qed.

Lemma quiet_trans :
  forall World (a b c : Agent World), quiet a b -> quiet b c -> quiet a c.
Proof.
  intros World a b c H1 H2. apply (quietBut_trans H1 H2).
Qed.

Lemma quiet_frame : forall World (s s' : Agent World), quiet s s' -> frame s s'.
Proof. intros World s s' [H _]. exact H. Qed.

Ltac quiet_prim :=
  unfold quiet, quietBut; split; [frame_prim|];
  cbn; rewrite ?scrapes_app, ?app_nil_r; repeat split; reflexivity.

Create HintDb quiet_db.

Ltac quiet_step :=
  match goal with
  | |- returns _ (bind _ _) =>
      apply (returns_bind (@quiet_trans _)); [ | intro ]
  | |- returns _ (ret _) => apply (returns_ret _ (@quiet_refl _))
  | |- returns _ (gets _) => apply (returns_gets _ (@quiet_refl _))
  | |- returns _ (when _ _) => apply (returns_when (@quiet_refl _))
  | |- returns _ (call _) => apply returns_call; intros; quiet_prim
  | |- returns _ (call_ _) => apply returns_modify; intro; quiet_prim
  | |- returns _ (trace _) => apply returns_modify; intro; quiet_prim
  | |- returns _ (modify _) => apply returns_modify; intro; quiet_prim
  | |- returns _ (match ?x with _ => _ end) => destruct x
  | |- returns _ (if ?c then _ else _) => destruct c
  | |- returns _ _ => solve [auto with quiet_db]
  end.

Section Quiet.

Context {World : Type} (P : Platform World).

Lemma quiet_conout_write :
  forall d, returns quiet (conout_write (World:=World) d).
Proof. intros d. unfold conout_write. repeat quiet_step. Qed.

Lemma quiet_conerr_write :
  forall d, returns quiet (conerr_write (World:=World) d).
Proof.
  intros d. apply returns_modify. intros s.
  destruct (m_conerrPipe s) eqn:E; [|apply quiet_refl].
  unfold quiet, quietBut; split; [frame_prim|].
  cbn. rewrite E, app_nil_r. repeat split; reflexivity.
Qed.

Lemma quiet_terminal_write :
  forall which d, returns quiet (terminal_write (World:=World) which d).
Proof.
  intros [|] d; simpl; [apply quiet_conout_write | apply quiet_conerr_write].
Qed.

Lemma quiet_setFrozen : forall b, returns quiet (Win32Console_setFrozen P b).
Proof. intros b. unfold Win32Console_setFrozen. repeat quiet_step. Qed.

Lemma quiet_setMouseWindowRect :
  forall r, returns quiet (setMouseWindowRect (World:=World) r).
Proof. intros r. unfold setMouseWindowRect. repeat quiet_step. Qed.

End Quiet.

#[local] Hint Resolve quiet_conout_write quiet_conerr_write
  quiet_terminal_write quiet_setFrozen quiet_setMouseWindowRect : quiet_db.

Section Quiet2.

Context {World : Type} (P : Platform World).

Lemma quiet_with_FreezeGuard :
  forall A b (body : M World A),
    returns quiet body -> returns quiet (with_FreezeGuard P b body).
Proof. intros A b body H. unfold with_FreezeGuard. repeat quiet_step. Qed.

Lemma quiet_resizeWindow :
  forall cols rows, returns quiet (resizeWindow P cols rows).
Proof.
  intros cols rows. unfold resizeWindow.
  destruct (invalidSize P cols rows); [repeat quiet_step|].
  apply quiet_with_FreezeGuard. repeat quiet_step.
Qed.

Lemma quiet_syncConsoleTitle : returns quiet (syncConsoleTitle P).
Proof. unfold syncConsoleTitle. repeat quiet_step. Qed.

End Quiet2.

#[local] Hint Resolve quiet_resizeWindow quiet_syncConsoleTitle : quiet_db.

Section Replies.

Context {World : Type}.

(** ** Replies *)

Lemma writePacket_frameOf :
  forall payload (s : Agent World),
    writePacket (newPacket ++ payload) s =
    Ok tt (set_controlPipe (NamedPipe.write (frameOf payload) (m_controlPipe s)) s).
Proof.
  intros payload s. unfold writePacket, modify, frameOf.
  unfold WriteBuffer.replaceRawValue, newPacket, WriteBuffer.putRawValue.
  cbn [firstn app]. rewrite length_app, le_encode_length.
  rewrite skipn_app, le_encode_length, Nat.sub_diag.
  rewrite skipn_all2 by (rewrite le_encode_length; lia).
  cbn [skipn app].
  replace (Z.of_nat (8 + length payload)) with (8 + Z.of_nat (length payload))
    by lia.
  reflexivity.
Qed.

Lemma post_ok :
  forall A (r : Outcome World A) (Q : A -> Agent World -> Prop),
    post r Q (fun _ => False) -> exists a s', r = Ok a s' /\ Q a s'.
Proof.
  intros A [a s'|s'|why s'] Q H; simpl in H; try contradiction. eauto.
Qed.

End Replies.

(** ** Auto-shutdown *)

Lemma closedPipes_app :
  forall h1 h2, closedPipes (h1 ++ h2) = closedPipes h1 ++ closedPipes h2.
Proof.
  induction h1 as [|e h1 IH]; intros h2; simpl; [reflexivity|].
  destruct e; simpl; rewrite ?IH; reflexivity.
Qed.

Section AutoShutdown.

Context {World : Type} (P : Platform World).

(** One evaluation of auto-close, in full. *)
Lemma autoClose_spec :
  forall s : Agent World,
    exists s',
      autoClosePipesForShutdown s = Ok tt s' /\
      m_conoutPipe s' = afterAutoClose (m_closingOutputPipes s) (m_conoutPipe s) /\
      m_conerrPipe s' =
        option_map (afterAutoClose (m_closingOutputPipes s)) (m_conerrPipe s) /\
      closedPipes (history s') =
        closedPipes (history s)
        ++ (if drainedAndDue (m_closingOutputPipes s) (m_conoutPipe s)
            then [ConoutPipe] else [])
        ++ match m_conerrPipe s with
           | Some p =>
               if drainedAndDue (m_closingOutputPipes s) p
               then [ConerrPipe] else []
           | None => []
           end /\
      sameChild s s' /\
      scrapes (history s') = scrapes (history s).
Proof.
  intros s. unfold autoClosePipesForShutdown, afterAutoClose, drainedAndDue.
  unfold conout_closePipe, conerr_closePipe, sameChild.
  cbn [bind gets].
  destruct (m_closingOutputPipes s) eqn:Ecl; cbn [when andb].
  2:{ eexists. split; [reflexivity|]. rewrite Ecl.
      destruct (m_conerrPipe s); cbn; rewrite ?app_nil_r; repeat split; auto. }
  cbn [bind gets].
  destruct (negb (NamedPipe.isClosed (m_conoutPipe s)) &&
            (NamedPipe.bytesToSend (m_conoutPipe s) =? 0)) eqn:Eout;
    cbn [when bind gets trace modify ret]; agent_simpl;
    destruct (m_conerrPipe s) as [p|] eqn:Eerr; cbn [ret];
    try destruct (negb (NamedPipe.isClosed p) && (NamedPipe.bytesToSend p =? 0))
      eqn:Eerr2;
    cbn [when bind gets trace modify ret]; agent_simpl; rewrite ?Eerr;
    (eexists; split; [reflexivity|]); agent_simpl; rewrite ?Eerr; agent_simpl;
    cbn [option_map];
    rewrite ?Ecl, ?Eerr2, ?closedPipes_app, ?scrapes_app, ?app_nil_r;
    cbn [closedPipes scrapes app]; rewrite ?app_nil_r;
    repeat split; auto.
  rewrite <- app_assoc. reflexivity.
Qed.

Lemma quietBut_record_scrape :
  forall which (s : Agent World),
    quietBut [which] s (record (EvScrapeBuffer which) s).
Proof.
  intros which s. unfold quietBut. split; [frame_prim|].
  cbn. rewrite scrapes_app. repeat split; reflexivity.
Qed.

Lemma quiet_set_world : forall (s : Agent World) w, quiet s (set_world w s).
Proof. intros s w. quiet_prim. Qed.

(** A scrape pass adds one scrape of the primary buffer, and one of the
    error buffer when it is configured, and is quiet otherwise. *)
Lemma scrapeBuffers_spec :
  forall s : Agent World,
    post (scrapeBuffers P s)
         (fun _ s' => quietBut (scrapePass s) s s')
         (fun _ => False).
Proof.
  intros s. unfold scrapeBuffers, with_FreezeGuard.
  repeat post_step.
  apply returns_post with (R := quiet); [apply quiet_setFrozen|].
  intros _ s1 H1. cbv beta.
  repeat post_step.
  pose proof (quietBut_record_scrape PrimaryScraper s1) as H2.
  pose proof (quiet_set_world (record (EvScrapeBuffer PrimaryScraper) s1) w) as H3.
  match goal with
  | |- post ((let (_, _) := ?x in _) _) _ _ => destruct x as [info output]
  end.
  apply post_bind.
  apply returns_post with (R := quiet); [apply quiet_terminal_write|].
  intros _ s2 H4. cbv beta.
  apply post_bind.
  apply returns_post with (R := quiet); [apply quiet_setMouseWindowRect|].
  intros _ s3 H5. cbv beta.
  repeat post_step.
  pose proof (quietBut_trans H1
                (quietBut_trans H2
                   (quietBut_trans H3 (quietBut_trans H4 H5)))) as H15.
  cbn [app] in H15.
  assert (Herr : m_errorScraper s3 = m_errorScraper s) by apply H15.
  unfold scrapePass. rewrite <- Herr.
  destruct (m_errorScraper s3); cbn [when].
  - repeat post_step.
    pose proof (quietBut_record_scrape ErrorScraper s3) as H6.
    pose proof (quiet_set_world (record (EvScrapeBuffer ErrorScraper) s3) w0) as H7.
    match goal with
    | |- post ((let (_, _) := ?x in _) _) _ _ => destruct x as [info' output']
    end.
    apply returns_post with (R := quiet); [apply quiet_terminal_write|].
    intros [] s4 H8. cbv beta.
    apply post_bind.
    apply returns_post with (R := quiet); [apply quiet_setFrozen|].
    intros _ s5 H9. cbv beta. apply post_ret.
    exact (quietBut_trans H15
             (quietBut_trans H6 (quietBut_trans H7 (quietBut_trans H8 H9)))).
  - apply post_ret. apply post_bind.
    apply returns_post with (R := quiet); [apply quiet_setFrozen|].
    intros _ s5 H9. cbv beta. apply post_ret.
    exact (quietBut_trans H15 H9).
Qed.

Lemma scrapePhase_spec :
  forall b (s : Agent World),
    post (when b (bind (syncConsoleTitle P) (fun _ => scrapeBuffers P)) s)
         (fun _ s' => quietBut (if b then scrapePass s else []) s s')
         (fun _ => False).
Proof.
  intros [|] s; cbn [when]; [|apply quiet_refl].
  apply post_bind.
  apply returns_post with (R := quiet); [apply quiet_syncConsoleTitle|].
  intros _ s1 H1. cbv beta.
  eapply post_mono; [apply scrapeBuffers_spec | | auto].
  intros ? s2 H2. cbv beta in H2 |- *.
  assert (Hpass : scrapePass s1 = scrapePass s).
  { unfold scrapePass. destruct H1 as (_ & _ & He & _). now rewrite He. }
  rewrite Hpass in H2. exact (quietBut_trans H1 H2).
Qed.

(** The end of a poll tick: the mouse mode is pushed to the terminal of
    the primary scraper, then auto-close is evaluated once. *)
Lemma tickTail_spec :
  forall enableMouseMode (s : Agent World),
    post (bind (gets (m_closingOutputPipes (World:=World)))
            (fun closing =>
               bind (call (terminal_enableMouseMode P
                             (enableMouseMode && negb closing)))
                 (fun output =>
                    bind (terminal_write PrimaryScraper output)
                      (fun _ => autoClosePipesForShutdown (World:=World)))) s)
         (fun _ s' =>
            exists pre,
              quiet s pre /\
              m_conoutPipe s' =
                afterAutoClose (m_closingOutputPipes pre) (m_conoutPipe pre) /\
              m_conerrPipe s' =
                option_map (afterAutoClose (m_closingOutputPipes pre))
                           (m_conerrPipe pre) /\
              sameChild pre s' /\
              scrapes (history s') = scrapes (history pre))
         (fun _ => False).
Proof.
  intros enable s. repeat post_step.
  pose proof (quiet_set_world s w) as H1.
  apply returns_post with (R := quiet); [apply quiet_terminal_write|].
  intros _ pre H2. cbv beta.
  destruct (autoClose_spec pre) as (s' & Hrun & Hout & Herr & _ & Hchild & Hscr).
  rewrite Hrun. cbn [post].
  exists pre. split; [exact (quiet_trans H1 H2)|]. auto.
Qed.

Lemma post_bind_inv :
  forall A B (m : M World A) (k : A -> M World B) s
         (Q : B -> Agent World -> Prop) (F : Agent World -> Prop),
    post (bind m k s) Q F ->
    post (m s) (fun a s' => post (k a s') Q F) F.
Proof.
  intros A B m k s Q F H. unfold bind in H. destruct (m s); simpl in *; auto.
Qed.

(** A poll tick from the scrape onwards. *)
Lemma tickRest_spec :
  forall b enableMouseMode (s : Agent World),
    post (bind (when b (bind (syncConsoleTitle P) (fun _ => scrapeBuffers P)))
            (fun _ =>
               bind (gets (m_closingOutputPipes (World:=World)))
                 (fun closing =>
                    bind (call (terminal_enableMouseMode P
                                  (enableMouseMode && negb closing)))
                      (fun output =>
                         bind (terminal_write PrimaryScraper output)
                           (fun _ => autoClosePipesForShutdown (World:=World)))))
            s)
         (fun _ s' =>
            sameChild s s' /\
            scrapes (history s') =
              scrapes (history s) ++ (if b then scrapePass s else []) /\
            (exists pre,
                pipe_state pre = pipe_state (m_conoutPipe s) /\
                m_conoutPipe s' = afterAutoClose (m_closingOutputPipes s') pre) /\
            match m_conerrPipe s, m_conerrPipe s' with
            | Some p, Some p' =>
                exists pre,
                  pipe_state pre = pipe_state p /\
                  p' = afterAutoClose (m_closingOutputPipes s') pre
            | None, None => True
            | _, _ => False
            end)
         (fun _ => False).
Proof.
  intros b enable s. apply post_bind.
  eapply post_mono; [apply scrapePhase_spec | | auto].
  intros ? s2 H2. cbv beta in H2 |- *.
  eapply post_mono; [apply tickTail_spec | | auto].
  intros ? s' (pre & H3 & Hout & Herr & [Hc Hcl] & Hscr). cbv beta.
  pose proof (quietBut_trans H2 H3) as H23. rewrite app_nil_r in H23.
  destruct H23 as (Hf & Hs & _ & _ & _ & _ & Hpo & Hpe).
  destruct Hf as (_ & _ & [Hfc Hfcl]).
  split; [split; congruence|].
  split; [congruence|].
  split.
  - exists (m_conoutPipe pre). split; [exact Hpo|]. rewrite Hcl. exact Hout.
  - rewrite Herr, Hcl.
    destruct (m_conerrPipe s) as [p|], (m_conerrPipe pre) as [q|];
      simpl in Hpe |- *; try discriminate; auto.
    exists q. split; [congruence | reflexivity].
Qed.

(** A poll tick, in full: whether the closing phase is on afterwards,
    what became of the child record, which scrape passes were made, and
    how the output pipes were closed. *)
Lemma tick_spec :
  forall s : Agent World,
    post (onPollTimeout P s)
         (fun _ s' =>
            m_closingOutputPipes s' = m_closingOutputPipes s || detectsExit P s /\
            m_childProcess s' = (if detectsExit P s then NULL else m_childProcess s) /\
            scrapes (history s') =
              scrapes (history s)
              ++ (if m_closingOutputPipes s then [] else scrapePass s) /\
            (exists pre,
                pipe_state pre = pipe_state (m_conoutPipe s) /\
                m_conoutPipe s' = afterAutoClose (m_closingOutputPipes s') pre) /\
            match m_conerrPipe s, m_conerrPipe s' with
            | Some p, Some p' =>
                exists pre,
                  pipe_state pre = pipe_state p /\
                  p' = afterAutoClose (m_closingOutputPipes s') pre
            | None, None => True
            | _, _ => False
            end)
         (fun _ => False).
Proof.
  intros s. unfold onPollTimeout.
  repeat post_step. agent_simpl.
  assert (Hexit :
            m_autoShutdown s && negb (m_childProcess s =? NULL) &&
            WaitForSingleObject_signaled P (m_childProcess s)
              (consoleInput_flushIncompleteEscapeCode P w) = detectsExit P s).
  { unfold detectsExit, worldAtExitCheck. rewrite H. reflexivity. }
  rewrite Hexit. clear Hexit.
  destruct (detectsExit P s) eqn:Ed; cbn [when]; repeat post_step; agent_simpl;
    apply post_bind_inv;
    (eapply post_mono; [apply tickRest_spec | | auto]);
    intros ? s' ([Hc Hcl] & Hscr & Hout & Herr); cbv beta;
    agent_simpl; unfold scrapePass in *; agent_simpl;
    rewrite ?scrapes_app in Hscr; cbn [scrapes] in Hscr;
    rewrite ?app_nil_r in Hscr;
    rewrite ?orb_true_r, ?orb_false_r;
    (split; [assumption|]); (split; [assumption|]);
    (split; [|split; assumption]);
    rewrite Hscr; destruct (m_closingOutputPipes s); reflexivity.
Qed.

End AutoShutdown.

(** * The claims *)

Section Claims1.

Context {World : Type} (P : Platform World).

(** C1.  A StartProcess request that arrives while a data pipe is still
    connecting is answered with PipesStillOpen and the names of exactly the
    connecting data pipes, in creation order (input, primary output,
    secondary output), joined by a comma and a space; no process creation
    is attempted and the child-process record is not modified.  In fact
    the reply on the control pipe is the only change to the agent.  This
    holds in every state in which the event loop can enter the handler. *)
Theorem C1_pipes_still_open :
  forall (s : Agent World) packet req,
    handlerEntry P s ->
    parseStartProcess packet = Some req ->
    pendingNames s <> [] ->
    let reply :=
      frameOf (WriteBuffer.putWString (join (L ", ") (pendingNames s))
                 (WriteBuffer.putInt32 (StartProcessResult_PipesStillOpen P) [])) in
    let s' := set_controlPipe (NamedPipe.write reply (m_controlPipe s)) s in
    handleStartProcessPacket P packet s = Ok tt s' /\
    outQueue (m_controlPipe s') = outQueue (m_controlPipe s) ++ reply /\
    spawnAttempts (history s') = spawnAttempts (history s) /\
    m_childProcess s' = m_childProcess s.
Proof.
  intros s packet req Hreach Hparse Hpending reply s'.
  split; [|repeat split].
  destruct (handlerEntry_Inv Hreach) as [Hnames Hinv].
  assert (Hchild : m_childProcess s = NULL).
  { destruct (Z.eq_dec (m_childProcess s) NULL) as [E|E]; [exact E|].
    exfalso. apply Hpending, Hinv. left. exact E. }
  assert (Hclosing : m_closingOutputPipes s = false).
  { destruct (m_closingOutputPipes s); [|reflexivity].
    exfalso. apply Hpending, Hinv. right. reflexivity. }
  unfold parseStartProcess in Hparse.
  destruct (ReadBuffer.getInt64 packet) as [[v1 p1]|] eqn:E1; [|discriminate].
  destruct (ReadBuffer.getInt32 p1) as [[v2 p2]|] eqn:E2; [|discriminate].
  destruct (ReadBuffer.getInt32 p2) as [[v3 p3]|] eqn:E3; [|discriminate].
  destruct (ReadBuffer.getWString p3) as [[v4 p4]|] eqn:E4; [|discriminate].
  destruct (ReadBuffer.getWString p4) as [[v5 p5]|] eqn:E5; [|discriminate].
  destruct (ReadBuffer.getWString p5) as [[v6 p6]|] eqn:E6; [|discriminate].
  destruct (ReadBuffer.getWString p6) as [[v7 p7]|] eqn:E7; [|discriminate].
  destruct (ReadBuffer.getWString p7) as [[v8 p8]|] eqn:E8; [|discriminate].
  destruct (ReadBuffer.assertEof p8) as [[v9 p9]|] eqn:E9; [|discriminate].
  unfold handleStartProcessPacket.
  cbn [bind gets]. rewrite Hchild. change (NULL =? NULL) with true.
  cbn [bind gets ASSERT]. rewrite Hclosing. cbn [bind gets ASSERT negb].
  rewrite E1. cbn [bind decode]. rewrite E2. cbn [bind decode].
  rewrite E3. cbn [bind decode]. rewrite E4. cbn [bind decode].
  rewrite E5. cbn [bind decode]. rewrite E6. cbn [bind decode].
  rewrite E7. cbn [bind decode]. rewrite E8. cbn [bind decode].
  rewrite E9. cbn [bind decode gets].
  rewrite pipeList_join by exact Hnames.
  destruct (join (L ", ") (pendingNames s)) as [|c l] eqn:Ej.
  { exfalso. apply Hpending.
    eapply join_nil; [apply pendingNames_nonempty; exact Hnames | exact Ej]. }
  cbn [isEmpty negb]. subst s' reply.
  rewrite <- writePacket_frameOf. reflexivity.
Qed.

End Claims1.

Section Claims2.

Context {World : Type} (P : Platform World).

(** C2.  Auto-close never closes an output pipe that still has bytes to
    send.  Each evaluation treats the primary and the secondary output
    pipe separately: a pipe is closed by it exactly when the closing phase
    is on, the pipe is not closed yet and its pending send bytes are zero,
    so a pipe is closed at the first evaluation that finds it drained.
    Every poll tick returns and ends with one such evaluation, which is
    the only way a tick closes a pipe.  The tick that detects the exit of
    the child (auto-shutdown armed, child tracked and signalled) turns the
    closing phase on and still makes one scrape pass; once the closing
    phase is on, a tick makes none. *)
Theorem C2_outputs_close_only_when_drained :
  (forall s : Agent World,
      exists s',
        autoClosePipesForShutdown s = Ok tt s' /\
        m_conoutPipe s' = afterAutoClose (m_closingOutputPipes s) (m_conoutPipe s) /\
        m_conerrPipe s' =
          option_map (afterAutoClose (m_closingOutputPipes s)) (m_conerrPipe s) /\
        closedPipes (history s') =
          closedPipes (history s)
          ++ (if drainedAndDue (m_closingOutputPipes s) (m_conoutPipe s)
              then [ConoutPipe] else [])
          ++ match m_conerrPipe s with
             | Some p =>
                 if drainedAndDue (m_closingOutputPipes s) p
                 then [ConerrPipe] else []
             | None => []
             end) /\
  (forall closing p,
      (NamedPipe.bytesToSend p <> 0 -> afterAutoClose closing p = p) /\
      (closing = false -> afterAutoClose closing p = p) /\
      (closing = true -> NamedPipe.isClosed p = false ->
       NamedPipe.bytesToSend p = 0 ->
       afterAutoClose closing p = NamedPipe.closePipe p)) /\
  (forall s : Agent World,
      exists s',
        onPollTimeout P s = Ok tt s' /\
        (m_closingOutputPipes s = false -> detectsExit P s = true ->
         m_closingOutputPipes s' = true /\
         scrapes (history s') = scrapes (history s) ++ scrapePass s) /\
        (m_closingOutputPipes s = true ->
         m_closingOutputPipes s' = true /\
         scrapes (history s') = scrapes (history s)) /\
        (m_closingOutputPipes s = false -> detectsExit P s = false ->
         m_closingOutputPipes s' = false) /\
        (exists pre,
            pipe_state pre = pipe_state (m_conoutPipe s) /\
            m_conoutPipe s' = afterAutoClose (m_closingOutputPipes s') pre) /\
        match m_conerrPipe s, m_conerrPipe s' with
        | Some p, Some p' =>
            exists pre,
              pipe_state pre = pipe_state p /\
              p' = afterAutoClose (m_closingOutputPipes s') pre
        | None, None => True
        | _, _ => False
        end).
Proof.
  split; [|split].
  - intros s.
    destruct (autoClose_spec s) as (s' & Hrun & Hout & Herr & Hclosed & _).
    exists s'. auto.
  - intros closing p. unfold afterAutoClose, drainedAndDue.
    split; [|split].
    + intros Hbytes. apply Z.eqb_neq in Hbytes. rewrite Hbytes.
      now rewrite andb_false_r.
    + intros ->. reflexivity.
    + intros -> Hopen Hzero. rewrite Hopen, Hzero. reflexivity.
  - intros s. pose proof (tick_spec P s) as Ht.
    destruct (@post_ok _ _ _ _ Ht) as ([] & s' & Hrun & Hcl & _ & Hscr & Hout & Herr).
    exists s'. split; [exact Hrun|].
    split; [|split; [|split; [|split]]]; try assumption.
    + intros Hc Hd. rewrite Hc, Hd in *. split; [exact Hcl | exact Hscr].
    + intros Hc. rewrite Hc in *. rewrite app_nil_r in Hscr. auto.
    + intros Hc Hd. rewrite Hc, Hd in Hcl. exact Hcl.
Qed.

End Claims2.

Section ControlLoopFrames.

Context {World : Type} (P : Platform World).

(** A pass in front of a complete frame takes exactly that frame off the
    pipe and hands it to [handlePacket], however the handler ends. *)
Lemma body_takes_frame :
  forall s : Agent World,
    (8 <= length (inQueue (m_controlPipe s)))%nat ->
    8 <= headLength s <= SIZE_MAX (arch P) ->
    headLength s <= Z.of_nat (length (inQueue (m_controlPipe s))) ->
    let n := Z.to_nat (headLength s) in
    let r := pollControlPipe_body P s in
    (forall s', r <> Ok false s') /\
    (forall s', r <> Throw s') /\
    dispatched (history (final r)) =
      dispatched (history s) ++ [firstn n (inQueue (m_controlPipe s))] /\
    inQueue (m_controlPipe (final r)) = skipn n (inQueue (m_controlPipe s)).
Proof.
  intros s Hlen Hsize Hfull n r. subst r.
  rewrite (@body_full _ P s Hlen Hsize Hfull). fold n.
  set (frame := firstn n (inQueue (m_controlPipe s))).
  set (s1 := set_controlPipe _ s).
  pose proof (handlePacket_frameSpawn P (mkReadBuffer frame 8) s1)
    as (_ & (Hq & Hd) & _).
  cbn [rb_buf] in Hq, Hd.
  destruct (handlePacket P (mkReadBuffer frame 8) s1) as [[] s2|s2|why s2];
    cbn [final] in *;
    (split; [discriminate|]); (split; [discriminate|]);
    rewrite Hd, Hq; subst s1; agent_simpl;
    unfold NamedPipe.read; cbn [snd inQueue];
    rewrite dispatched_app; cbn [dispatched]; split; reflexivity.
Qed.

(** A pass of the loop ends the loop only in front of an incomplete
    frame. *)
Lemma body_false_inv :
  forall s s' : Agent World,
    pollControlPipe_body P s = Ok false s' ->
    ((length (inQueue (m_controlPipe s)) < 8)%nat /\ s' = s) \/
    ((8 <= length (inQueue (m_controlPipe s)))%nat /\
     8 <= headLength s <= SIZE_MAX (arch P) /\
     Z.of_nat (length (inQueue (m_controlPipe s))) < headLength s /\
     s' = if NamedPipe.readBufferSize (m_controlPipe s) <? headLength s
          then set_controlPipe
                 (NamedPipe.setReadBufferSize (headLength s) (m_controlPipe s)) s
          else s).
Proof.
  intros s s' H.
  destruct (Nat.lt_ge_cases (length (inQueue (m_controlPipe s))) 8) as [Hs|Hlen].
  - rewrite body_short in H by assumption. left. split; [exact Hs|congruence].
  - destruct (Z_le_dec 8 (headLength s)) as [H8|H8];
      [destruct (Z_le_dec (headLength s) (SIZE_MAX (arch P))) as [Hm|Hm]|].
    + destruct (Z_lt_le_dec (Z.of_nat (length (inQueue (m_controlPipe s))))
                  (headLength s)) as [Hp|Hf].
      * rewrite body_partial in H by (try assumption; lia).
        right. repeat split; try assumption. congruence.
      * rewrite (@body_full _ P s Hlen (conj H8 Hm) Hf) in H.
        destruct (handlePacket P _ _); discriminate.
    + rewrite body_badSize in H by (try assumption; lia). discriminate.
    + rewrite body_badSize in H by (try assumption; lia). discriminate.
Qed.

(** The loop returns from a pass that ended it. *)
Lemma loop_last_pass :
  forall fuel (s s' : Agent World),
    pollControlPipe_loop P fuel s = Some (Ok tt s') ->
    exists s0, pollControlPipe_body P s0 = Ok false s'.
Proof.
  induction fuel as [|fuel IH]; intros s s' H; [discriminate|].
  simpl in H.
  destruct (pollControlPipe_body P s) as [[|] s1|s1|why s1] eqn:Hb;
    try discriminate.
  - eapply IH. exact H.
  - injection H as <-. exists s. exact Hb.
Qed.

(** What a returning poll of an open control pipe leaves behind is an
    incomplete frame. *)
Lemma poll_leaves_incomplete :
  forall s s' : Agent World,
    NamedPipe.isClosed (m_controlPipe s) = false ->
    pollControlPipe P s = Some (Ok tt s') ->
    (length (inQueue (m_controlPipe s')) < 8)%nat \/
    Z.of_nat (length (inQueue (m_controlPipe s'))) < headLength s'.
Proof.
  intros s s' Hopen H. unfold pollControlPipe in H. rewrite Hopen in H.
  destruct (@loop_last_pass _ s s' H) as (s0 & Hb).
  destruct (@body_false_inv s0 s' Hb) as [[Hs ->]|(Hlen & Hsize & Hp & ->)];
    [left; exact Hs|right].
  destruct (NamedPipe.readBufferSize (m_controlPipe s0) <? headLength s0);
    exact Hp.
Qed.

End ControlLoopFrames.

Section Claims3.

Context {World : Type} (P : Platform World).

(** C3.  A pass of the control loop that finds a complete frame at the
    head of the pipe, with a declared length [S] from 8 to SIZE_MAX and at
    least [S] bytes buffered, takes exactly the first [S] bytes off the
    pipe, header included, and hands them to [handlePacket] as one frame;
    it never stops the loop there, and this holds however the handler
    ends.  A poll of the open pipe therefore begins with that frame.
    Every poll ends, and for the frames it processed, in order: the bytes
    taken off the pipe are exactly those frames, one after the other, and
    each frame is as long as its eight-byte header declares.  A poll that
    returns leaves no complete frame behind: what is left is shorter than
    a header or shorter than the length its header declares. *)
Theorem C3_loop_consumes_declared_length :
  (forall s : Agent World,
      (8 <= length (inQueue (m_controlPipe s)))%nat ->
      8 <= headLength s <= SIZE_MAX (arch P) ->
      headLength s <= Z.of_nat (length (inQueue (m_controlPipe s))) ->
      let n := Z.to_nat (headLength s) in
      let frame := firstn n (inQueue (m_controlPipe s)) in
      let rest := skipn n (inQueue (m_controlPipe s)) in
      Z.of_nat (length frame) = headLength s /\
      inQueue (m_controlPipe s) = frame ++ rest /\
      (let r := pollControlPipe_body P s in
       (forall s', r <> Ok false s') /\
       dispatched (history (final r)) = dispatched (history s) ++ [frame] /\
       inQueue (m_controlPipe (final r)) = rest) /\
      (NamedPipe.isClosed (m_controlPipe s) = false ->
       exists r frames,
         pollControlPipe P s = Some r /\
         dispatched (history (final r)) =
           dispatched (history s) ++ frame :: frames /\
         rest = concat frames ++ inQueue (m_controlPipe (final r)))) /\
  (forall s : Agent World,
      exists r frames,
        pollControlPipe P s = Some r /\
        dispatched (history (final r)) = dispatched (history s) ++ frames /\
        inQueue (m_controlPipe s) =
          concat frames ++ inQueue (m_controlPipe (final r)) /\
        Forall (fun f => declaredLength f = Z.of_nat (length f)) frames) /\
  (forall s s' : Agent World,
      NamedPipe.isClosed (m_controlPipe s) = false ->
      pollControlPipe P s = Some (Ok tt s') ->
      (length (inQueue (m_controlPipe s')) < 8)%nat \/
      Z.of_nat (length (inQueue (m_controlPipe s'))) < headLength s').
Proof.
  split; [|split].
  - intros s Hlen Hsize Hfull n frame rest.
    destruct (@body_takes_frame _ P s Hlen Hsize Hfull)
      as (Hgo & Hnothrow & Hd & Hq).
    fold n in Hd, Hq. fold frame in Hd. fold rest in Hq.
    split; [subst frame; rewrite length_firstn; lia|].
    split; [subst frame rest; rewrite firstn_skipn; reflexivity|].
    split; [split; [exact Hgo | split; [exact Hd | exact Hq]]|].
    intros Hopen. unfold pollControlPipe. rewrite Hopen.
    cbn [pollControlPipe_loop].
    destruct (pollControlPipe_body P s) as [[|] s1|s1|why s1] eqn:Hb;
      cbn [final] in Hd, Hq.
    + assert (Hshorter :
        (length (inQueue (m_controlPipe s1))
           < length (inQueue (m_controlPipe s)))%nat).
      { rewrite Hq. subst rest. rewrite length_skipn. lia. }
      destruct (@loop_total _ P (length (inQueue (m_controlPipe s))) s1 Hshorter)
        as (r & Hr).
      destruct (@loop_consumed _ P _ _ _ Hr) as (frames & Hin & Hdis & _).
      exists r, frames. split; [exact Hr|].
      rewrite Hdis, Hd, <- app_assoc. split; [reflexivity|].
      rewrite <- Hq. exact Hin.
    + exfalso. exact (Hgo s1 eq_refl).
    + exfalso. exact (Hnothrow s1 eq_refl).
    + exists (Abort why s1), []. split; [reflexivity|].
      cbn [final concat app]. split; [exact Hd | symmetry; exact Hq].
  - intros s. destruct (pollControlPipe_total P s) as [r Hr].
    assert (H : exists frames, consumedFrames P frames s (final r)).
    { unfold pollControlPipe in Hr.
      destruct (NamedPipe.isClosed (m_controlPipe s)).
      - injection Hr as <-. exists []. split; [|split]; cbn.
        + reflexivity.
        + rewrite dispatched_app. reflexivity.
        + constructor.
      - eapply loop_consumed; eassumption. }
    destruct H as [frames (Hq & Hd & Hf)].
    exists r, frames. repeat split; auto.
    eapply Forall_impl; [|exact Hf]. intros f [Hlen _]. exact Hlen.
  - intros s s' Hopen Hrun.
    exact (@poll_leaves_incomplete _ P s s' Hopen Hrun).
Qed.

End Claims3.

Section Claims4.

Context {World : Type} (P : Platform World).


End Claims4.

Section Claims5.

Context {World : Type} (P : Platform World).

(** C5.  A StartProcess request handled while a child process is tracked,
    or once the closing phase has begun, fails a fatal assertion.  The
    outcome is the same for every packet, well-formed or not, and the agent
    is left exactly as it was: no field has been read, and the tracked
    child is not replaced. *)
Theorem C5_second_spawn_is_fatal :
  forall (s : Agent World) packet,
    m_childProcess s <> NULL \/ m_closingOutputPipes s = true ->
    handleStartProcessPacket P packet s =
    Abort (if m_childProcess s =? NULL
           then Assert_notClosingOutputPipes else Assert_noChildProcess) s.
Proof.
  intros s packet H. unfold handleStartProcessPacket. cbn [bind gets].
  destruct (Z.eqb_spec (m_childProcess s) NULL) as [E|E]; cbn [bind gets ASSERT].
  - destruct H as [H|H]; [contradiction|]. rewrite H. reflexivity.
  - reflexivity.
Qed.

End Claims5.

Section Claims6.

Context {World : Type} (P : Platform World).

(** C6.  Every SetSize request gets exactly one reply, the empty
    acknowledgement, whatever the size.  When [cols] or [rows] is out of
    bounds the request is only logged: the world outside the agent (and
    with it the console geometry), the console object and the mouse
    rectangle of the input translator are as before, and no scraper was
    asked to resize. *)
Theorem C6_set_size_always_acknowledged :
  forall (s : Agent World) packet cols rows,
    parseSetSize packet = Some (cols, rows) ->
    exists s',
      handleSetSizePacket P packet s = Ok tt s' /\
      outQueue (m_controlPipe s') = outQueue (m_controlPipe s) ++ frameOf [] /\
      (cols < 1 \/ cols > MAX_CONSOLE_WIDTH P \/
       rows < 1 \/ rows > BUFFER_LINE_COUNT P - 1 ->
       world s' = world s /\
       m_console s' = m_console s /\
       m_consoleInput s' = m_consoleInput s /\
       history s' = history s ++ [EvTrace (Trace_ResizeInvalidSize cols rows)]).
Proof.
  intros s packet cols rows Hparse. unfold parseSetSize in Hparse.
  destruct (ReadBuffer.getInt32 packet) as [[v1 p1]|] eqn:E1; [|discriminate].
  destruct (ReadBuffer.getInt32 p1) as [[v2 p2]|] eqn:E2; [|discriminate].
  destruct (ReadBuffer.assertEof p2) as [[v3 p3]|] eqn:E3; [|discriminate].
  injection Hparse as -> ->.
  unfold handleSetSizePacket.
  cbn [bind]. rewrite E1. cbn [bind decode]. rewrite E2. cbn [bind decode].
  rewrite E3. cbn [bind decode].
  pose proof (quiet_resizeWindow P cols rows s) as Hq.
  destruct (resizeWindow P cols rows s) as [[] s1|s1|why s1] eqn:Er;
    simpl in Hq; try contradiction.
  unfold bind. rewrite Er.
  replace newPacket with (newPacket ++ []) by apply app_nil_r.
  rewrite writePacket_frameOf.
  eexists. split; [reflexivity|]. agent_simpl. cbn [NamedPipe.write outQueue].
  split.
  - destruct Hq as (_ & _ & _ & _ & _ & Hout & _). rewrite Hout. reflexivity.
  - intros Hbad. unfold resizeWindow in Er.
    assert (Hinv : invalidSize P cols rows = true).
    { unfold invalidSize. repeat rewrite orb_true_iff.
      rewrite !Z.ltb_lt, !Z.gtb_lt. lia. }
    rewrite Hinv in Er. injection Er as <-. repeat split.
Qed.

End Claims6.

Section Claims7.

Context {World : Type} (P : Platform World).

(** C7.  Freeze calibration, entered with the console not frozen, always
    completes.  It freezes exactly once, with Mark, at the probe
    coordinate (1, 1), unfreezes, and selects Mark if Mark left the probe
    cursor where it was and SelectAll otherwise; the choice depends on
    nothing else.  So whenever one of the two commands leaves the probe
    unchanged the selected command does, and if Mark moves the cursor and
    SelectAll does not, SelectAll is selected.  Every later freeze sends
    the selected command. *)
Theorem C7_freeze_calibration :
  forall (s : Agent World) buffer,
    m_frozen (m_console s) = false ->
    exists s',
      initConsoleFreezeMethod P buffer s = Ok tt s' /\
      m_frozen (m_console s') = false /\
      selectedSyscommand s' =
        (if leavesProbeUnchanged P SC_CONSOLE_MARK buffer (world s)
         then SC_CONSOLE_MARK else SC_CONSOLE_SELECT_ALL) /\
      (forall c,
          leavesProbeUnchanged P c buffer (world s) = true ->
          leavesProbeUnchanged P (selectedSyscommand s') buffer (world s) = true) /\
      (leavesProbeUnchanged P SC_CONSOLE_MARK buffer (world s) = false ->
       leavesProbeUnchanged P SC_CONSOLE_SELECT_ALL buffer (world s) = true ->
       selectedSyscommand s' = SC_CONSOLE_SELECT_ALL) /\
      history s' =
        history s ++
        [EvSyscommand SC_CONSOLE_MARK; EvSendEscape;
         EvTrace (Trace_UsingSyscommand
                    (leavesProbeUnchanged P SC_CONSOLE_MARK buffer (world s)))] /\
      history (final (Win32Console_setFrozen P true s')) =
        history s' ++ [EvSyscommand (selectedSyscommand s')].
Proof.
  intros s buffer Hfrozen.
  unfold initConsoleFreezeMethod, Win32Console_setFreezeUsesMark.
  unfold Win32Console_setFrozen at 1 2.
  repeat (cbn [bind gets call_ modify ASSERT negb Bool.eqb ret trace];
          agent_simpl; cbn [m_frozen m_freezeUsesMark];
          rewrite ?Hfrozen).
  eexists. split; [reflexivity|].
  unfold selectedSyscommand, Win32Console_setFrozen.
  cbn [bind gets call_ modify ASSERT negb Bool.eqb ret trace final].
  agent_simpl. cbn [m_frozen m_freezeUsesMark Bool.eqb].
  cbn [bind gets call_ modify ret final]. agent_simpl.
  fold (probeWorld P buffer (world s)).
  fold (leavesProbeUnchanged P SC_CONSOLE_MARK buffer (world s)).
  split; [reflexivity|]. split; [reflexivity|].
  split; [|split; [|split]].
  - intros c Hc.
    destruct (leavesProbeUnchanged P SC_CONSOLE_MARK buffer (world s)) eqn:Em;
      [exact Em|].
    destruct c; [congruence | exact Hc].
  - intros Hm _. rewrite Hm. reflexivity.
  - rewrite <- !app_assoc. reflexivity.
  - reflexivity.
Qed.

End Claims7.

Section Claims8.

Context {World : Type} (P : Platform World).

Lemma syncConsoleTitle_eq :
  forall s : Agent World,
    syncConsoleTitle P s =
    Ok tt
       (if wstring_eqb (console_title P (world s)) (m_currentTitle s)
        then s
        else set_currentTitle (console_title P (world s))
               (set_conoutPipe
                  (NamedPipe.write (c_str (titleCommand P (console_title P (world s))))
                                   (m_conoutPipe s)) s)).
Proof.
  intros s. unfold syncConsoleTitle. cbn [bind gets].
  destruct (wstring_eqb (console_title P (world s)) (m_currentTitle s));
    reflexivity.
Qed.

(** The C string of a byte sequence ends before its first NUL. *)
Lemma c_str_asCString : forall data, asCString data (c_str data).
Proof.
  induction data as [|b rest IH]; cbn [c_str].
  - split; [intros []|]. exists []. split; [reflexivity | left; reflexivity].
  - destruct (Byte.eqb b x00) eqn:E.
    + apply Byte.byte_dec_bl in E. subst b.
      split; [intros []|]. exists (x00 :: rest).
      split; [reflexivity | right; eauto].
    + destruct IH as [Hno (tail & Hwhole & Htail)].
      split.
      * intros [Hb|Hin]; [|exact (Hno Hin)].
        subst b. discriminate E.
      * exists tail. split; [|exact Htail].
        cbn [app]. rewrite <- Hwhole. reflexivity.
Qed.

Lemma c_str_no_nul : forall data, ~ In x00 data -> c_str data = data.
Proof.
  induction data as [|b rest IH]; intros Hno; cbn [c_str]; [reflexivity|].
  destruct (Byte.eqb b x00) eqn:E.
  - apply Byte.byte_dec_bl in E. subst b. exfalso. apply Hno. left. reflexivity.
  - rewrite IH; [reflexivity|]. intros Hin. apply Hno. right. exact Hin.
Qed.

(** A C string never begins with more than its source has: in front of
    the title the sequence has four bytes that are not NUL. *)
Lemma c_str_titleCommand :
  forall t,
    c_str (titleCommand P t) =
    x1b :: x5d :: x30 :: x3b :: c_str (utf8FromWide P t ++ [x07]).
Proof. intros t. reflexivity. Qed.

Lemma titleCommand_no_nul :
  forall t,
    ~ In x00 (utf8FromWide P t) ->
    c_str (titleCommand P t) =
    [x1b; x5d; x30; x3b] ++ utf8FromWide P t ++ [x07].
Proof.
  intros t Hno. apply c_str_no_nul. unfold titleCommand.
  intros Hin. cbn [app In] in Hin.
  do 4 (destruct Hin as [Hin|Hin]; [discriminate Hin|]).
  apply in_app_or in Hin. destruct Hin as [Hin|[Hin|[]]];
    [exact (Hno Hin) | discriminate Hin].
Qed.

Lemma sentToConout_write :
  forall (s s' : Agent World) data,
    outQueue (m_conoutPipe s') = outQueue (m_conoutPipe s) ++ data ->
    sentToConout s s' = data.
Proof.
  intros s s' data H. unfold sentToConout. rewrite H.
  rewrite skipn_app, Nat.sub_diag, skipn_all. reflexivity.
Qed.

(** Over a run of passes: as long as nothing was written the cache is
    the initial one, and otherwise the last bytes written are the
    sequence for the cached title. *)
Lemma titleSyncRun_cache :
  forall ws (s : Agent World) written initial,
    (written = [] -> m_currentTitle s = initial) ->
    (written <> [] ->
     asCString ([x1b; x5d; x30; x3b]
                ++ utf8FromWide P (m_currentTitle s) ++ [x07])
               (last written [])) ->
    let run := titleSyncRun P ws s written in
    (snd run = [] -> m_currentTitle (fst run) = initial) /\
    (snd run <> [] ->
     asCString ([x1b; x5d; x30; x3b]
                ++ utf8FromWide P (m_currentTitle (fst run)) ++ [x07])
               (last (snd run) [])).
Proof.
  induction ws as [|w ws IH]; intros s written initial Hnone Hsome;
    [split; assumption|].
  cbn [titleSyncRun]. set (s0 := set_world w s).
  rewrite syncConsoleTitle_eq. cbn [final].
  destruct (wstring_eqb (console_title P (world s0)) (m_currentTitle s0)).
  - assert (Hsent : sentToConout s0 s0 = [])
      by (apply sentToConout_write; rewrite app_nil_r; reflexivity).
    rewrite Hsent. apply IH; assumption.
  - set (t := console_title P (world s0)).
    assert (Hsent : sentToConout s0
                      (set_currentTitle t
                         (set_conoutPipe
                            (NamedPipe.write (c_str (titleCommand P t))
                               (m_conoutPipe s0)) s0))
                    = c_str (titleCommand P t))
      by (apply sentToConout_write; reflexivity).
    rewrite Hsent. rewrite c_str_titleCommand.
    apply IH.
    + intros H. destruct written; discriminate H.
    + intros _. rewrite last_last. rewrite <- c_str_titleCommand.
      cbn [m_currentTitle set_currentTitle]. apply c_str_asCString.
Qed.

(** C8.  A title-sync pass appends bytes to the primary output pipe if
    and only if the console title differs from the cached title.  What it
    appends then is the title escape sequence, ESC ] 0 ; the title in
    UTF-8 and BEL, written as a C string (whole, unless the UTF-8 title
    holds a NUL byte, at which it would end), and in that case, and only
    then, the cache takes the new title.  A pass over an unchanged title
    leaves the agent as it is; in particular a second pass over the same
    title writes nothing.  Over any run of passes, as long as no pass has
    written the cache is the initial one, and from then on the last bytes
    written are the escape sequence for the cached title. *)
Theorem C8_title_written_iff_changed :
  forall s : Agent World,
    let newTitle := console_title P (world s) in
    let sequence := [x1b; x5d; x30; x3b] ++ utf8FromWide P newTitle ++ [x07] in
    exists s' sent,
      syncConsoleTitle P s = Ok tt s' /\
      outQueue (m_conoutPipe s') = outQueue (m_conoutPipe s) ++ sent /\
      (sent <> [] <-> newTitle <> m_currentTitle s) /\
      (newTitle <> m_currentTitle s ->
       m_currentTitle s' = newTitle /\
       asCString sequence sent /\
       (~ In x00 (utf8FromWide P newTitle) -> sent = sequence)) /\
      (newTitle = m_currentTitle s -> s' = s) /\
      syncConsoleTitle P s' = Ok tt s' /\
      (forall ws,
          let run := titleSyncRun P ws s [] in
          (snd run = [] -> m_currentTitle (fst run) = m_currentTitle s) /\
          (snd run <> [] ->
           asCString ([x1b; x5d; x30; x3b]
                      ++ utf8FromWide P (m_currentTitle (fst run)) ++ [x07])
                     (last (snd run) []))).
Proof.
  intros s newTitle sequence. rewrite syncConsoleTitle_eq. fold newTitle.
  assert (Hrun : forall ws,
             let run := titleSyncRun P ws s [] in
             (snd run = [] -> m_currentTitle (fst run) = m_currentTitle s) /\
             (snd run <> [] ->
              asCString ([x1b; x5d; x30; x3b]
                         ++ utf8FromWide P (m_currentTitle (fst run)) ++ [x07])
                        (last (snd run) []))).
  { intros ws. apply titleSyncRun_cache; [reflexivity|].
    intros H. exfalso. apply H. reflexivity. }
  destruct (wstring_eqb newTitle (m_currentTitle s)) eqn:E.
  - pose proof E as Heq. apply wstring_eqb_eq in Heq.
    exists s, []. split; [reflexivity|].
    split; [rewrite app_nil_r; reflexivity|].
    split; [split; [intros H; exfalso; apply H; reflexivity | contradiction]|].
    split; [contradiction|]. split; [reflexivity|].
    split; [|exact Hrun].
    rewrite syncConsoleTitle_eq. fold newTitle. rewrite E. reflexivity.
  - pose proof E as Hne. apply wstring_eqb_neq in Hne.
    eexists. exists (c_str (titleCommand P newTitle)).
    split; [reflexivity|]. split; [reflexivity|].
    split; [split; [auto | intros _; rewrite c_str_titleCommand; discriminate]|].
    split; [intros _; split; [reflexivity|split]|].
    + apply c_str_asCString.
    + apply titleCommand_no_nul.
    + split; [contradiction|]. split; [|exact Hrun].
      rewrite syncConsoleTitle_eq.
      cbn [world set_currentTitle set_conoutPipe m_currentTitle].
      fold newTitle.
      assert (Hrefl : wstring_eqb newTitle newTitle = true)
        by (apply wstring_eqb_eq; reflexivity).
      rewrite Hrefl. reflexivity.
Qed.

End Claims8.

Section Claims9.

Context {World : Type} (P : Platform World).

(** C9.  When the control pipe reports closed at the start of a poll, the
    agent logs the shutdown, calls [shutdown] and returns at once.
    Whatever is buffered on the pipe, a partial frame or a complete one,
    stays there: nothing is consumed and nothing is dispatched. *)
Theorem C9_closed_control_pipe_shuts_down :
  forall s : Agent World,
    NamedPipe.isClosed (m_controlPipe s) = true ->
    exists s',
      pollControlPipe P s = Some (Ok tt s') /\
      m_exiting s' = true /\
      m_controlPipe s' = m_controlPipe s /\
      dispatched (history s') = dispatched (history s) /\
      history s' = history s ++ [EvTrace Trace_AgentShuttingDown].
Proof.
  intros s Hclosed. unfold pollControlPipe. rewrite Hclosed.
  eexists. split; [reflexivity|]. cbn.
  repeat split. rewrite dispatched_app. simpl. apply app_nil_r.
Qed.

End Claims9.

Section Claims10.

Context {World : Type} (P : Platform World).

(** C10.  When a full eight-byte header can be peeked and its value is
    less than eight, the pass fails the size assertion with the agent
    untouched, so no byte of that frame has been consumed, and the loop
    ends there.  Consequently every frame a poll dispatches declares at
    least eight bytes. *)
Theorem C10_header_below_eight_is_fatal :
  (forall (s : Agent World) fuel,
      (8 <= length (inQueue (m_controlPipe s)))%nat ->
      headLength s < 8 ->
      pollControlPipe_body P s = Abort Assert_packetSize s /\
      pollControlPipe_loop P (S fuel) s = Some (Abort Assert_packetSize s)) /\
  (forall (s : Agent World) r,
      pollControlPipe P s = Some r ->
      exists frames,
        dispatched (history (final r)) = dispatched (history s) ++ frames /\
        Forall (fun f => 8 <= declaredLength f) frames).
Proof.
  split.
  - intros s fuel Hlen Hsmall.
    assert (Hb : pollControlPipe_body P s = Abort Assert_packetSize s)
      by (apply body_badSize; [assumption | lia]).
    split; [exact Hb|]. cbn [pollControlPipe_loop]. rewrite Hb. reflexivity.
  - intros s r Hr. unfold pollControlPipe in Hr.
    destruct (NamedPipe.isClosed (m_controlPipe s)).
    + injection Hr as <-. exists []. split; [|constructor]. cbn.
      rewrite dispatched_app. reflexivity.
    + destruct (loop_consumed _ _ _ Hr) as [frames (_ & Hd & Hf)].
      exists frames. split; [exact Hd|].
      eapply Forall_impl; [|exact Hf]. intros f [_ [Hmin _]]. exact Hmin.
Qed.

End Claims10.

(** * Further properties *)

(** ** What the handlers leave alone *)

Lemma created_app :
  forall h1 h2, created (h1 ++ h2) = (created h1 + created h2)%nat.
Proof.
  induction h1 as [|e h1 IH]; intros h2; [reflexivity|].
  destruct e as [msg| | | | | | | | |]; try exact (IH h2).
  destruct msg as [| | | |success pid| | |]; try exact (IH h2).
  destruct success; [|exact (IH h2)].
  change (S (created (h1 ++ h2)) = S (created h1 + created h2)).
  rewrite IH. reflexivity.
Qed.

Lemma closedHandles_app :
  forall h1 h2,
    closedHandles (h1 ++ h2) = closedHandles h1 ++ closedHandles h2.
Proof.
  induction h1 as [|e h1 IH]; intros h2; [reflexivity|].
  destruct e; simpl; rewrite IH; reflexivity.
Qed.

Lemma config_refl : forall World (s : Agent World), config s s.
Proof. intros. unfold config. repeat split. Qed.

Lemma config_trans :
  forall World (a b c : Agent World), config a b -> config b c -> config a c.
Proof.
  unfold config. intros World a b c H1 H2.
  decompose [and] H1. decompose [and] H2.
  repeat split; etransitivity; eassumption.
Qed.

Lemma armed_refl : forall World (s : Agent World), armed s s.
Proof. intros. split; [apply config_refl | split; reflexivity]. Qed.

Lemma armed_trans :
  forall World (a b c : Agent World), armed a b -> armed b c -> armed a c.
Proof.
  intros World a b c (H1 & H2 & H3) (K1 & K2 & K3).
  split; [eapply config_trans; eassumption|].
  split; etransitivity; eassumption.
Qed.

Lemma settled_refl : forall World (s : Agent World), settled s s.
Proof. intros. split; [apply armed_refl | reflexivity]. Qed.

Lemma settled_trans :
  forall World (a b c : Agent World), settled a b -> settled b c -> settled a c.
Proof.
  intros World a b c (H1 & H2) (K1 & K2).
  split; [eapply armed_trans; eassumption | etransitivity; eassumption].
Qed.

Lemma settled_armed :
  forall World (s s' : Agent World), settled s s' -> armed s s'.
Proof. intros World s s' [H _]. exact H. Qed.

Lemma armed_config :
  forall World (s s' : Agent World), armed s s' -> config s s'.
Proof. intros World s s' [H _]. exact H. Qed.

Lemma settled_config :
  forall World (s s' : Agent World), settled s s' -> config s s'.
Proof. intros World s s' [[H _] _]. exact H. Qed.

(** Goals of the form [settled s (update s)]. *)
Ltac settled_prim :=
  unfold settled, armed, config, hasConerrPipe; cbn;
  rewrite ?created_app, ?closedHandles_app; cbn;
  rewrite ?Nat.add_0_r, ?app_nil_r;
  repeat split; reflexivity.

Create HintDb settled_db.

Ltac settled_step :=
  first
    [ match goal with
      | |- keeps _ (modify _) => apply keeps_modify; intro; settled_prim
      | |- keeps _ (trace _) => apply keeps_modify; intro; settled_prim
      | |- keeps _ (call _) => apply keeps_call; intros; settled_prim
      | |- keeps _ (call_ _) => apply keeps_modify; intro; settled_prim
      end
    | keeps_step @settled_refl @settled_trans
    | solve [auto with settled_db] ].

Section Settled.

Context {World : Type} (P : Platform World).

Lemma settled_conout_write :
  forall d, keeps settled (conout_write (World:=World) d).
Proof. intros d. unfold conout_write. repeat settled_step. Qed.

Lemma settled_conerr_write :
  forall d, keeps settled (conerr_write (World:=World) d).
Proof.
  intros d. apply keeps_modify. intros s.
  unfold settled, armed, config, hasConerrPipe.
  destruct (m_conerrPipe s) eqn:E; cbn; rewrite ?E; repeat split; reflexivity.
Qed.

Lemma settled_conout_closePipe : keeps settled (conout_closePipe (World:=World)).
Proof. unfold conout_closePipe. repeat settled_step. Qed.

Lemma settled_conerr_closePipe : keeps settled (conerr_closePipe (World:=World)).
Proof.
  apply keeps_modify. intros s.
  unfold settled, armed, config, hasConerrPipe.
  destruct (m_conerrPipe s) eqn:E; cbn; rewrite ?E; repeat split; reflexivity.
Qed.

Lemma settled_terminal_write :
  forall which d, keeps settled (terminal_write (World:=World) which d).
Proof.
  intros [|] d; simpl; [apply settled_conout_write | apply settled_conerr_write].
Qed.

Lemma settled_setFrozen : forall b, keeps settled (Win32Console_setFrozen P b).
Proof.
  intros b s. unfold Win32Console_setFrozen, bind, gets.
  destruct (Bool.eqb b (m_frozen (m_console s))); [apply settled_refl|].
  destruct b; simpl; settled_prim.
Qed.

Lemma settled_setMouseWindowRect :
  forall r, keeps settled (setMouseWindowRect (World:=World) r).
Proof. intros r. unfold setMouseWindowRect. repeat settled_step. Qed.

Lemma settled_writePacket :
  forall p, keeps settled (writePacket (World:=World) p).
Proof. intros p. unfold writePacket. repeat settled_step. Qed.

Lemma settled_duplicateHandle : forall h, keeps settled (duplicateHandle P h).
Proof. intros h. unfold duplicateHandle. repeat settled_step. Qed.

Lemma settled_control_setReadBufferSize :
  forall n, keeps settled (control_setReadBufferSize (World:=World) n).
Proof. intros n. unfold control_setReadBufferSize. repeat settled_step. Qed.

Lemma settled_control_read :
  forall n, keeps settled (control_read (World:=World) n).
Proof. intros n s. unfold control_read. simpl. settled_prim. Qed.

Lemma settled_conin_readAllToString :
  keeps settled (conin_readAllToString (World:=World)).
Proof. intros s. unfold conin_readAllToString. simpl. settled_prim. Qed.

End Settled.

#[local] Hint Resolve settled_conout_write settled_conerr_write
  settled_conout_closePipe settled_conerr_closePipe settled_terminal_write
  settled_setFrozen settled_setMouseWindowRect settled_writePacket
  settled_duplicateHandle settled_control_setReadBufferSize
  settled_control_read settled_conin_readAllToString : settled_db.

Section Settled2.

Context {World : Type} (P : Platform World).

Lemma settled_with_FreezeGuard :
  forall A b (body : M World A),
    keeps settled body -> keeps settled (with_FreezeGuard P b body).
Proof. intros A b body H. unfold with_FreezeGuard. repeat settled_step. Qed.

Lemma settled_sendDsr : keeps settled (sendDsr (World:=World)).
Proof. unfold sendDsr. repeat settled_step. Qed.

Lemma settled_resizeWindow :
  forall cols rows, keeps settled (resizeWindow P cols rows).
Proof.
  intros cols rows. unfold resizeWindow.
  destruct (invalidSize P cols rows); [repeat settled_step|].
  apply settled_with_FreezeGuard. repeat settled_step.
Qed.

Lemma settled_syncConsoleTitle : keeps settled (syncConsoleTitle P).
Proof. unfold syncConsoleTitle. repeat settled_step. Qed.

Lemma settled_scrapeBuffers : keeps settled (scrapeBuffers P).
Proof.
  unfold scrapeBuffers. apply settled_with_FreezeGuard. repeat settled_step.
Qed.

Lemma settled_autoClosePipesForShutdown :
  keeps settled (autoClosePipesForShutdown (World:=World)).
Proof. unfold autoClosePipesForShutdown. repeat settled_step. Qed.

End Settled2.

#[local] Hint Resolve settled_sendDsr settled_resizeWindow
  settled_syncConsoleTitle settled_scrapeBuffers
  settled_autoClosePipesForShutdown : settled_db.

Section Settled3.

Context {World : Type} (P : Platform World).

Lemma settled_handleSetSizePacket :
  forall packet, keeps settled (handleSetSizePacket P packet).
Proof. intros packet. unfold handleSetSizePacket. repeat settled_step. Qed.

Lemma settled_writeInput : forall data, keeps settled (writeInput P data).
Proof. intros data. unfold writeInput. repeat settled_step. Qed.

End Settled3.

#[local] Hint Resolve settled_handleSetSizePacket settled_writeInput : settled_db.

Section Settled4.

Context {World : Type} (P : Platform World).

Lemma settled_pollConinPipe : keeps settled (pollConinPipe P).
Proof. unfold pollConinPipe. repeat settled_step. Qed.

Lemma armed_onPollTimeout : keeps armed (onPollTimeout P).
Proof.
  unfold onPollTimeout.
  repeat first
    [ match goal with
      | |- keeps _ (modify _) =>
          apply keeps_modify; intro;
          unfold armed, config, hasConerrPipe; cbn;
          rewrite ?created_app; cbn; rewrite ?Nat.add_0_r;
          repeat split; reflexivity
      | |- keeps _ (call _) =>
          apply keeps_call; intros;
          unfold armed, config, hasConerrPipe; cbn; repeat split; reflexivity
      | |- keeps _ (call_ _) =>
          apply keeps_modify; intro;
          unfold armed, config, hasConerrPipe; cbn; repeat split; reflexivity
      end
    | keeps_step @armed_refl @armed_trans
    | eapply keeps_weaken;
      [exact (@settled_armed _) | solve [auto with settled_db]] ].
Qed.

End Settled4.


Ltac config_step :=
  first
    [ match goal with
      | |- keeps _ (modify _) =>
          apply keeps_modify; intro;
          unfold config, hasConerrPipe; cbn; repeat split; reflexivity
      | |- keeps _ (trace _) =>
          apply keeps_modify; intro;
          unfold config, hasConerrPipe; cbn; repeat split; reflexivity
      | |- keeps _ (call _) =>
          apply keeps_call; intros;
          unfold config, hasConerrPipe; cbn; repeat split; reflexivity
      | |- keeps _ (call_ _) =>
          apply keeps_modify; intro;
          unfold config, hasConerrPipe; cbn; repeat split; reflexivity
      end
    | keeps_step @config_refl @config_trans
    | eapply keeps_weaken;
      [exact (@settled_config _) | solve [auto with settled_db]] ].

Section Config.

Context {World : Type} (P : Platform World).

Lemma config_handleStartProcessPacket :
  forall packet, keeps config (handleStartProcessPacket P packet).
Proof.
  intros packet. unfold handleStartProcessPacket. repeat config_step.
Qed.

Lemma config_handlePacket :
  forall packet, keeps config (handlePacket P packet).
Proof.
  intros packet. unfold handlePacket.
  repeat first [ apply config_handleStartProcessPacket | config_step ].
Qed.

Lemma config_pollControlPipe_body : keeps config (pollControlPipe_body P).
Proof.
  unfold pollControlPipe_body.
  repeat first [ apply config_handlePacket | config_step ].
Qed.

Lemma config_pollControlPipe_loop :
  forall fuel (s : Agent World) r,
    pollControlPipe_loop P fuel s = Some r -> config s (final r).
Proof.
  induction fuel as [|fuel IH]; intros s r H; [discriminate|].
  simpl in H. pose proof (config_pollControlPipe_body s) as Hb.
  destruct (pollControlPipe_body P s) as [[|] s1|s1|why s1]; simpl in Hb.
  - eapply config_trans; [exact Hb | apply IH; exact H].
  - injection H as <-. exact Hb.
  - injection H as <-. exact Hb.
  - injection H as <-. exact Hb.
Qed.

End Config.


(** ** Replies and requests on the control pipe *)

Section Framing.

Context {World : Type} (P : Platform World).

Lemma SIZE_MAX_large : 2 ^ 32 - 1 <= SIZE_MAX (arch P) < 2 ^ 64.
Proof. destruct (arch P); simpl; lia. Qed.

Lemma frameOf_length :
  forall payload, length (frameOf payload) = (8 + length payload)%nat.
Proof.
  intros payload. unfold frameOf. rewrite length_app, le_encode_length.
  reflexivity.
Qed.

Lemma frameOf_payload : forall payload, skipn 8 (frameOf payload) = payload.
Proof.
  intros payload. unfold frameOf.
  rewrite skipn_app, le_encode_length, Nat.sub_diag.
  rewrite skipn_all2 by (rewrite le_encode_length; lia). reflexivity.
Qed.

Lemma headLength_frameOf :
  forall (s : Agent World) payload rest,
    inQueue (m_controlPipe s) = frameOf payload ++ rest ->
    8 + Z.of_nat (length payload) < 2 ^ 64 ->
    headLength s = Z.of_nat (length (frameOf payload)).
Proof.
  intros s payload rest Hin Hsmall. unfold headLength, declaredLength.
  rewrite Hin, firstn_app, frameOf_length.
  replace (8 - (8 + length payload))%nat with O by lia.
  rewrite firstn_O, app_nil_r.
  apply declaredLength_frameOf. exact Hsmall.
Qed.

(** In front of an incomplete frame a second pass does nothing. *)
Lemma body_false_again :
  forall s s' : Agent World,
    pollControlPipe_body P s = Ok false s' ->
    pollControlPipe_body P s' = Ok false s'.
Proof.
  intros s s' H.
  destruct (@body_false_inv _ P s s' H) as [[Hs ->]|(Hlen & Hsize & Hp & ->)];
    [exact H|].
  destruct (Z.ltb_spec (NamedPipe.readBufferSize (m_controlPipe s)) (headLength s))
    as [Hr|Hr].
  - set (s1 := set_controlPipe _ s).
    assert (Hq : inQueue (m_controlPipe s1) = inQueue (m_controlPipe s))
      by reflexivity.
    assert (Hh : headLength s1 = headLength s) by reflexivity.
    rewrite body_partial; rewrite ?Hq, ?Hh; try assumption.
    subst s1. cbn [m_controlPipe set_controlPipe].
    unfold NamedPipe.readBufferSize, NamedPipe.setReadBufferSize.
    cbn [m_readBufferSize]. rewrite Z.ltb_irrefl. reflexivity.
  - rewrite body_partial by assumption.
    destruct (Z.ltb_spec (NamedPipe.readBufferSize (m_controlPipe s)) (headLength s));
      [lia|reflexivity].
Qed.

End Framing.

Section FramingTheorems.

Context {World : Type} (P : Platform World).

(** X1.  [writePacket] sends a reply as one frame: the reserved first
    eight bytes of the packet are overwritten with the total length,
    header included, and the payload follows unchanged.  Nothing but the
    output of the control pipe changes. *)
Theorem writePacket_sends_one_frame :
  forall (s : Agent World) payload,
    8 + Z.of_nat (length payload) < 2 ^ 64 ->
    exists sent,
      writePacket (newPacket ++ payload) s
        = Ok tt (set_controlPipe (NamedPipe.write sent (m_controlPipe s)) s) /\
      length sent = (8 + length payload)%nat /\
      declaredLength sent = Z.of_nat (length sent) /\
      skipn 8 sent = payload.
Proof.
  intros s payload Hsmall. exists (frameOf payload).
  split; [apply writePacket_frameOf|].
  split; [apply frameOf_length|].
  split; [apply declaredLength_frameOf; exact Hsmall | apply frameOf_payload].
Qed.

(** X2.  What [writePacket] sends, the control loop reads back: when the
    bytes of one written packet arrive on a control pipe, followed by
    anything, one pass of the loop hands exactly those bytes to
    [handlePacket] as one frame and leaves what follows on the pipe. *)
Theorem written_frame_is_read_back :
  forall (a b : Agent World) payload rest,
    8 + Z.of_nat (length payload) <= SIZE_MAX (arch P) ->
    let a' := final (writePacket (newPacket ++ payload) a) in
    let sent := skipn (length (outQueue (m_controlPipe a)))
                      (outQueue (m_controlPipe a')) in
    inQueue (m_controlPipe b) = sent ++ rest ->
    let r := pollControlPipe_body P b in
    skipn 8 sent = payload /\
    dispatched (history (final r)) = dispatched (history b) ++ [sent] /\
    inQueue (m_controlPipe (final r)) = rest.
Proof.
  intros a b payload rest Hsize a' sent.
  assert (Hsent : sent = frameOf payload).
  { subst sent a'. rewrite writePacket_frameOf. cbn.
    rewrite skipn_app, Nat.sub_diag, skipn_all. reflexivity. }
  rewrite Hsent. clear a' sent Hsent. intros Hin r.
  pose proof (@SIZE_MAX_large _ P) as Hmax.
  assert (Hh : headLength b = Z.of_nat (length (frameOf payload)))
    by (eapply headLength_frameOf; [exact Hin|lia]).
  pose proof (frameOf_length payload) as Hl.
  assert (Hlen : (8 <= length (inQueue (m_controlPipe b)))%nat)
    by (rewrite Hin, length_app; lia).
  assert (Hs : 8 <= headLength b <= SIZE_MAX (arch P)) by lia.
  assert (Hf : headLength b <= Z.of_nat (length (inQueue (m_controlPipe b))))
    by (rewrite Hin, length_app; lia).
  split; [apply frameOf_payload|].
  subst r. rewrite (@body_full _ P b Hlen Hs Hf).
  rewrite Hh, Nat2Z.id.
  assert (Hfirst : firstn (length (frameOf payload)) (inQueue (m_controlPipe b))
                   = frameOf payload)
    by (rewrite Hin, firstn_app, Nat.sub_diag, firstn_all, firstn_O, app_nil_r;
        reflexivity).
  rewrite Hfirst.
  set (b1 := set_controlPipe _ b).
  pose proof (handlePacket_frameSpawn P (mkReadBuffer (frameOf payload) 8) b1)
    as (_ & (Hq & Hd) & _).
  cbn [rb_buf] in Hq, Hd.
  assert (Hfinal : forall o : Outcome World unit,
             final match o with
                   | Ok _ s2 => Ok true s2
                   | Throw s2 => Abort Assert_decodeError s2
                   | Abort why s2 => Abort why s2
                   end = final o) by (intros [| |]; reflexivity).
  rewrite Hfinal, Hd, Hq. subst b1. agent_simpl.
  unfold NamedPipe.read. cbn [snd inQueue].
  rewrite dispatched_app. cbn [dispatched].
  rewrite Hin, skipn_app, Nat.sub_diag, skipn_all. split; reflexivity.
Qed.

(** X3.  Polling again before new bytes arrive changes nothing: a poll of
    an open control pipe that returns leaves the agent in a state in which
    the next poll returns at once with the agent as it is. *)
Theorem poll_again_changes_nothing :
  forall s s' : Agent World,
    NamedPipe.isClosed (m_controlPipe s) = false ->
    pollControlPipe P s = Some (Ok tt s') ->
    pollControlPipe P s' = Some (Ok tt s').
Proof.
  intros s s' Hopen H. unfold pollControlPipe in H. rewrite Hopen in H.
  pose proof (@config_pollControlPipe_loop _ P _ _ _ H) as (Hstate & _).
  cbn [final] in Hstate.
  destruct (@loop_last_pass _ P _ _ _ H) as (s0 & Hb).
  apply body_false_again in Hb.
  unfold pollControlPipe, NamedPipe.isClosed. rewrite Hstate.
  unfold NamedPipe.isClosed in Hopen. rewrite Hopen.
  cbn [pollControlPipe_loop]. rewrite Hb. reflexivity.
Qed.

End FramingTheorems.


(** ** Requests that are not understood *)

Section Dispatch.

Context {World : Type} (P : Platform World).

(** The message type of a frame: the four bytes behind the header. *)
Lemma getInt32_type :
  forall frame,
    (12 <= length frame)%nat ->
    ReadBuffer.getInt32 (mkReadBuffer frame 8) =
    Some (to_signed 32 (le_decode (firstn 4 (skipn 8 frame))),
          mkReadBuffer frame 12).
Proof.
  intros frame Hlen.
  unfold ReadBuffer.getInt32, ReadBuffer.getRawValue, ReadBuffer.getRawData.
  cbn [rb_off rb_buf].
  destruct (Nat.leb_spec (8 + 4) (length frame)); [reflexivity|lia].
Qed.

Lemma getInt32_none :
  forall frame off,
    (length frame < off + 4)%nat ->
    ReadBuffer.getInt32 (mkReadBuffer frame off) = None.
Proof.
  intros frame off Hlen.
  unfold ReadBuffer.getInt32, ReadBuffer.getRawValue, ReadBuffer.getRawData.
  cbn [rb_off rb_buf].
  destruct (Nat.leb_spec (off + 4) (length frame)); [lia|reflexivity].
Qed.

Lemma read_frame_length :
  forall (s : Agent World),
    headLength s <= Z.of_nat (length (inQueue (m_controlPipe s))) ->
    0 <= headLength s ->
    Z.of_nat (length (fst (NamedPipe.read (Z.to_nat (headLength s))
                             (m_controlPipe s)))) = headLength s.
Proof.
  intros s Hf H0. unfold NamedPipe.read. cbn [fst].
  rewrite length_firstn. lia.
Qed.

(** A complete frame of twelve bytes or more reaches the handler of its
    message type. *)
Lemma body_dispatch :
  forall s : Agent World,
    (8 <= length (inQueue (m_controlPipe s)))%nat ->
    12 <= headLength s <= SIZE_MAX (arch P) ->
    headLength s <= Z.of_nat (length (inQueue (m_controlPipe s))) ->
    let n := Z.to_nat (headLength s) in
    let frame := fst (NamedPipe.read n (m_controlPipe s)) in
    let type := to_signed 32 (le_decode (firstn 4 (skipn 8 frame))) in
    let s1 := record (EvHandlePacket frame)
                (set_controlPipe (snd (NamedPipe.read n (m_controlPipe s))) s) in
    pollControlPipe_body P s =
    match (if type =? AgentMsg_StartProcess P
           then handleStartProcessPacket P (mkReadBuffer frame 12)
           else if type =? AgentMsg_SetSize P
                then handleSetSizePacket P (mkReadBuffer frame 12)
                else trace (Trace_UnrecognizedMessage type)) s1 with
    | Ok _ s2 => Ok true s2
    | Throw s2 => Abort Assert_decodeError s2
    | Abort why s2 => Abort why s2
    end.
Proof.
  intros s Hlen Hsize Hfull n frame type s1.
  assert (Hs : 8 <= headLength s <= SIZE_MAX (arch P)) by lia.
  rewrite (@body_full _ P s Hlen Hs Hfull).
  change (firstn (Z.to_nat (headLength s)) (inQueue (m_controlPipe s)))
    with frame.
  assert (Hn : (12 <= length frame)%nat).
  { pose proof (@read_frame_length s Hfull) as H. fold n frame in H. lia. }
  unfold handlePacket. cbn [bind modify rb_buf].
  rewrite (@getInt32_type frame Hn). cbn [decode]. reflexivity.
Qed.

Lemma handleSetSizePacket_malformed :
  forall packet (s : Agent World),
    parseSetSize packet = None ->
    handleSetSizePacket P packet s = Throw s.
Proof.
  intros packet s H. unfold parseSetSize in H. unfold handleSetSizePacket.
  destruct (ReadBuffer.getInt32 packet) as [[cols p1]|]; [|reflexivity].
  cbn [bind decode].
  destruct (ReadBuffer.getInt32 p1) as [[rows p2]|]; [|reflexivity].
  cbn [bind decode].
  destruct (ReadBuffer.assertEof p2) as [[]|]; [discriminate|reflexivity].
Qed.

(** A SetSize body is well-formed exactly when it is eight bytes long. *)
Lemma parseSetSize_length :
  forall frame,
    (12 <= length frame)%nat ->
    length frame <> 20%nat ->
    parseSetSize (mkReadBuffer frame 12) = None.
Proof.
  intros frame Hlen Hne.
  unfold parseSetSize, ReadBuffer.getInt32, ReadBuffer.getRawValue,
    ReadBuffer.getRawData, ReadBuffer.assertEof.
  cbn [rb_off rb_buf].
  destruct (Nat.leb_spec (12 + 4) (length frame)); [|reflexivity].
  cbn [rb_off rb_buf].
  destruct (Nat.leb_spec (12 + 4 + 4) (length frame)); [|reflexivity].
  cbn [rb_off rb_buf].
  destruct (Nat.eqb_spec (12 + 4 + 4) (length frame)); [lia|reflexivity].
Qed.

Lemma handleStartProcessPacket_malformed :
  forall packet (s : Agent World),
    m_childProcess s = NULL ->
    m_closingOutputPipes s = false ->
    parseStartProcess packet = None ->
    handleStartProcessPacket P packet s = Throw s.
Proof.
  intros packet s Hchild Hclosing H.
  unfold parseStartProcess in H. unfold handleStartProcessPacket.
  cbn [bind gets]. rewrite Hchild. change (NULL =? NULL) with true.
  cbn [bind gets ASSERT]. rewrite Hclosing. cbn [bind gets ASSERT negb].
  destruct (ReadBuffer.getInt64 packet) as [[v1 p1]|]; [|reflexivity].
  cbn [bind decode].
  destruct (ReadBuffer.getInt32 p1) as [[v2 p2]|]; [|reflexivity].
  cbn [bind decode].
  destruct (ReadBuffer.getInt32 p2) as [[v3 p3]|]; [|reflexivity].
  cbn [bind decode].
  destruct (ReadBuffer.getWString p3) as [[v4 p4]|]; [|reflexivity].
  cbn [bind decode].
  destruct (ReadBuffer.getWString p4) as [[v5 p5]|]; [|reflexivity].
  cbn [bind decode].
  destruct (ReadBuffer.getWString p5) as [[v6 p6]|]; [|reflexivity].
  cbn [bind decode].
  destruct (ReadBuffer.getWString p6) as [[v7 p7]|]; [|reflexivity].
  cbn [bind decode].
  destruct (ReadBuffer.getWString p7) as [[v8 p8]|]; [|reflexivity].
  cbn [bind decode].
  destruct (ReadBuffer.assertEof p8) as [[]|]; [discriminate|reflexivity].
Qed.

(** No pass of the control loop ends in a thrown decode error. *)
Lemma body_never_throws :
  forall (s s' : Agent World), pollControlPipe_body P s <> Throw s'.
Proof.
  intros s s' H. pose proof (body_consumed P s) as Hb.
  rewrite H in Hb. exact Hb.
Qed.

End Dispatch.

Section DispatchTheorems.

Context {World : Type} (P : Platform World).

(** X4.  A decode error never leaves the control loop: every poll ends,
    and it ends by returning or in a failed assertion, never in a thrown
    [DecodeError]. *)
Theorem poll_never_throws :
  forall s : Agent World,
    exists r,
      pollControlPipe P s = Some r /\
      ((exists s', r = Ok tt s') \/ (exists why s', r = Abort why s')).
Proof.
  intros s. destruct (pollControlPipe_total P s) as (r & Hr).
  exists r. split; [exact Hr|].
  unfold pollControlPipe in Hr.
  destruct (NamedPipe.isClosed (m_controlPipe s)).
  - injection Hr as <-. left. eexists. reflexivity.
  - revert Hr. generalize (S (length (inQueue (m_controlPipe s)))).
    intros fuel. revert s.
    induction fuel as [|fuel IH]; intros s Hr; [discriminate|].
    simpl in Hr.
    destruct (pollControlPipe_body P s) as [[|] s1|s1|why s1] eqn:Hb.
    + apply (IH s1). exact Hr.
    + injection Hr as <-. left. eexists. reflexivity.
    + exfalso. exact (body_never_throws P _ Hb).
    + injection Hr as <-. right. eexists. eexists. reflexivity.
Qed.

(** X5.  A complete frame that is too short to hold a message type (a
    declared length from 8 to 11, a bare header included) is fatal: the
    frame is taken off the pipe and handed to [handlePacket], reading the
    type fails, and the pass ends in the decode-error assertion. *)
Theorem frame_without_type_is_fatal :
  forall s : Agent World,
    (8 <= length (inQueue (m_controlPipe s)))%nat ->
    8 <= headLength s < 12 ->
    headLength s <= Z.of_nat (length (inQueue (m_controlPipe s))) ->
    let n := Z.to_nat (headLength s) in
    pollControlPipe_body P s =
    Abort Assert_decodeError
      (record (EvHandlePacket (fst (NamedPipe.read n (m_controlPipe s))))
         (set_controlPipe (snd (NamedPipe.read n (m_controlPipe s))) s)).
Proof.
  intros s Hlen Hsize Hfull n.
  pose proof (@SIZE_MAX_large _ P) as Hmax.
  assert (Hs : 8 <= headLength s <= SIZE_MAX (arch P)) by lia.
  rewrite (@body_full _ P s Hlen Hs Hfull).
  pose proof (@read_frame_length _ s Hfull) as Hn.
  unfold NamedPipe.read in *. cbn [fst snd] in *. fold n in Hn |- *.
  unfold handlePacket. cbn [bind modify rb_buf].
  rewrite getInt32_none by lia. reflexivity.
Qed.

(** X6.  A frame with a message type that is neither StartProcess nor
    SetSize is consumed and logged, whatever follows the type: no reply
    is sent, and the loop goes on to the next frame. *)
Theorem unrecognized_message_is_skipped :
  forall s : Agent World,
    (8 <= length (inQueue (m_controlPipe s)))%nat ->
    12 <= headLength s <= SIZE_MAX (arch P) ->
    headLength s <= Z.of_nat (length (inQueue (m_controlPipe s))) ->
    let n := Z.to_nat (headLength s) in
    let frame := fst (NamedPipe.read n (m_controlPipe s)) in
    let type := to_signed 32 (le_decode (firstn 4 (skipn 8 frame))) in
    type <> AgentMsg_StartProcess P ->
    type <> AgentMsg_SetSize P ->
    pollControlPipe_body P s =
    Ok true
      (record (EvTrace (Trace_UnrecognizedMessage type))
         (record (EvHandlePacket frame)
            (set_controlPipe (snd (NamedPipe.read n (m_controlPipe s))) s))).
Proof.
  intros s Hlen Hsize Hfull n frame type Hsp Hss.
  rewrite (@body_dispatch _ P s Hlen Hsize Hfull).
  fold n frame type.
  apply Z.eqb_neq in Hsp, Hss. rewrite Hsp, Hss. reflexivity.
Qed.

(** X7.  A SetSize frame whose body is not exactly the two 32-bit fields
    (a declared length other than 20) is fatal: the pass ends in the
    decode-error assertion with nothing resized and no reply sent. *)
Theorem malformed_set_size_is_fatal :
  forall s : Agent World,
    (8 <= length (inQueue (m_controlPipe s)))%nat ->
    12 <= headLength s <= SIZE_MAX (arch P) ->
    headLength s <= Z.of_nat (length (inQueue (m_controlPipe s))) ->
    let n := Z.to_nat (headLength s) in
    let frame := fst (NamedPipe.read n (m_controlPipe s)) in
    to_signed 32 (le_decode (firstn 4 (skipn 8 frame))) = AgentMsg_SetSize P ->
    AgentMsg_SetSize P <> AgentMsg_StartProcess P ->
    headLength s <> 20 ->
    pollControlPipe_body P s =
    Abort Assert_decodeError
      (record (EvHandlePacket frame)
         (set_controlPipe (snd (NamedPipe.read n (m_controlPipe s))) s)).
Proof.
  intros s Hlen Hsize Hfull n frame Htype Hdistinct Hne.
  rewrite (@body_dispatch _ P s Hlen Hsize Hfull).
  fold n frame. rewrite Htype.
  apply Z.eqb_neq in Hdistinct. rewrite Hdistinct, Z.eqb_refl.
  pose proof (@read_frame_length _ s Hfull) as Hn. fold n frame in Hn.
  rewrite handleSetSizePacket_malformed; [reflexivity|].
  apply parseSetSize_length; lia.
Qed.

(** X8.  A StartProcess frame whose fields cannot be read, or that holds
    more than its fields, is fatal, and it is fatal before the data pipes
    are looked at: even while a data pipe is connecting no reply is sent
    for it, and no process creation is attempted. *)
Theorem malformed_start_process_is_fatal :
  forall s : Agent World,
    (8 <= length (inQueue (m_controlPipe s)))%nat ->
    12 <= headLength s <= SIZE_MAX (arch P) ->
    headLength s <= Z.of_nat (length (inQueue (m_controlPipe s))) ->
    let n := Z.to_nat (headLength s) in
    let frame := fst (NamedPipe.read n (m_controlPipe s)) in
    to_signed 32 (le_decode (firstn 4 (skipn 8 frame)))
      = AgentMsg_StartProcess P ->
    m_childProcess s = NULL ->
    m_closingOutputPipes s = false ->
    parseStartProcess (mkReadBuffer frame 12) = None ->
    pollControlPipe_body P s =
    Abort Assert_decodeError
      (record (EvHandlePacket frame)
         (set_controlPipe (snd (NamedPipe.read n (m_controlPipe s))) s)).
Proof.
  intros s Hlen Hsize Hfull n frame Htype Hchild Hclosing Hparse.
  rewrite (@body_dispatch _ P s Hlen Hsize Hfull).
  fold n frame. rewrite Htype, Z.eqb_refl.
  rewrite handleStartProcessPacket_malformed; [reflexivity| | |exact Hparse];
    assumption.
Qed.

End DispatchTheorems.


(** ** Creating the child process *)

Section SpawnPaths.

Context {World : Type} (P : Platform World).

Lemma pipeList_none :
  forall s : Agent World,
    pendingNames s = [] ->
    fold_left appendPendingPipe (dataPipes s) [] = [].
Proof.
  intros s H. unfold pendingNames, dataPipesInOrder in H.
  unfold dataPipes. cbn [fold_left appendPendingPipe].
  cbn [filter] in H.
  destruct (NamedPipe.isConnecting (m_coninPipe s)); [discriminate|].
  destruct (NamedPipe.isConnecting (m_conoutPipe s)); [discriminate|].
  destruct (m_conerrPipe s) as [p|]; [|reflexivity].
  cbn [filter] in H. cbn.
  destruct (NamedPipe.isConnecting p); [discriminate|reflexivity].
Qed.

Lemma stdHandles_eq :
  forall s : Agent World,
    (if m_useConerr s
     then bind (gets (fun s0 : Agent World => s0))
            (fun s0 =>
               ret (Some (GetStdHandle P STD_INPUT_HANDLE (world s0),
                          GetStdHandle P STD_OUTPUT_HANDLE (world s0),
                          buffer_conout P ErrorBuffer (world s0))))
     else ret None) s =
    Ok (if m_useConerr s
        then Some (GetStdHandle P STD_INPUT_HANDLE (world s),
                   GetStdHandle P STD_OUTPUT_HANDLE (world s),
                   buffer_conout P ErrorBuffer (world s))
        else None) s.
Proof. intros s. destruct (m_useConerr s); reflexivity. Qed.

Lemma set_world_same : forall s : Agent World, set_world (world s) s = s.
Proof. intros []. reflexivity. Qed.

(** The duplicate of a handle the request wants. *)
Lemma replyHandle_ok :
  forall wanted h (st : Agent World) r w,
    replyHandle P wanted h (world st) = Some (r, w) ->
    (if negb (wanted =? 0)
     then bind (duplicateHandle P h) (fun d : HANDLE => ret (int64FromHandle d))
     else ret 0) st =
    Ok r (set_world w (if wanted =? 0 then st else record (EvDuplicateHandle h) st)).
Proof.
  intros wanted h st r w H. unfold replyHandle in H.
  destruct (wanted =? 0); cbn [negb].
  - injection H as <- <-. rewrite set_world_same. reflexivity.
  - unfold duplicateHandle, bind, modify, call, ret, ASSERT.
    cbn [world record].
    destruct (DuplicateHandle P h (world st)) as [[d|] w'];
      [|discriminate].
    injection H as <- <-. reflexivity.
Qed.

Lemma replyHandle_failed :
  forall wanted h (st : Agent World),
    replyHandle P wanted h (world st) = None ->
    (if negb (wanted =? 0)
     then bind (duplicateHandle P h) (fun d : HANDLE => ret (int64FromHandle d))
     else ret 0) st =
    Abort Assert_duplicateHandle
      (set_world (snd (DuplicateHandle P h (world st)))
         (record (EvDuplicateHandle h) st)).
Proof.
  intros wanted h st H. unfold replyHandle in H.
  destruct (wanted =? 0); cbn [negb]; [discriminate|].
  unfold duplicateHandle, bind, modify, call, ret, ASSERT.
  cbn [world record].
  destruct (DuplicateHandle P h (world st)) as [[d|] w'];
    [discriminate|reflexivity].
Qed.

End SpawnPaths.

(** Entering the handler with a well-formed request, no child, and no
    data pipe connecting: up to the call of [CreateProcessW]. *)
Ltac spawn_enter Hparse Hchild Hclosing Hpending :=
  unfold parseStartProcess in Hparse;
  destruct (ReadBuffer.getInt64 _) as [[?v1 ?p1]|] eqn:?E1; [|discriminate];
  destruct (ReadBuffer.getInt32 _) as [[?v2 ?p2]|] eqn:?E2 in Hparse; [|discriminate];
  destruct (ReadBuffer.getInt32 _) as [[?v3 ?p3]|] eqn:?E3 in Hparse; [|discriminate];
  destruct (ReadBuffer.getWString _) as [[?v4 ?p4]|] eqn:?E4 in Hparse; [|discriminate];
  destruct (ReadBuffer.getWString _) as [[?v5 ?p5]|] eqn:?E5 in Hparse; [|discriminate];
  destruct (ReadBuffer.getWString _) as [[?v6 ?p6]|] eqn:?E6 in Hparse; [|discriminate];
  destruct (ReadBuffer.getWString _) as [[?v7 ?p7]|] eqn:?E7 in Hparse; [|discriminate];
  destruct (ReadBuffer.getWString _) as [[?v8 ?p8]|] eqn:?E8 in Hparse; [|discriminate];
  destruct (ReadBuffer.assertEof _) as [[?v9 ?p9]|] eqn:?E9 in Hparse; [|discriminate];
  injection Hparse as <-;
  unfold handleStartProcessPacket;
  cbn [bind gets]; rewrite Hchild; change (NULL =? NULL) with true;
  cbn [bind gets ASSERT]; rewrite Hclosing; cbn [bind gets ASSERT negb];
  repeat match goal with
         | E : _ = Some _ |- _ => rewrite E; clear E; cbn [bind decode gets]
         end;
  rewrite (@pipeList_none _ _ Hpending); cbn [isEmpty negb bind gets].

(** From there to the outcome of [CreateProcessW]. *)
Ltac spawn_call Hcreate :=
  unfold requestArgs in Hcreate;
  cbn [req_program req_cmdline req_cwd req_env req_desktop
       req_wantProcessHandle req_wantThreadHandle req_spawnFlags] in *;
  unfold nonNull;
  unfold bind at 1; rewrite stdHandles_eq;
  cbn [bind modify]; unfold call at 1; unfold bind at 1; cbv beta;
  cbn [world record];
  match goal with
  | |- context [CreateProcessW ?Q ?a (world ?st)] =>
      let H := fresh "Hcall" in
      assert (H : CreateProcessW Q a (world st) = _) by exact Hcreate;
      rewrite H; clear H
  end;
  cbn [bind ret gets trace modify].

Section SpawnTheorems.

Context {World : Type} (P : Platform World).

(** X9.  A well-formed StartProcess request with no child tracked, the
    closing phase not begun and every data pipe connected, for which
    [CreateProcessW] succeeds: the handler calls [CreateProcessW] once,
    duplicates the process and the thread handle if the request wants
    them, closes its own thread handle afterwards, tracks the process
    handle as the child, arms auto-shutdown by the spawn flag, and sends
    one ProcessCreated reply with the two handle values (zero for a
    handle not wanted). *)
Theorem spawn_success :
  forall (s : Agent World) packet req pi w1 rp w2 rt w3,
    m_childProcess s = NULL ->
    m_closingOutputPipes s = false ->
    parseStartProcess packet = Some req ->
    pendingNames s = [] ->
    CreateProcessW P (requestArgs P s req) (world s) = (Some pi, w1) ->
    replyHandle P (req_wantProcessHandle req) (hProcess pi) w1 = Some (rp, w2) ->
    replyHandle P (req_wantThreadHandle req) (hThread pi) w2 = Some (rt, w3) ->
    exists s',
      handleStartProcessPacket P packet s = Ok tt s' /\
      m_childProcess s' = hProcess pi /\
      m_autoShutdown s' =
        negb (Z.land (to_unsigned 64 (req_spawnFlags req))
                     (WINPTY_SPAWN_FLAG_AUTO_SHUTDOWN P) =? 0) /\
      outQueue (m_controlPipe s') =
        outQueue (m_controlPipe s)
        ++ frameOf (WriteBuffer.putInt64 rt
                      (WriteBuffer.putInt64 rp
                         (WriteBuffer.putInt32
                            (StartProcessResult_ProcessCreated P) []))) /\
      world s' = CloseHandle P (hThread pi) w3 /\
      history s' =
        history s
        ++ [EvCreateProcessW (requestArgs P s req);
            EvTrace (Trace_CreateProcess true (dwProcessId pi))]
        ++ (if req_wantProcessHandle req =? 0 then []
            else [EvDuplicateHandle (hProcess pi)])
        ++ (if req_wantThreadHandle req =? 0 then []
            else [EvDuplicateHandle (hThread pi)])
        ++ [EvCloseHandle (hThread pi)].
Proof.
  intros s packet req pi w1 rp w2 rt w3 Hchild Hclosing Hparse Hpending
         Hcreate Hp Ht.
  pose proof Hcreate as Hcreate'.
  spawn_enter Hparse Hchild Hclosing Hpending.
  spawn_call Hcreate.
  unfold bind at 1. erewrite replyHandle_ok by exact Hp.
  unfold bind at 1. erewrite replyHandle_ok by exact Ht.
  cbn [bind modify call_].
  change (WriteBuffer.putInt64 rt
            (WriteBuffer.putInt64 rp
               (WriteBuffer.putInt32 (StartProcessResult_ProcessCreated P)
                  newPacket)))
    with (newPacket ++
          WriteBuffer.putInt64 rt
            (WriteBuffer.putInt64 rp
               (WriteBuffer.putInt32 (StartProcessResult_ProcessCreated P) []))).
  rewrite writePacket_frameOf.
  eexists. split; [reflexivity|].
  agent_simpl. unfold NamedPipe.write. cbn [outQueue].
  repeat split; try reflexivity.
  - destruct (v2 =? 0); destruct (v3 =? 0); reflexivity.
  - destruct (v2 =? 0); destruct (v3 =? 0); agent_simpl;
      rewrite <- ?app_assoc; reflexivity.
Qed.

(** X10.  When [CreateProcessW] fails for such a request, the handler
    sends one CreateProcessFailed reply carrying [GetLastError()] and
    changes nothing else: no child is tracked, auto-shutdown keeps its
    value and the closing phase has not begun, so the next StartProcess
    request is handled like the first. *)
Theorem spawn_failure_is_reported :
  forall (s : Agent World) packet req w1,
    m_childProcess s = NULL ->
    m_closingOutputPipes s = false ->
    parseStartProcess packet = Some req ->
    pendingNames s = [] ->
    CreateProcessW P (requestArgs P s req) (world s) = (None, w1) ->
    exists s',
      handleStartProcessPacket P packet s = Ok tt s' /\
      outQueue (m_controlPipe s') =
        outQueue (m_controlPipe s)
        ++ frameOf (WriteBuffer.putInt32 (GetLastError P w1)
                      (WriteBuffer.putInt32
                         (StartProcessResult_CreateProcessFailed P) [])) /\
      history s' =
        history s
        ++ [EvCreateProcessW (requestArgs P s req);
            EvTrace (Trace_CreateProcess false 0)] /\
      world s' = w1 /\
      m_childProcess s' = NULL /\
      m_closingOutputPipes s' = false /\
      m_autoShutdown s' = m_autoShutdown s /\
      pendingNames s' = [].
Proof.
  intros s packet req w1 Hchild Hclosing Hparse Hpending Hcreate.
  spawn_enter Hparse Hchild Hclosing Hpending.
  spawn_call Hcreate. cbn [world set_world record].
  change (WriteBuffer.putInt32 (GetLastError P w1)
            (WriteBuffer.putInt32 (StartProcessResult_CreateProcessFailed P)
               newPacket))
    with (newPacket ++
          WriteBuffer.putInt32 (GetLastError P w1)
            (WriteBuffer.putInt32 (StartProcessResult_CreateProcessFailed P) [])).
  rewrite writePacket_frameOf.
  eexists. split; [reflexivity|].
  agent_simpl. unfold NamedPipe.write. cbn [outQueue].
  rewrite <- app_assoc.
  repeat split; try reflexivity; assumption.
Qed.

(** X11.  When [CreateProcessW] has succeeded and [DuplicateHandle] fails
    for a handle the request wants, the handler fails its assertion at
    once: the new process is not tracked as the child, no reply has been
    sent, and neither of the two new handles has been closed. *)
Theorem duplicate_failure_is_fatal :
  forall (s : Agent World) packet req pi w1,
    m_childProcess s = NULL ->
    m_closingOutputPipes s = false ->
    parseStartProcess packet = Some req ->
    pendingNames s = [] ->
    CreateProcessW P (requestArgs P s req) (world s) = (Some pi, w1) ->
    replyHandle P (req_wantProcessHandle req) (hProcess pi) w1 = None \/
    (exists rp w2,
        replyHandle P (req_wantProcessHandle req) (hProcess pi) w1
          = Some (rp, w2) /\
        replyHandle P (req_wantThreadHandle req) (hThread pi) w2 = None) ->
    exists s',
      handleStartProcessPacket P packet s = Abort Assert_duplicateHandle s' /\
      m_childProcess s' = NULL /\
      m_controlPipe s' = m_controlPipe s /\
      created (history s') = S (created (history s)) /\
      closedHandles (history s') = closedHandles (history s).
Proof.
  intros s packet req pi w1 Hchild Hclosing Hparse Hpending Hcreate Hdup.
  spawn_enter Hparse Hchild Hclosing Hpending.
  spawn_call Hcreate.
  destruct Hdup as [Hp|(rp & w2 & Hp & Ht)].
  - unfold bind at 1. erewrite replyHandle_failed by exact Hp.
    eexists. split; [reflexivity|]. agent_simpl.
    rewrite !created_app, !closedHandles_app. cbn [created closedHandles].
    rewrite !app_nil_r.
    repeat split; try assumption; try reflexivity. lia.
  - unfold bind at 1. erewrite replyHandle_ok by exact Hp.
    unfold bind at 1. erewrite replyHandle_failed by exact Ht.
    eexists. split; [reflexivity|]. agent_simpl.
    destruct (v2 =? 0); agent_simpl;
      rewrite !created_app, !closedHandles_app; cbn [created closedHandles];
      rewrite !app_nil_r;
      (repeat split; try assumption; try reflexivity; lia).
Qed.

End SpawnTheorems.


(** ** Resizing and scraping under the freeze guard *)

Section Guarded.

Context {World : Type} (P : Platform World).

Lemma invalidSize_false :
  forall cols rows,
    1 <= cols <= MAX_CONSOLE_WIDTH P ->
    1 <= rows <= BUFFER_LINE_COUNT P - 1 ->
    invalidSize P cols rows = false.
Proof.
  intros cols rows Hc Hr. unfold invalidSize.
  destruct (Z.ltb_spec cols 1); [lia|].
  destruct (Z.gtb_spec cols (MAX_CONSOLE_WIDTH P)); [lia|].
  destruct (Z.ltb_spec rows 1); [lia|].
  destruct (Z.gtb_spec rows (BUFFER_LINE_COUNT P - 1)); [lia|].
  reflexivity.
Qed.

(** X12.  A resize to a size within bounds runs under the freeze guard:
    unless the console is already frozen it is frozen with the selected
    command before and released after, and the console object ends as it
    began.  The primary scraper is resized against the primary buffer,
    then the error scraper, if there is one, to the same size; each
    scraper's output goes to its own pipe, and the mouse rectangle of the
    input translator is the window the primary scraper reported. *)
Theorem resize_within_bounds :
  forall (s : Agent World) cols rows,
    1 <= cols <= MAX_CONSOLE_WIDTH P ->
    1 <= rows <= BUFFER_LINE_COUNT P - 1 ->
    let frozen := m_frozen (m_console s) in
    let size := mkCoord cols rows in
    let w0 := if frozen then world s
              else console_sendSyscommand P (selectedSyscommand s) (world s) in
    let primary :=
      scraper_resizeWindow P PrimaryScraper (if m_useConerr s then StdoutBuffer else ConoutBuffer) size w0 in
    let secondary :=
      scraper_resizeWindow P ErrorScraper ErrorBuffer size (snd primary) in
    exists s',
      resizeWindow P cols rows s = Ok tt s' /\
      m_console s' = m_console s /\
      m_consoleInput s' = mkConsoleInput (windowRect (fst (fst primary))) /\
      m_conoutPipe s' = NamedPipe.write (snd (fst primary)) (m_conoutPipe s) /\
      m_conerrPipe s' =
        (if m_errorScraper s
         then option_map (NamedPipe.write (snd (fst secondary))) (m_conerrPipe s)
         else m_conerrPipe s) /\
      m_controlPipe s' = m_controlPipe s /\
      world s' =
        (let w2 := if m_errorScraper s then snd secondary else snd primary in
         if frozen then w2 else console_sendEscape P w2) /\
      history s' =
        history s
        ++ (if frozen then [] else [EvSyscommand (selectedSyscommand s)])
        ++ [EvResizeWindow PrimaryScraper size]
        ++ (if m_errorScraper s then [EvResizeWindow ErrorScraper size] else [])
        ++ (if frozen then [] else [EvSendEscape]).
Proof.
  intros s cols rows Hc Hr frozen size w0 primary secondary.
  unfold resizeWindow. rewrite invalidSize_false by assumption.
  subst frozen size w0 primary secondary.
  assert (Hbuf : openPrimaryBuffer s =
                 if m_useConerr s then StdoutBuffer else ConoutBuffer)
    by (unfold openPrimaryBuffer; destruct (m_useConerr s); reflexivity).
  rewrite <- Hbuf. clear Hbuf.
  unfold with_FreezeGuard, Win32Console_setFrozen, setMouseWindowRect,
    terminal_write, conout_write, conerr_write, when, trace, call, call_,
    modify, gets, ret, bind, selectedSyscommand.
  destruct s as [useConerr plainMode mouseMode [frozen useMark] ctl conin conout
                   conerr errorScraper input child auto closing title exiting w h].
  agent_simpl. cbn [m_frozen m_freezeUsesMark].
  destruct frozen; cbn [Bool.eqb]; agent_simpl; cbn [m_frozen m_freezeUsesMark].
  - destruct (scraper_resizeWindow P PrimaryScraper _ _ w) as [[info out] w1].
    cbn. destruct errorScraper; cbn.
    + destruct (scraper_resizeWindow P ErrorScraper _ _ w1) as [[info2 out2] w2].
      cbn. destruct conerr; cbn; eexists; (split; [reflexivity|]); cbn;
        rewrite <- ?app_assoc; repeat split; reflexivity.
    + eexists. split; [reflexivity|]. cbn.
      rewrite <- ?app_assoc, ?app_nil_r. repeat split; reflexivity.
  - destruct (scraper_resizeWindow P PrimaryScraper _ _ _) as [[info out] w1].
    cbn. destruct errorScraper; cbn.
    + destruct (scraper_resizeWindow P ErrorScraper _ _ w1) as [[info2 out2] w2].
      cbn. destruct conerr; cbn; eexists; (split; [reflexivity|]); cbn;
        rewrite <- ?app_assoc; repeat split; reflexivity.
    + eexists. split; [reflexivity|]. cbn.
      rewrite <- ?app_assoc, ?app_nil_r. repeat split; reflexivity.
Qed.

(** X13.  A scrape pass runs under the freeze guard in the same way.
    The primary scraper scrapes the primary buffer, then the error scraper,
    if there is one, the error buffer; each scraper's output goes to its
    own pipe, nothing goes to the control pipe, and the mouse rectangle of
    the input translator is the window the primary scraper reported. *)
Theorem scrape_pass :
  forall s : Agent World,
    let frozen := m_frozen (m_console s) in
    let w0 := if frozen then world s
              else console_sendSyscommand P (selectedSyscommand s) (world s) in
    let primary :=
      scraper_scrapeBuffer P PrimaryScraper (if m_useConerr s then StdoutBuffer else ConoutBuffer) w0 in
    let secondary :=
      scraper_scrapeBuffer P ErrorScraper ErrorBuffer (snd primary) in
    exists s',
      scrapeBuffers P s = Ok tt s' /\
      m_console s' = m_console s /\
      m_consoleInput s' = mkConsoleInput (windowRect (fst (fst primary))) /\
      m_conoutPipe s' = NamedPipe.write (snd (fst primary)) (m_conoutPipe s) /\
      m_conerrPipe s' =
        (if m_errorScraper s
         then option_map (NamedPipe.write (snd (fst secondary))) (m_conerrPipe s)
         else m_conerrPipe s) /\
      m_controlPipe s' = m_controlPipe s /\
      world s' =
        (let w2 := if m_errorScraper s then snd secondary else snd primary in
         if frozen then w2 else console_sendEscape P w2) /\
      history s' =
        history s
        ++ (if frozen then [] else [EvSyscommand (selectedSyscommand s)])
        ++ [EvScrapeBuffer PrimaryScraper]
        ++ (if m_errorScraper s then [EvScrapeBuffer ErrorScraper] else [])
        ++ (if frozen then [] else [EvSendEscape]).
Proof.
  intros s frozen w0 primary secondary.
  subst frozen w0 primary secondary.
  assert (Hbuf : openPrimaryBuffer s =
                 if m_useConerr s then StdoutBuffer else ConoutBuffer)
    by (unfold openPrimaryBuffer; destruct (m_useConerr s); reflexivity).
  rewrite <- Hbuf. clear Hbuf.
  unfold scrapeBuffers, with_FreezeGuard, Win32Console_setFrozen,
    setMouseWindowRect, terminal_write, conout_write, conerr_write, when,
    trace, call, call_, modify, gets, ret, bind, selectedSyscommand.
  destruct s as [useConerr plainMode mouseMode [frozen useMark] ctl conin conout
                   conerr errorScraper input child auto closing title exiting w h].
  agent_simpl. cbn [m_frozen m_freezeUsesMark].
  destruct frozen; cbn [Bool.eqb]; agent_simpl; cbn [m_frozen m_freezeUsesMark].
  - destruct (scraper_scrapeBuffer P PrimaryScraper _ w) as [[info out] w1].
    cbn. destruct errorScraper; cbn.
    + destruct (scraper_scrapeBuffer P ErrorScraper _ w1) as [[info2 out2] w2].
      cbn. destruct conerr; cbn; eexists; (split; [reflexivity|]); cbn;
        rewrite <- ?app_assoc; repeat split; reflexivity.
    + eexists. split; [reflexivity|]. cbn.
      rewrite <- ?app_assoc, ?app_nil_r. repeat split; reflexivity.
  - destruct (scraper_scrapeBuffer P PrimaryScraper _ _) as [[info out] w1].
    cbn. destruct errorScraper; cbn.
    + destruct (scraper_scrapeBuffer P ErrorScraper _ w1) as [[info2 out2] w2].
      cbn. destruct conerr; cbn; eexists; (split; [reflexivity|]); cbn;
        rewrite <- ?app_assoc; repeat split; reflexivity.
    + eexists. split; [reflexivity|]. cbn.
      rewrite <- ?app_assoc, ?app_nil_r. repeat split; reflexivity.
Qed.

End Guarded.


(** ** Input from the terminal *)

Section Input.

Context {World : Type} (P : Platform World).

Lemma answered_trans :
  forall k1 k2 w1 w2 (a b c : Agent World),
    answered k1 w1 a b -> answered k2 w2 b c -> answered (k1 + k2) w2 a c.
Proof.
  intros k1 k2 w1 w2 a b c H1 H2.
  destruct H1 as (A1 & A2 & A3 & A4 & A5 & A6 & A7 & A8).
  destruct H2 as (B1 & B2 & B3 & B4 & B5 & B6 & B7 & B8).
  unfold answered.
  rewrite B2, A2, repeat_app, concat_app, <- app_assoc.
  repeat split; try congruence.
Qed.

Lemma dsrEnabled_answered :
  forall k w (s s' : Agent World),
    answered k w s s' -> dsrEnabled s' = dsrEnabled s.
Proof.
  intros k w s s' (_ & _ & Hstate & Hplain & _).
  unfold dsrEnabled, NamedPipe.isClosed. rewrite Hstate, Hplain. reflexivity.
Qed.

Lemma sendDsr_answered :
  forall s : Agent World,
    exists s',
      sendDsr (World:=World) s = Ok tt s' /\
      answered (if dsrEnabled s then 1 else 0) (world s) s s'.
Proof.
  intros s. unfold sendDsr, bind, gets, when. fold (dsrEnabled s).
  destruct (dsrEnabled s).
  - eexists. split; [reflexivity|]. unfold answered. cbn.
    rewrite ?app_nil_r. repeat split; reflexivity.
  - eexists. split; [reflexivity|]. unfold answered. cbn.
    rewrite ?app_nil_r. repeat split; reflexivity.
Qed.

Lemma repeatM_sendDsr :
  forall k (s : Agent World),
    exists s',
      repeatM k (sendDsr (World:=World)) s = Ok tt s' /\
      answered (if dsrEnabled s then k else 0) (world s) s s'.
Proof.
  induction k as [|k IH]; intros s.
  - exists s. split; [reflexivity|]. unfold answered. cbn.
    destruct (dsrEnabled s); cbn; rewrite ?app_nil_r; repeat split; reflexivity.
  - destruct (sendDsr_answered s) as (s1 & Hrun & H1).
    destruct (IH s1) as (s2 & Hrest & H2).
    exists s2. cbn [repeatM]. unfold bind. rewrite Hrun. split; [exact Hrest|].
    rewrite (dsrEnabled_answered H1) in H2.
    pose proof (answered_trans H1 H2) as H.
    destruct H1 as (Hw & _). rewrite Hw in H.
    destruct (dsrEnabled s); exact H.
Qed.

Lemma writeInput_answered :
  forall data (s : Agent World),
    exists s',
      writeInput P data s = Ok tt s' /\
      answered (if dsrEnabled s
                then fst (consoleInput_writeInput P data (world s)) else 0)
               (snd (consoleInput_writeInput P data (world s))) s s'.
Proof.
  intros data s. unfold writeInput, bind, call.
  destruct (consoleInput_writeInput P data (world s)) as [k w] eqn:E.
  cbn [fst snd].
  destruct (repeatM_sendDsr k (set_world w s)) as (s' & Hrun & H).
  exists s'. split; [exact Hrun|].
  destruct H as (A1 & A2 & A3 & A4 & A5 & A6 & A7 & A8).
  change (dsrEnabled (set_world w s)) with (dsrEnabled s) in A2.
  unfold answered. repeat split; assumption.
Qed.

Lemma forEach_writeInput :
  forall data (s : Agent World),
    exists s',
      forEach data (fun b => writeInput P [b]) s = Ok tt s' /\
      let run := inputRun P (inputChunks true data) (world s) in
      answered (if dsrEnabled s then fst run else 0) (snd run) s s'.
Proof.
  induction data as [|b data IH]; intros s.
  - exists s. split; [reflexivity|]. unfold answered. cbn.
    destruct (dsrEnabled s); cbn; rewrite ?app_nil_r; repeat split; reflexivity.
  - destruct (writeInput_answered [b] s) as (s1 & Hrun & H1).
    destruct (IH s1) as (s2 & Hrest & H2).
    exists s2. cbn [forEach]. unfold bind. rewrite Hrun. split; [exact Hrest|].
    cbn zeta in H2. rewrite (dsrEnabled_answered H1) in H2.
    assert (Hw : world s1 = snd (consoleInput_writeInput P [b] (world s)))
      by (destruct H1 as (Hw & _); exact Hw).
    rewrite Hw in H2.
    pose proof (answered_trans H1 H2) as H.
    unfold inputChunks. cbn [map inputRun]. unfold inputChunks in H.
    destruct (consoleInput_writeInput P [b] (world s)) as [k w1].
    cbn [fst snd] in *.
    destruct (inputRun P (map (fun b0 => [b0]) data) w1) as [k' w2].
    cbn [fst snd] in *.
    destruct (dsrEnabled s); exact H.
Qed.

(** X14.  Input from the terminal is taken off the input pipe whole and
    handed to the input translator, in one piece or, under the debug flag,
    byte by byte; with no input the translator is still called once, with
    nothing, except under the debug flag.  For each status report the
    translator asks for, the request [ESC [ 6 n] is written to the
    primary output pipe, and nothing else is written anywhere; in plain
    mode, or when that pipe is closed, nothing is written at all. *)
Theorem input_is_drained_and_answered :
  forall s : Agent World,
    let data := inQueue (m_coninPipe s) in
    let separated := hasDebugFlag_input_separated_bytes P (world s) in
    let run := inputRun P (inputChunks separated data) (world s) in
    exists s',
      pollConinPipe P s = Ok tt s' /\
      inQueue (m_coninPipe s') = [] /\
      world s' = snd run /\
      outQueue (m_conoutPipe s') =
        outQueue (m_conoutPipe s)
        ++ concat (repeat [x1b; x5b; x36; x6e] (if dsrEnabled s then fst run else 0)) /\
      m_conerrPipe s' = m_conerrPipe s /\
      m_controlPipe s' = m_controlPipe s /\
      history s' = history s /\
      (data = [] ->
       world s' = if separated then world s
                  else snd (consoleInput_writeInput P [] (world s))).
Proof.
  intros s data separated run.
  unfold pollConinPipe, bind, conin_readAllToString, NamedPipe.readAllToString,
    gets.
  cbn [world set_coninPipe]. fold separated. fold data.
  set (s0 := set_coninPipe _ s).
  assert (Hfinish :
    forall s',
      answered (if dsrEnabled s then fst run else 0) (snd run) s0 s' ->
      inQueue (m_coninPipe s') = [] /\
      world s' = snd run /\
      outQueue (m_conoutPipe s') =
        outQueue (m_conoutPipe s)
        ++ concat (repeat DSR (if dsrEnabled s then fst run else 0)) /\
      m_conerrPipe s' = m_conerrPipe s /\
      m_controlPipe s' = m_controlPipe s /\
      history s' = history s /\
      (data = [] ->
       world s' = if separated then world s
                  else snd (consoleInput_writeInput P [] (world s)))).
  { intros s' (A1 & A2 & A3 & A4 & A5 & A6 & A7 & A8).
    rewrite A5. subst s0. cbn. repeat split; try assumption.
    intros Hempty. rewrite A1. subst run. rewrite Hempty.
    destruct separated; cbn; [reflexivity|].
    destruct (consoleInput_writeInput P [] (world s)); reflexivity. }
  destruct separated eqn:Hsep.
  - destruct (forEach_writeInput data s0) as (s' & Hrun & H).
    exists s'. split; [exact Hrun|]. apply Hfinish. exact H.
  - destruct (writeInput_answered data s0) as (s' & Hrun & H).
    exists s'. split; [exact Hrun|]. apply Hfinish.
    subst run. unfold inputChunks. cbn [inputRun].
    change (world s0) with (world s) in H.
    change (dsrEnabled s0) with (dsrEnabled s) in H.
    destruct (consoleInput_writeInput P data (world s)) as [k w1].
    cbn [fst snd] in *. rewrite Nat.add_0_r. exact H.
Qed.

End Input.


(** ** The poll tick *)

Section Tick.

Context {World : Type} (P : Platform World).

Lemma post_and :
  forall A (r : Outcome World A) (Q1 Q2 : A -> Agent World -> Prop)
         (F1 F2 : Agent World -> Prop),
    post r Q1 F1 -> post r Q2 F2 ->
    post r (fun a s => Q1 a s /\ Q2 a s) (fun s => F1 s /\ F2 s).
Proof. intros A [| |]; simpl; auto. Qed.

(** The handles a tick closes: the child's, when it detects the exit. *)
Lemma onPollTimeout_closedHandles :
  forall s : Agent World,
    post (onPollTimeout P s)
         (fun _ s' =>
            closedHandles (history s') =
            closedHandles (history s)
            ++ (if detectsExit P s then [m_childProcess s] else []))
         (fun _ => True).
Proof.
  intros s. unfold onPollTimeout.
  repeat post_step. agent_simpl.
  assert (Hdetect :
    detectsExit P s =
    m_autoShutdown s && negb (m_childProcess s =? NULL) &&
    WaitForSingleObject_signaled P (m_childProcess s)
      (consoleInput_flushIncompleteEscapeCode P w)).
  { unfold detectsExit, worldAtExitCheck.
    match goal with H : _ = (_, w) |- _ => rewrite H end. reflexivity. }
  rewrite Hdetect.
  match goal with
  | |- post (when ?c _ _) _ _ => destruct c eqn:Hexit
  end; unfold when; repeat post_step; agent_simpl.
  - apply post_keeps with (R := settled);
      [repeat settled_step | | auto].
    intros _ s1 H1. cbv beta.
    apply post_keeps with (R := settled);
      [repeat settled_step | | auto].
    intros _ s2 H2. cbv beta.
    destruct (settled_trans H1 H2) as [_ Hc]. agent_simpl.
    rewrite Hc, closedHandles_app. reflexivity.
  - apply post_keeps with (R := settled);
      [repeat settled_step | | auto].
    intros _ s1 H1. cbv beta.
    apply post_keeps with (R := settled);
      [repeat settled_step | | auto].
    intros _ s2 H2. cbv beta.
    destruct (settled_trans H1 H2) as [_ Hc]. agent_simpl.
    rewrite Hc, app_nil_r. reflexivity.
Qed.

Lemma tick_closing_eq :
  forall s : Agent World,
    m_closingOutputPipes s = true ->
    m_childProcess s = NULL ->
    let w1 := snd (consoleInput_updateMouseInputFlags P (world s)) in
    let w2 := consoleInput_flushIncompleteEscapeCode P w1 in
    let off := terminal_enableMouseMode P false w2 in
    onPollTimeout P s =
    autoClosePipesForShutdown
      (set_conoutPipe (NamedPipe.write (fst off) (m_conoutPipe s))
         (set_world (snd off) s)).
Proof.
  intros s Hclosing Hchild w1 w2 off. subst w1 w2 off.
  destruct s as [useConerr plainMode mouseMode console ctl conin conout
                   conerr errorScraper input child auto closing title exiting w h].
  cbn in Hclosing, Hchild. subst closing child.
  unfold onPollTimeout, bind, call, call_, modify, gets, when, ret,
    terminal_write, conout_write.
  agent_simpl.
  destruct (consoleInput_updateMouseInputFlags P w) as [enable w1].
  cbn [snd]. agent_simpl.
  change (NULL =? NULL) with true.
  repeat progress (agent_simpl; cbn [negb andb]; rewrite ?andb_false_r).
  destruct (terminal_enableMouseMode P false _) as [out w3].
  reflexivity.
Qed.

(** Auto-close touches the output pipes and the log only. *)
Lemma autoClose_untouched :
  forall s : Agent World,
    world (final (autoClosePipesForShutdown s)) = world s /\
    m_controlPipe (final (autoClosePipesForShutdown s)) = m_controlPipe s /\
    m_currentTitle (final (autoClosePipesForShutdown s)) = m_currentTitle s.
Proof.
  intros s. unfold autoClosePipesForShutdown.
  unfold conout_closePipe, conerr_closePipe.
  cbn [bind gets].
  destruct (m_closingOutputPipes s) eqn:Ecl; cbn [when andb];
    [|cbn [ret final]; auto].
  cbn [bind gets].
  destruct (negb (NamedPipe.isClosed (m_conoutPipe s)) &&
            (NamedPipe.bytesToSend (m_conoutPipe s) =? 0)) eqn:Eout;
    cbn [when bind gets trace modify ret]; agent_simpl;
    destruct (m_conerrPipe s) as [p|] eqn:Eerr; cbn [ret];
    try destruct (negb (NamedPipe.isClosed p) && (NamedPipe.bytesToSend p =? 0))
      eqn:Eerr2;
    cbn [when bind gets trace modify ret]; unfold modify;
    agent_simpl; rewrite ?Eerr; cbn [final]; agent_simpl; auto.
Qed.

(** X15.  In the closing phase a poll tick neither syncs the title nor
    scrapes.  It lets the input translator update its flags and flush,
    turns mouse mode off whatever the translator asked for, sending what
    the terminal writes for that to the primary output pipe, and then
    evaluates auto-close: each output pipe that is open and has nothing
    left to send is closed.  The control pipe is not touched. *)
Theorem tick_in_closing_phase :
  forall s : Agent World,
    m_closingOutputPipes s = true ->
    m_childProcess s = NULL ->
    let w1 := snd (consoleInput_updateMouseInputFlags P (world s)) in
    let w2 := consoleInput_flushIncompleteEscapeCode P w1 in
    let off := terminal_enableMouseMode P false w2 in
    exists s',
      onPollTimeout P s = Ok tt s' /\
      world s' = snd off /\
      m_conoutPipe s' =
        afterAutoClose true (NamedPipe.write (fst off) (m_conoutPipe s)) /\
      m_conerrPipe s' = option_map (afterAutoClose true) (m_conerrPipe s) /\
      m_controlPipe s' = m_controlPipe s /\
      m_currentTitle s' = m_currentTitle s /\
      scrapes (history s') = scrapes (history s) /\
      m_closingOutputPipes s' = true /\
      m_childProcess s' = NULL.
Proof.
  intros s Hclosing Hchild w1 w2 off.
  rewrite (@tick_closing_eq s Hclosing Hchild). fold w1 w2 off.
  set (s0 := set_conoutPipe _ (set_world (snd off) s)).
  destruct (autoClose_spec s0) as (s' & Hrun & Hout & Herr & _ & Hsame & Hscr).
  pose proof (autoClose_untouched s0) as (Hw & Hctl & Htitle).
  rewrite Hrun in Hw, Hctl, Htitle. cbn [final] in Hw, Hctl, Htitle.
  destruct Hsame as [Hc Hcl].
  exists s'. split; [exact Hrun|].
  rewrite Hw, Hout, Herr, Hctl, Htitle, Hscr, Hc, Hcl.
  subst s0. agent_simpl. rewrite Hclosing, Hchild.
  repeat split; reflexivity.
Qed.

(** X16.  Auto-close is idempotent: evaluating it a second time, with
    nothing sent in between, changes nothing. *)
Theorem autoClose_twice :
  forall s : Agent World,
    exists s',
      autoClosePipesForShutdown s = Ok tt s' /\
      autoClosePipesForShutdown s' = Ok tt s'.
Proof.
  intros s.
  destruct s as [useConerr plainMode mouseMode console ctl conin
                   [oname ostate oin oout orbs] conerr errorScraper input
                   child auto closing title exiting w h].
  unfold autoClosePipesForShutdown, bind, gets, when, trace, modify, ret,
    conout_closePipe, conerr_closePipe, NamedPipe.isClosed,
    NamedPipe.bytesToSend, NamedPipe.closePipe.
  destruct closing; [|eexists; split; reflexivity].
  destruct conerr as [[ename estate ein eout erbs]|];
    destruct ostate; destruct oout as [|ob oout];
    try destruct estate; try destruct eout as [|eb eout];
    cbn; eexists; split; reflexivity.
Qed.

(** X17.  A poll tick always returns, and it closes a handle only when it
    detects the exit of the child: then it closes the child's handle, once,
    and forgets the child, so that the next tick detects nothing and
    closes nothing. *)
Theorem tick_closes_child_handle_once :
  forall s : Agent World,
    exists s',
      onPollTimeout P s = Ok tt s' /\
      closedHandles (history s') =
        closedHandles (history s)
        ++ (if detectsExit P s then [m_childProcess s] else []) /\
      m_childProcess s' =
        (if detectsExit P s then NULL else m_childProcess s) /\
      (detectsExit P s = true -> detectsExit P s' = false).
Proof.
  intros s.
  pose proof (@post_and _ _ _ _ _ _ (tick_spec P s)
                (onPollTimeout_closedHandles s)) as H.
  destruct (onPollTimeout P s) as [[] s'|s'|why s']; simpl in H;
    [|destruct H as [[] _]|destruct H as [[] _]].
  destruct H as [(_ & Hchild & _) Hclosed].
  exists s'. split; [reflexivity|]. split; [exact Hclosed|].
  split; [exact Hchild|].
  intros Hd. rewrite Hd in Hchild. unfold detectsExit. rewrite Hchild.
  change (NULL =? NULL) with true. cbn [negb]. rewrite andb_false_r.
  reflexivity.
Qed.

End Tick.


(** ** Construction *)

Section Construction.

Context {World : Type} (P : Platform World).

(** Calibration, entered with the console not frozen, returns with the
    console not frozen and touches nothing but the console, the world and
    the log, where it records no process. *)
Lemma initConsoleFreezeMethod_returns :
  forall (s : Agent World) buffer,
    m_frozen (m_console s) = false ->
    exists s',
      initConsoleFreezeMethod P buffer s = Ok tt s' /\
      m_frozen (m_console s') = false /\
      created (history s') = created (history s) /\
      m_useConerr s' = m_useConerr s /\
      m_plainMode s' = m_plainMode s /\
      m_mouseMode s' = m_mouseMode s /\
      m_controlPipe s' = m_controlPipe s /\
      m_coninPipe s' = m_coninPipe s /\
      m_conoutPipe s' = m_conoutPipe s /\
      m_conerrPipe s' = m_conerrPipe s /\
      m_errorScraper s' = m_errorScraper s /\
      m_childProcess s' = m_childProcess s /\
      m_autoShutdown s' = m_autoShutdown s /\
      m_closingOutputPipes s' = m_closingOutputPipes s /\
      m_currentTitle s' = m_currentTitle s /\
      m_exiting s' = m_exiting s.
Proof.
  intros s buffer Hfrozen.
  unfold initConsoleFreezeMethod, Win32Console_setFreezeUsesMark.
  unfold Win32Console_setFrozen at 1 2.
  repeat (cbn [bind gets call_ modify ASSERT negb Bool.eqb ret trace];
          agent_simpl; cbn [m_frozen m_freezeUsesMark];
          rewrite ?Hfrozen).
  eexists. split; [reflexivity|]. agent_simpl. cbn [m_frozen].
  split; [reflexivity|].
  split; [rewrite !created_app; cbn [created]; lia|].
  repeat split; reflexivity.
Qed.

Lemma post_initConsoleFreezeMethod :
  forall (s : Agent World) buffer
         (Q : unit -> Agent World -> Prop) (F : Agent World -> Prop),
    m_frozen (m_console s) = false ->
    (forall s',
        m_frozen (m_console s') = false /\
        created (history s') = created (history s) /\
        m_useConerr s' = m_useConerr s /\
        m_plainMode s' = m_plainMode s /\
        m_mouseMode s' = m_mouseMode s /\
        m_controlPipe s' = m_controlPipe s /\
        m_coninPipe s' = m_coninPipe s /\
        m_conoutPipe s' = m_conoutPipe s /\
        m_conerrPipe s' = m_conerrPipe s /\
        m_errorScraper s' = m_errorScraper s /\
        m_childProcess s' = m_childProcess s /\
        m_autoShutdown s' = m_autoShutdown s /\
        m_closingOutputPipes s' = m_closingOutputPipes s /\
        m_currentTitle s' = m_currentTitle s /\
        m_exiting s' = m_exiting s ->
        Q tt s') ->
    post (initConsoleFreezeMethod P buffer s) Q F.
Proof.
  intros s buffer Q F Hfrozen HQ.
  destruct (@initConsoleFreezeMethod_returns s buffer Hfrozen)
    as (s' & Hrun & Hfields).
  rewrite Hrun. apply HQ. exact Hfields.
Qed.

(** The frame the constructor sends: the names of the data pipes, in
    creation order. *)
Lemma post_setupPacket :
  forall payload (s : Agent World)
         (Q : unit -> Agent World -> Prop) (F : Agent World -> Prop),
    Q tt (set_controlPipe
            (NamedPipe.write (frameOf payload) (m_controlPipe s)) s) ->
    post (writePacket (newPacket ++ payload) s) Q F.
Proof.
  intros payload s Q F H. rewrite writePacket_frameOf. exact H.
Qed.

(** What the constructor leaves behind. *)
Lemma Agent_ctor_post :
  forall controlPipeName agentFlags mouseMode initialCols initialRows w,
    let useConerr := hasFlag agentFlags (WINPTY_FLAG_CONERR P) in
    post
      (Agent_ctor P controlPipeName agentFlags mouseMode initialCols
                  initialRows w)
      (fun _ s =>
         exists u1 u2 u3,
           m_useConerr s = useConerr /\
           m_plainMode s = hasFlag agentFlags (WINPTY_FLAG_PLAIN_OUTPUT P) /\
           m_mouseMode s = mouseMode /\
           m_frozen (m_console s) = false /\
           m_coninPipe s =
             mkPipe (L "\\.\pipe\winpty-" ++ L "conin" ++ L "-" ++ u1)
                    Connecting [] [] 65536 /\
           m_conoutPipe s =
             mkPipe (L "\\.\pipe\winpty-" ++ L "conout" ++ L "-" ++ u2)
                    Connecting [] [] 0 /\
           m_conerrPipe s =
             (if useConerr
              then Some (mkPipe (L "\\.\pipe\winpty-" ++ L "conerr" ++ L "-" ++ u3)
                                Connecting [] [] 0)
              else None) /\
           m_controlPipe s =
             mkPipe controlPipeName Open []
               (frameOf (fold_left
                           (fun packet name => WriteBuffer.putWString name packet)
                           (map NamedPipe.name (dataPipesInOrder s)) []))
               65536 /\
           m_errorScraper s = useConerr /\
           m_childProcess s = NULL /\
           m_autoShutdown s = false /\
           m_closingOutputPipes s = false /\
           m_exiting s = false /\
           m_currentTitle s = [] /\
           created (history s) = O)
      (fun _ => False).
Proof.
  intros name flags mouse cols rows w useConerr.
  unfold Agent_ctor, Agent_ctor_body, Agent_members, createDataServerPipe.
  fold useConerr. clearbody useConerr.
  repeat post_step. agent_simpl.
  destruct useConerr; cbn [when].
  - repeat post_step.
    apply post_initConsoleFreezeMethod; [reflexivity|].
    intros s1 (Hc & Hh & Huse & Hplain & Hmouse & Hctl & Hin & Hout & Herr
               & Hscr & Hchild & Hauto & Hclosing & Htitle & Hexit).
    cbn [m_useConerr m_plainMode m_mouseMode m_controlPipe
      m_coninPipe m_conoutPipe m_conerrPipe m_errorScraper m_childProcess
      m_autoShutdown m_closingOutputPipes m_currentTitle m_exiting set_world
      record] in *.
    repeat post_step. agent_simpl.
    match goal with
    | |- post (writePacket
                 (WriteBuffer.putWString ?n3
                    (WriteBuffer.putWString ?n2
                       (WriteBuffer.putWString ?n1 newPacket))) ?st) _ _ =>
        apply (@post_setupPacket
                 (WriteBuffer.putWString n3
                    (WriteBuffer.putWString n2 (WriteBuffer.putWString n1 [])))
                 st)
    end.
    repeat post_step. cbn [when]. repeat post_step. agent_simpl.
    eexists. eexists. eexists.
    unfold dataPipesInOrder. agent_simpl.
    rewrite ?Hc, ?Hh, ?Huse, ?Hplain, ?Hmouse, ?Hctl, ?Hin, ?Hout, ?Herr,
      ?Hscr, ?Hchild, ?Hauto, ?Hclosing, ?Htitle, ?Hexit.
    repeat split; reflexivity.
  - repeat post_step.
    apply post_initConsoleFreezeMethod; [reflexivity|].
    intros s1 (Hc & Hh & Huse & Hplain & Hmouse & Hctl & Hin & Hout & Herr
               & Hscr & Hchild & Hauto & Hclosing & Htitle & Hexit).
    cbn [m_useConerr m_plainMode m_mouseMode m_controlPipe
      m_coninPipe m_conoutPipe m_conerrPipe m_errorScraper m_childProcess
      m_autoShutdown m_closingOutputPipes m_currentTitle m_exiting set_world
      record] in *.
    repeat post_step. agent_simpl.
    match goal with
    | |- post (writePacket
                 (WriteBuffer.putWString ?n2
                    (WriteBuffer.putWString ?n1 newPacket)) ?st) _ _ =>
        apply (@post_setupPacket
                 (WriteBuffer.putWString n2 (WriteBuffer.putWString n1 []))
                 st)
    end.
    repeat post_step. cbn [when ret]. repeat post_step. agent_simpl.
    eexists. eexists. exists [].
    unfold dataPipesInOrder. agent_simpl.
    rewrite ?Hc, ?Hh, ?Huse, ?Hplain, ?Hmouse, ?Hctl, ?Hin, ?Hout, ?Herr,
      ?Hscr, ?Hchild, ?Hauto, ?Hclosing, ?Htitle, ?Hexit.
    repeat split; reflexivity.
Qed.

End Construction.


(** ** Invariants of the event loop *)

Section Preserved.

Context {World : Type} (P : Platform World).

Variable J : Agent World -> Prop.

Hypothesis J_readBuffer :
  forall s n,
    J s ->
    J (set_controlPipe (NamedPipe.setReadBufferSize n (m_controlPipe s)) s).
Hypothesis J_read :
  forall s n,
    J s -> J (set_controlPipe (snd (NamedPipe.read n (m_controlPipe s))) s).
Hypothesis J_dispatch :
  forall s frame, J s -> J (record (EvHandlePacket frame) s).
Hypothesis J_unrecognized :
  forall s type, J s -> J (record (EvTrace (Trace_UnrecognizedMessage type)) s).
Hypothesis J_startProcess :
  forall packet s,
    J s ->
    post (handleStartProcessPacket P packet s) (fun _ s' => J s') (fun _ => True).
Hypothesis J_setSize :
  forall packet s,
    J s ->
    post (handleSetSizePacket P packet s) (fun _ s' => J s') (fun _ => True).

Lemma handlePacket_preserves :
  forall packet s,
    J s -> post (handlePacket P packet s) (fun _ s' => J s') (fun _ => True).
Proof.
  intros packet s HI. unfold handlePacket.
  repeat post_step.
  destruct (z =? AgentMsg_StartProcess P).
  - apply J_startProcess. apply J_dispatch. exact HI.
  - destruct (z =? AgentMsg_SetSize P).
    + apply J_setSize. apply J_dispatch. exact HI.
    + simpl. apply J_unrecognized. apply J_dispatch. exact HI.
Qed.

Lemma body_preserves :
  forall s,
    J s -> post (pollControlPipe_body P s) (fun _ s' => J s') (fun _ => True).
Proof.
  intros s HI.
  destruct (Nat.lt_ge_cases (length (inQueue (m_controlPipe s))) 8) as [Hlen|Hlen].
  { rewrite body_short by assumption. exact HI. }
  destruct (Z_le_dec 8 (headLength s)) as [H8|H8];
    [destruct (Z_le_dec (headLength s) (SIZE_MAX (arch P))) as [Hmax|Hmax]|].
  2,3: rewrite body_badSize by (assumption || lia); exact I.
  destruct (Z_lt_le_dec (Z.of_nat (length (inQueue (m_controlPipe s))))
                        (headLength s)) as [Hpart|Hfull].
  { rewrite body_partial by (assumption || lia).
    destruct (NamedPipe.readBufferSize (m_controlPipe s) <? headLength s);
      simpl; [|exact HI].
    apply J_readBuffer. exact HI. }
  rewrite body_full by (assumption || lia).
  match goal with
  | |- context [handlePacket P ?b ?s1] =>
      assert (HI1 : J s1) by (apply J_read; exact HI);
      pose proof (@handlePacket_preserves b s1 HI1) as Hh;
      destruct (handlePacket P b s1); simpl in *; auto
  end.
Qed.

Lemma loop_preserves :
  forall fuel s s',
    J s -> pollControlPipe_loop P fuel s = Some (Ok tt s') -> J s'.
Proof.
  induction fuel as [|fuel IH]; intros s s' HI H; simpl in H; [discriminate|].
  pose proof (@body_preserves s HI) as Hb.
  destruct (pollControlPipe_body P s) as [[|] s1|s1|why s1]; simpl in Hb.
  - eapply IH; eassumption.
  - injection H as <-. exact Hb.
  - discriminate.
  - discriminate.
Qed.

Hypothesis J_constructed :
  forall controlPipeName agentFlags mouseMode initialCols initialRows w s,
    Agent_ctor P controlPipeName agentFlags mouseMode initialCols initialRows w
      = Ok tt s ->
    J s.
Hypothesis J_world : forall s w, J s -> J (set_world w s).
Hypothesis J_control :
  forall s p, J s -> pipe_io (m_controlPipe s) p -> J (set_controlPipe p s).
Hypothesis J_conin : forall s p, J s -> J (set_coninPipe p s).
Hypothesis J_conout : forall s p, J s -> J (set_conoutPipe p s).
Hypothesis J_conerr :
  forall s p0 p,
    J s -> m_conerrPipe s = Some p0 -> J (set_conerrPipe (Some p) s).
Hypothesis J_shutdown :
  forall s,
    J s ->
    NamedPipe.isClosed (m_controlPipe s) = true ->
    J (set_exiting true (record (EvTrace Trace_AgentShuttingDown) s)).
Hypothesis J_input :
  forall s s', J s -> pollConinPipe P s = Ok tt s' -> J s'.
Hypothesis J_autoClose :
  forall s s', J s -> autoClosePipesForShutdown s = Ok tt s' -> J s'.
Hypothesis J_tick :
  forall s s', J s -> onPollTimeout P s = Ok tt s' -> J s'.

(** A property that the constructor establishes and every move of the
    event loop keeps holds in every reachable state. *)
Lemma reachable_preserves : forall s, reachable P s -> J s.
Proof.
  intros s H. induction H as [? ? ? ? ? ? ? Hctor|s s' _ IH Hstep].
  - eapply J_constructed. exact Hctor.
  - destruct Hstep as [s w|s p Hio|s p Hio|s p Hio|s p0 p Hsome Hio
                       |s namedPipe s' Hrun Hh|s s' Hrun Hh].
    + apply J_world. exact IH.
    + apply J_control; assumption.
    + apply J_conin. exact IH.
    + apply J_conout. exact IH.
    + eapply J_conerr; eassumption.
    + destruct namedPipe; simpl in Hh.
      * unfold pollControlPipe in Hh.
        destruct (NamedPipe.isClosed (m_controlPipe s)) eqn:Hclosed.
        -- injection Hh as <-. apply J_shutdown; assumption.
        -- eapply loop_preserves; eassumption.
      * injection Hh as Hh. eapply J_input; eassumption.
      * injection Hh as Hh. eapply J_autoClose; eassumption.
      * injection Hh as Hh. eapply J_autoClose; eassumption.
    + eapply J_tick; eassumption.
Qed.

End Preserved.


Section Lifecycle.

Context {World : Type} (P : Platform World).

Lemma Life_kept :
  forall s s' : Agent World,
    Life s -> config s s' -> sameChild s s' ->
    m_autoShutdown s' = m_autoShutdown s ->
    Life s'.
Proof.
  intros s s' (L1 & L2 & L3 & L4) Hc (Hchild & Hclosing) Hauto.
  destruct Hc as (C1 & C2 & C3 & C4 & C5 & C6 & C7 & C8).
  unfold Life, NamedPipe.isClosed in *.
  rewrite C1, C2, C3, C6, C8, Hchild, Hclosing, Hauto.
  repeat split; auto; apply L4; assumption.
Qed.

Lemma Life_settled :
  forall A (m : M World A) (s s' : Agent World) a,
    keeps settled m -> keeps frame m ->
    Life s -> m s = Ok a s' -> Life s'.
Proof.
  intros A m s s' a Hs Hf HL Hrun.
  pose proof (Hs s) as H1. pose proof (Hf s) as H2.
  rewrite Hrun in H1, H2. cbn [final] in H1, H2.
  destruct H1 as [[Hc [Hauto _]] _]. destruct H2 as (_ & _ & Hchild).
  eapply Life_kept; eassumption.
Qed.

(** The spawn handler returns only if it was entered with no child
    tracked and before the closing phase. *)
Lemma handleStartProcessPacket_entry :
  forall packet (s : Agent World),
    post (handleStartProcessPacket P packet s)
         (fun _ _ => m_childProcess s = NULL /\ m_closingOutputPipes s = false)
         (fun _ => True).
Proof.
  intros packet s. unfold handleStartProcessPacket.
  repeat post_step.
  match goal with
  | H1 : (_ =? NULL) = true, H2 : negb _ = true |- _ =>
      apply Z.eqb_eq in H1; apply negb_true_iff in H2;
      eapply post_mono; [apply post_True | intros; split; assumption | auto]
  end.
Qed.

Lemma Life_handleStartProcessPacket :
  forall packet (s : Agent World),
    Life s ->
    post (handleStartProcessPacket P packet s) (fun _ s' => Life s')
         (fun _ => True).
Proof.
  intros packet s (L1 & L2 & L3 & L4).
  pose proof (config_handleStartProcessPacket P packet s) as Hc.
  pose proof (frameSpawn_handleStartProcessPacket P packet s) as Hf.
  pose proof (handleStartProcessPacket_entry packet s) as He.
  destruct (handleStartProcessPacket P packet s) as [[] s'|s'|why s'];
    simpl in *; auto.
  destruct Hc as (C1 & C2 & C3 & C4 & C5 & C6 & C7 & C8).
  destruct Hf as (_ & _ & Hclosing). destruct He as [_ Hopen].
  unfold Life, NamedPipe.isClosed in *.
  rewrite C1, C2, C3, C6, C8, Hclosing, Hopen.
  repeat split; auto; discriminate.
Qed.

Lemma Life_onPollTimeout :
  forall s s' : Agent World,
    Life s -> onPollTimeout P s = Ok tt s' -> Life s'.
Proof.
  intros s s' (L1 & L2 & L3 & L4) Hrun.
  pose proof (armed_onPollTimeout P s) as Ha.
  pose proof (tick_spec P s) as Ht.
  rewrite Hrun in Ha, Ht. cbn [final post] in Ha, Ht.
  destruct Ha as ((C1 & C2 & C3 & C4 & C5 & C6 & C7 & C8) & Hauto & _).
  destruct Ht as (Hclosing & Hchild & _).
  unfold Life, NamedPipe.isClosed in *.
  rewrite C1, C2, C3, C6, C8, Hclosing, Hchild, Hauto.
  repeat split; auto.
  - destruct (detectsExit P s) eqn:Hd; [reflexivity|].
    rewrite orb_false_r in H. apply L4. exact H.
  - destruct (detectsExit P s) eqn:Hd.
    + unfold detectsExit in Hd.
      apply andb_prop in Hd. destruct Hd as [Hd _].
      apply andb_prop in Hd. destruct Hd as [Hd _]. exact Hd.
    + rewrite orb_false_r in H. apply L4. exact H.
Qed.

Lemma reachable_Life : forall s : Agent World, reachable P s -> Life s.
Proof.
  apply (@reachable_preserves _ P Life).
  - intros s n H. exact H.
  - intros s n H. exact H.
  - intros s frame H. exact H.
  - intros s type H. exact H.
  - apply Life_handleStartProcessPacket.
  - intros packet s H.
    pose proof (@Life_settled _ (handleSetSizePacket P packet) s) as Hk.
    destruct (handleSetSizePacket P packet s) as [[] s'|s'|why s'];
      simpl; auto.
    eapply Hk; [apply settled_handleSetSizePacket
               |apply frame_handleSetSizePacket | exact H | reflexivity].
  - intros name flags mouse cols rows w s Hctor.
    pose proof (Agent_ctor_post P name flags mouse cols rows w) as Hp.
    rewrite Hctor in Hp. cbn [post] in Hp.
    destruct Hp as (u1 & u2 & u3 & Huse & _ & _ & _ & _ & _ & Herr & _ & Hscr
                    & _ & _ & Hclosing & Hexit & _).
    unfold Life, hasConerrPipe. rewrite Herr, Hscr, Huse, Hclosing, Hexit.
    repeat split; try discriminate.
    destruct (hasFlag flags (WINPTY_FLAG_CONERR P)); reflexivity.
  - intros s w H. exact H.
  - intros s p (L1 & L2 & L3 & L4) Hio.
    unfold Life, hasConerrPipe in *. cbn.
    split; [exact L1|]. split; [exact L2|]. split; [|exact L4].
    intros Hexit. specialize (L3 Hexit). unfold NamedPipe.isClosed in *.
    destruct Hio as [p Hs|p data Hs|p n Hs|p]; cbn;
      try (rewrite Hs in L3; discriminate); reflexivity.
  - intros s p H. exact H.
  - intros s p H. exact H.
  - intros s p0 p (L1 & L2 & L3 & L4) Hsome.
    unfold Life, hasConerrPipe in *. cbn. rewrite Hsome in L2.
    split; [exact L1|]. split; [exact L2|]. split; [exact L3|exact L4].
  - intros s (L1 & L2 & L3 & L4) Hclosed.
    unfold Life, hasConerrPipe in *. cbn.
    split; [exact L1|]. split; [exact L2|]. split; [|exact L4].
    intros _. exact Hclosed.
  - intros s s' H Hrun.
    eapply Life_settled;
      [apply settled_pollConinPipe | apply frame_pollConinPipe
      | exact H | exact Hrun].
  - intros s s' H Hrun.
    eapply Life_settled;
      [apply settled_autoClosePipesForShutdown
      | apply frame_autoClosePipesForShutdown | exact H | exact Hrun].
  - apply Life_onPollTimeout.
Qed.

End Lifecycle.


Section LifeTheorems.

Context {World : Type} (P : Platform World).

(** X18.  The constructor always returns, and it leaves the agent ready
    for the event loop: the flags of the creator decoded, the console not
    frozen, the data pipes created as servers that wait for their client
    (input, output and, with the secondary output stream only, the error
    pipe, which exists exactly if the error scraper does), the control
    pipe open with one frame to send that lists the names of the data
    pipes in that order, no child tracked, auto-shutdown not armed, the
    closing phase not begun, and no process created. *)
Theorem constructor_establishes :
  forall controlPipeName agentFlags mouseMode initialCols initialRows w,
    let useConerr :=
      negb (Z.land agentFlags (WINPTY_FLAG_CONERR P) =? 0) in
    exists s u1 u2 u3,
      Agent_ctor P controlPipeName agentFlags mouseMode initialCols
                 initialRows w = Ok tt s /\
      let conin := L "\\.\pipe\winpty-" ++ L "conin" ++ L "-" ++ u1 in
      let conout := L "\\.\pipe\winpty-" ++ L "conout" ++ L "-" ++ u2 in
      let conerr := L "\\.\pipe\winpty-" ++ L "conerr" ++ L "-" ++ u3 in
      m_useConerr s = useConerr /\
      m_plainMode s =
        negb (Z.land agentFlags (WINPTY_FLAG_PLAIN_OUTPUT P) =? 0) /\
      m_mouseMode s = mouseMode /\
      m_frozen (m_console s) = false /\
      m_coninPipe s = mkPipe conin Connecting [] [] 65536 /\
      m_conoutPipe s = mkPipe conout Connecting [] [] 0 /\
      m_conerrPipe s =
        (if useConerr then Some (mkPipe conerr Connecting [] [] 0)
         else None) /\
      m_controlPipe s =
        mkPipe controlPipeName Open []
          (frameOf
             (fold_left (fun packet name => WriteBuffer.putWString name packet)
                ([conin; conout] ++ if useConerr then [conerr] else []) []))
          65536 /\
      m_errorScraper s = useConerr /\
      m_childProcess s = NULL /\
      m_autoShutdown s = false /\
      m_closingOutputPipes s = false /\
      m_exiting s = false /\
      m_currentTitle s = [] /\
      created (history s) = O.
Proof.
  intros name flags mouse cols rows w useConerr.
  pose proof (Agent_ctor_post P name flags mouse cols rows w) as H.
  cbv zeta in H.
  destruct (Agent_ctor P name flags mouse cols rows w) as [[] s|s|why s];
    cbn [post] in H; [|contradiction|contradiction].
  destruct H as (u1 & u2 & u3 & Huse & Hplain & Hmouse & Hfrozen & Hin & Hout
                 & Herr & Hctl & Hscr & Hrest).
  exists s, u1, u2, u3. split; [reflexivity|]. cbv zeta.
  unfold dataPipesInOrder in Hctl. rewrite Hin, Hout, Herr in Hctl.
  change (hasFlag flags (WINPTY_FLAG_CONERR P)) with useConerr in *.
  split; [exact Huse|]. split; [exact Hplain|]. split; [exact Hmouse|].
  split; [exact Hfrozen|]. split; [exact Hin|]. split; [exact Hout|].
  split; [exact Herr|].
  split; [|split; [exact Hscr|exact Hrest]].
  rewrite Hctl. destruct useConerr; reflexivity.
Qed.

(** X19.  In every state the event loop can reach: the error scraper and
    the error pipe exist exactly if the agent was created with the
    secondary output stream; the loop has been told to stop only if the
    control pipe is closed; and the closing phase has begun only with
    auto-shutdown armed, and then no child is tracked. *)
Theorem life_of_the_agent :
  forall s : Agent World,
    reachable P s ->
    m_errorScraper s = m_useConerr s /\
    (match m_conerrPipe s with Some _ => true | None => false end)
      = m_useConerr s /\
    (m_exiting s = true -> NamedPipe.isClosed (m_controlPipe s) = true) /\
    (m_closingOutputPipes s = true ->
     m_childProcess s = NULL /\ m_autoShutdown s = true).
Proof.
  intros s H. exact (@reachable_Life _ P s H).
Qed.

End LifeTheorems.

(** * The claims on the simulated platform *)

Lemma Sim_fresh_constructed :
  Agent_ctor Sim.legacy64 (L "control") 1 0 80 25 Sim.world0 = Ok tt Sim.fresh.
Proof. vm_compute. reflexivity. Defined.

Lemma Sim_fresh_reachable : reachable Sim.legacy64 Sim.fresh.
Proof.
  exact (@reachable_constructed _ Sim.legacy64 (L "control") 1 0 80 25
           Sim.world0 Sim.fresh Sim_fresh_constructed).
Defined.

Lemma Sim_spawnRequested_reachable : reachable Sim.legacy64 Sim.spawnRequested.
Proof.
  apply (@reachable_step _ Sim.legacy64 Sim.fresh); [exact Sim_fresh_reachable|].
  apply step_io_control.
  exact (io_received (m_controlPipe Sim.fresh) Sim.startProcessFrame eq_refl).
Defined.

Lemma Sim_atSpawnHandler_entry : handlerEntry Sim.legacy64 Sim.atSpawnHandler.
Proof.
  assert (Hlen : (8 <= length (inQueue (m_controlPipe Sim.spawnRequested)))%nat)
    by (vm_compute; lia).
  assert (Hsize : 8 <= le_decode (NamedPipe.peek 8 (m_controlPipe Sim.spawnRequested))
                    <= SIZE_MAX (arch Sim.legacy64))
    by (vm_compute; split; discriminate).
  assert (Hfull : le_decode (NamedPipe.peek 8 (m_controlPipe Sim.spawnRequested))
                    <= Z.of_nat (length (inQueue (m_controlPipe Sim.spawnRequested))))
    by (vm_compute; discriminate).
  exact (handlerEntry_intro
           (polling_start Sim_spawnRequested_reachable) Hlen Hsize Hfull).
Defined.

(** A StartProcess frame sent to the freshly constructed agent, whose
    three data pipes are all connecting: in the state in which the handler
    is entered the request is refused and creates nothing. *)
Lemma C1_witness :
  handlerEntry Sim.legacy64 Sim.atSpawnHandler /\
  parseStartProcess Sim.startProcessPacket <> None /\
  length (pendingNames Sim.atSpawnHandler) = 3%nat /\
  exists s',
    handleStartProcessPacket Sim.legacy64 Sim.startProcessPacket Sim.atSpawnHandler
      = Ok tt s' /\
    spawnAttempts (history s') = spawnAttempts (history Sim.atSpawnHandler) /\
    m_childProcess s' = NULL.
Proof.
  split; [exact Sim_atSpawnHandler_entry|].
  split; [vm_compute; discriminate|].
  split; [vm_compute; reflexivity|].
  assert (Hparse : parseStartProcess Sim.startProcessPacket =
                   Some (mkStartProcessRequest 1 1 1 [] (L "cmd.exe") [] [] []))
    by (vm_compute; reflexivity).
  assert (Hpending : pendingNames Sim.atSpawnHandler <> [])
    by (vm_compute; discriminate).
  destruct (@C1_pipes_still_open _ Sim.legacy64 Sim.atSpawnHandler
              Sim.startProcessPacket _ Sim_atSpawnHandler_entry Hparse Hpending)
    as (Hrun & _ & Hspawn & Hchild).
  eexists. split; [exact Hrun|]. split; [exact Hspawn|].
  rewrite Hchild. vm_compute. reflexivity.
Defined.

(** The tick that finds the child of [Sim.exited] gone turns the closing
    phase on and scrapes both buffers; in [Sim.closing] the drained
    primary pipe is closed and the secondary pipe, with a byte to send,
    stays open. *)
Lemma C2_witness :
  (m_closingOutputPipes Sim.exited = false /\
   detectsExit Sim.legacy64 Sim.exited = true /\
   exists s',
     onPollTimeout Sim.legacy64 Sim.exited = Ok tt s' /\
     m_closingOutputPipes s' = true /\
     scrapes (history s') = [PrimaryScraper; ErrorScraper]) /\
  (m_closingOutputPipes Sim.closing = true /\
   exists s',
     onPollTimeout Sim.legacy64 Sim.closing = Ok tt s' /\
     scrapes (history s') = []) /\
  (exists s',
      autoClosePipesForShutdown Sim.closing = Ok tt s' /\
      NamedPipe.isClosed (m_conoutPipe s') = true /\
      option_map NamedPipe.isClosed (m_conerrPipe s') = Some false) /\
  (forall p,
      m_conerrPipe Sim.closing = Some p ->
      NamedPipe.bytesToSend p <> 0 /\ afterAutoClose true p = p).
Proof.
  destruct (@C2_outputs_close_only_when_drained _ Sim.legacy64)
    as (Heval & Hpipe & Htick).
  split; [|split; [|split]].
  - assert (Hc : m_closingOutputPipes Sim.exited = false) by reflexivity.
    assert (Hd : detectsExit Sim.legacy64 Sim.exited = true)
      by (vm_compute; reflexivity).
    split; [exact Hc|]. split; [exact Hd|].
    destruct (Htick Sim.exited) as (s' & Hrun & Hexit & _).
    destruct (Hexit Hc Hd) as [Hcl Hscr].
    exists s'. split; [exact Hrun|]. split; [exact Hcl|].
    rewrite Hscr. vm_compute. reflexivity.
  - assert (Hc : m_closingOutputPipes Sim.closing = true) by reflexivity.
    split; [exact Hc|].
    destruct (Htick Sim.closing) as (s' & Hrun & _ & Hlater & _).
    destruct (Hlater Hc) as [_ Hscr].
    exists s'. split; [exact Hrun|]. rewrite Hscr. vm_compute. reflexivity.
  - destruct (Heval Sim.closing) as (s' & Hrun & Hout & Herr & _).
    exists s'. split; [exact Hrun|].
    rewrite Hout, Herr. split; vm_compute; reflexivity.
  - intros p Hp. vm_compute in Hp. injection Hp as <-.
    assert (Hbytes : NamedPipe.bytesToSend
                       (mkPipe (L "\\.\pipe\winpty-conerr-2") Open [] [x21] 0) <> 0)
      by (vm_compute; discriminate).
    split; [exact Hbytes|].
    exact (proj1 (Hpipe true _) Hbytes).
Defined.

(** One complete SetSize frame of twenty bytes on the control pipe: the
    pass dispatches exactly that frame and leaves the pipe empty, and the
    poll returns with less than a header left. *)
Lemma C3_witness :
  (8 <= length (inQueue (m_controlPipe Sim.oneSetSize)))%nat /\
  headLength Sim.oneSetSize = 20 /\
  headLength Sim.oneSetSize
    <= Z.of_nat (length (inQueue (m_controlPipe Sim.oneSetSize))) /\
  dispatched (history (final (pollControlPipe_body Sim.legacy64 Sim.oneSetSize)))
    = dispatched (history Sim.oneSetSize) ++ [Sim.setSizeFrame 100 30] /\
  inQueue (m_controlPipe
             (final (pollControlPipe_body Sim.legacy64 Sim.oneSetSize))) = [] /\
  exists s',
    pollControlPipe Sim.legacy64 Sim.oneSetSize = Some (Ok tt s') /\
    ((length (inQueue (m_controlPipe s')) < 8)%nat \/
     Z.of_nat (length (inQueue (m_controlPipe s'))) < headLength s').
Proof.
  destruct (@C3_loop_consumes_declared_length _ Sim.legacy64)
    as (Hpass & _ & Hleft).
  set (s := Sim.oneSetSize).
  assert (Hlen : (8 <= length (inQueue (m_controlPipe s)))%nat)
    by (vm_compute; lia).
  assert (Hhead : headLength s = 20) by (vm_compute; reflexivity).
  assert (Hsize : 8 <= headLength s <= SIZE_MAX (arch Sim.legacy64))
    by (vm_compute; split; discriminate).
  assert (Hfull : headLength s <= Z.of_nat (length (inQueue (m_controlPipe s))))
    by (vm_compute; discriminate).
  assert (Hopen : NamedPipe.isClosed (m_controlPipe s) = false)
    by reflexivity.
  destruct (Hpass s Hlen Hsize Hfull) as (_ & _ & (_ & Hd & Hq) & _).
  split; [exact Hlen|]. split; [exact Hhead|]. split; [exact Hfull|].
  split; [exact Hd|]. split; [exact Hq|].
  destruct (pollControlPipe Sim.legacy64 s) as [[[] s'|s'|why s']|] eqn:Hr.
  - exists s'. split; [reflexivity|]. exact (Hleft s s' Hopen Hr).
  - exfalso. vm_compute in Hr. discriminate.
  - exfalso. vm_compute in Hr. discriminate.
  - exfalso. vm_compute in Hr. discriminate.
Defined.



(** A second StartProcess request while child 100 is tracked. *)
Lemma C5_witness :
  m_childProcess Sim.exited = 100 /\
  handleStartProcessPacket Sim.legacy64 Sim.startProcessPacket Sim.exited
    = Abort Assert_noChildProcess Sim.exited.
Proof.
  split; [reflexivity|].
  assert (H : m_childProcess Sim.exited <> NULL \/
              m_closingOutputPipes Sim.exited = true)
    by (left; vm_compute; discriminate).
  exact (@C5_second_spawn_is_fatal _ Sim.legacy64 Sim.exited
           Sim.startProcessPacket H).
Defined.

(** [SetSize(cols=0, rows=24)]: acknowledged, nothing resized. *)
Lemma C6_witness :
  parseSetSize (Sim.setSizePacket 0 24) = Some (0, 24) /\
  exists s',
    handleSetSizePacket Sim.legacy64 (Sim.setSizePacket 0 24) Sim.connected
      = Ok tt s' /\
    outQueue (m_controlPipe s') =
      outQueue (m_controlPipe Sim.connected) ++ frameOf [] /\
    world s' = world Sim.connected /\
    m_consoleInput s' = m_consoleInput Sim.connected.
Proof.
  assert (Hparse : parseSetSize (Sim.setSizePacket 0 24) = Some (0, 24))
    by (vm_compute; reflexivity).
  split; [exact Hparse|].
  destruct (@C6_set_size_always_acknowledged _ Sim.legacy64 Sim.connected
              (Sim.setSizePacket 0 24) 0 24 Hparse)
    as (s' & Hrun & Hout & Hbad).
  assert (Hcols : 0 < 1 \/ 0 > MAX_CONSOLE_WIDTH Sim.legacy64 \/
                  24 < 1 \/ 24 > BUFFER_LINE_COUNT Sim.legacy64 - 1)
    by (left; lia).
  destruct (Hbad Hcols) as (Hw & _ & Hin & _).
  exists s'. auto.
Defined.

(** On the legacy console Mark moves the probe cursor and SelectAll does
    not: calibration selects SelectAll. *)
Lemma C7_witness :
  m_frozen (m_console Sim.members) = false /\
  leavesProbeUnchanged Sim.legacy64 SC_CONSOLE_MARK StdoutBuffer
    (world Sim.members) = false /\
  leavesProbeUnchanged Sim.legacy64 SC_CONSOLE_SELECT_ALL StdoutBuffer
    (world Sim.members) = true /\
  exists s',
    initConsoleFreezeMethod Sim.legacy64 StdoutBuffer Sim.members = Ok tt s' /\
    selectedSyscommand s' = SC_CONSOLE_SELECT_ALL.
Proof.
  set (s := Sim.members).
  assert (Hfrozen : m_frozen (m_console s) = false) by reflexivity.
  assert (Hmark : leavesProbeUnchanged Sim.legacy64 SC_CONSOLE_MARK
                    StdoutBuffer (world s) = false) by (vm_compute; reflexivity).
  assert (Hall : leavesProbeUnchanged Sim.legacy64 SC_CONSOLE_SELECT_ALL
                   StdoutBuffer (world s) = true) by (vm_compute; reflexivity).
  split; [exact Hfrozen|]. split; [exact Hmark|]. split; [exact Hall|].
  destruct (@C7_freeze_calibration _ Sim.legacy64 s StdoutBuffer Hfrozen)
    as (s' & Hrun & _ & _ & _ & Hsel & _).
  exists s'. split; [exact Hrun | exact (Hsel Hmark Hall)].
Defined.

(** A console title that differs from the cache: the escape sequence
    for [hi] is written once, and a second pass writes nothing. *)
Lemma C8_witness :
  console_title Sim.legacy64 (world Sim.titled) <> m_currentTitle Sim.titled /\
  ~ In x00 (utf8FromWide Sim.legacy64
              (console_title Sim.legacy64 (world Sim.titled))) /\
  exists s',
    syncConsoleTitle Sim.legacy64 Sim.titled = Ok tt s' /\
    outQueue (m_conoutPipe s') =
      outQueue (m_conoutPipe Sim.titled)
      ++ [x1b; x5d; x30; x3b; x68; x69; x07] /\
    m_currentTitle s' = L "hi" /\
    syncConsoleTitle Sim.legacy64 s' = Ok tt s'.
Proof.
  set (s := Sim.titled).
  assert (Hne : console_title Sim.legacy64 (world s) <> m_currentTitle s)
    by (vm_compute; discriminate).
  assert (Hnul : ~ In x00 (utf8FromWide Sim.legacy64
                             (console_title Sim.legacy64 (world s))))
    by (vm_compute; intros [H|[H|H]]; [discriminate H|discriminate H|exact H]).
  split; [exact Hne|]. split; [exact Hnul|].
  destruct (@C8_title_written_iff_changed _ Sim.legacy64 s)
    as (s' & sent & Hrun & Hout & _ & Hnew & _ & Hagain & _).
  destruct (Hnew Hne) as (Hcache & _ & Hexact).
  rewrite (Hexact Hnul) in Hout.
  exists s'. split; [exact Hrun|]. split; [exact Hout|].
  split; [exact Hcache | exact Hagain].
Defined.

(** The control pipe closed with a partial frame buffered. *)
Lemma C9_witness :
  NamedPipe.isClosed (m_controlPipe Sim.controlClosed) = true /\
  length (inQueue (m_controlPipe Sim.controlClosed)) = 9%nat /\
  exists s',
    pollControlPipe Sim.legacy64 Sim.controlClosed = Some (Ok tt s') /\
    m_exiting s' = true /\
    m_controlPipe s' = m_controlPipe Sim.controlClosed /\
    dispatched (history s') = dispatched (history Sim.controlClosed).
Proof.
  set (s := Sim.controlClosed).
  assert (Hclosed : NamedPipe.isClosed (m_controlPipe s) = true) by reflexivity.
  split; [exact Hclosed|]. split; [vm_compute; reflexivity|].
  destruct (@C9_closed_control_pipe_shuts_down _ Sim.legacy64 s Hclosed)
    as (s' & Hrun & Hexit & Hpipe & Hdisp & _).
  exists s'. auto.
Defined.

(** A header declaring three bytes; and a poll that dispatches one
    SetSize frame. *)
Lemma C10_witness :
  (headLength Sim.shortHeader = 3 /\
   pollControlPipe_loop Sim.legacy64 1 Sim.shortHeader
     = Some (Abort Assert_packetSize Sim.shortHeader)) /\
  (exists r frames,
      pollControlPipe Sim.legacy64 Sim.oneSetSize = Some r /\
      dispatched (history (final r))
        = dispatched (history Sim.oneSetSize) ++ frames /\
      Forall (fun f => 8 <= declaredLength f) frames).
Proof.
  destruct (@C10_header_below_eight_is_fatal _ Sim.legacy64) as [Hbad Hall].
  split.
  - set (s := Sim.shortHeader).
    assert (Hlen : (8 <= length (inQueue (m_controlPipe s)))%nat)
      by (vm_compute; lia).
    assert (Hsmall : headLength s < 8) by (vm_compute; reflexivity).
    split; [vm_compute; reflexivity|].
    exact (proj2 (Hbad s 0%nat Hlen Hsmall)).
  - set (s := Sim.oneSetSize).
    destruct (pollControlPipe Sim.legacy64 s) as [r|] eqn:Hr.
    + destruct (Hall s r Hr) as (frames & Hd & Hf).
      exists r, frames. auto.
    + exfalso. vm_compute in Hr. discriminate.
Defined.

(** * The further properties on the simulated platform *)

(** A reply with a payload of four bytes is sent as a frame of twelve. *)
Lemma X1_witness :
  exists sent,
    writePacket (newPacket ++ Sim.echoPayload) Sim.connected
      = Ok tt (set_controlPipe
                 (NamedPipe.write sent (m_controlPipe Sim.connected))
                 Sim.connected) /\
    length sent = 12%nat /\
    declaredLength sent = 12 /\
    skipn 8 sent = Sim.echoPayload.
Proof.
  assert (Hsmall : 8 + Z.of_nat (length Sim.echoPayload) < 2 ^ 64)
    by (vm_compute; reflexivity).
  destruct (@writePacket_sends_one_frame _ Sim.connected Sim.echoPayload Hsmall)
    as (sent & Hrun & Hlen & Hdecl & Hpay).
  exists sent. split; [exact Hrun|]. split; [exact Hlen|].
  split; [rewrite Hdecl, Hlen; reflexivity | exact Hpay].
Defined.

(** The same reply received on a control pipe, with one byte behind it:
    the pass dispatches the twelve bytes and leaves the byte. *)
Lemma X2_witness :
  inQueue (m_controlPipe Sim.echoed) = frameOf Sim.echoPayload ++ [x09] /\
  dispatched
    (history (final (pollControlPipe_body Sim.legacy64 Sim.echoed)))
    = dispatched (history Sim.echoed) ++ [frameOf Sim.echoPayload] /\
  inQueue
    (m_controlPipe (final (pollControlPipe_body Sim.legacy64 Sim.echoed)))
    = [x09].
Proof.
  assert (Hsize : 8 + Z.of_nat (length Sim.echoPayload)
                    <= SIZE_MAX (arch Sim.legacy64))
    by (vm_compute; discriminate).
  assert (Hin : inQueue (m_controlPipe Sim.echoed) =
                skipn (length (outQueue (m_controlPipe Sim.connected)))
                  (outQueue
                     (m_controlPipe
                        (final (writePacket (newPacket ++ Sim.echoPayload)
                                  Sim.connected))))
                ++ [x09])
    by (vm_compute; reflexivity).
  destruct (@written_frame_is_read_back _ Sim.legacy64 Sim.connected Sim.echoed
              Sim.echoPayload [x09] Hsize Hin) as (_ & Hd & Hq).
  split; [vm_compute; reflexivity|]. split; [|exact Hq].
  refine (eq_trans Hd _). vm_compute. reflexivity.
Defined.

(** A poll in front of an incomplete frame, and the poll after it. *)
Lemma X3_witness :
  exists s',
    pollControlPipe Sim.legacy64 Sim.partialFrame = Some (Ok tt s') /\
    pollControlPipe Sim.legacy64 s' = Some (Ok tt s').
Proof.
  assert (Hopen : NamedPipe.isClosed (m_controlPipe Sim.partialFrame) = false)
    by reflexivity.
  destruct (pollControlPipe Sim.legacy64 Sim.partialFrame)
    as [[[] s'|s'|why s']|] eqn:Hr.
  - exists s'. split; [reflexivity|].
    exact (@poll_again_changes_nothing _ Sim.legacy64 Sim.partialFrame s'
             Hopen Hr).
  - exfalso. vm_compute in Hr. discriminate.
  - exfalso. vm_compute in Hr. discriminate.
  - exfalso. vm_compute in Hr. discriminate.
Defined.

(** A bare header: taken off the pipe, dispatched, fatal. *)
Lemma X5_witness :
  headLength Sim.bareHeader = 8 /\
  exists s',
    pollControlPipe_body Sim.legacy64 Sim.bareHeader
      = Abort Assert_decodeError s' /\
    inQueue (m_controlPipe s') = [] /\
    dispatched (history s') = dispatched (history Sim.bareHeader) ++ [frameOf []].
Proof.
  set (s := Sim.bareHeader).
  assert (Hlen : (8 <= length (inQueue (m_controlPipe s)))%nat)
    by (vm_compute; lia).
  assert (Hsize : 8 <= headLength s < 12)
    by (vm_compute; split; [discriminate|reflexivity]).
  assert (Hfull : headLength s <= Z.of_nat (length (inQueue (m_controlPipe s))))
    by (vm_compute; discriminate).
  split; [vm_compute; reflexivity|].
  eexists.
  split; [exact (@frame_without_type_is_fatal _ Sim.legacy64 s Hlen Hsize Hfull)|].
  split; vm_compute; reflexivity.
Defined.

(** A message of type 7: consumed, nothing sent. *)
Lemma X6_witness :
  exists s',
    pollControlPipe_body Sim.legacy64 Sim.unknownMessage = Ok true s' /\
    inQueue (m_controlPipe s') = [] /\
    outQueue (m_controlPipe s') = outQueue (m_controlPipe Sim.unknownMessage).
Proof.
  set (s := Sim.unknownMessage).
  assert (Hlen : (8 <= length (inQueue (m_controlPipe s)))%nat)
    by (vm_compute; lia).
  assert (Hsize : 12 <= headLength s <= SIZE_MAX (arch Sim.legacy64))
    by (vm_compute; split; discriminate).
  assert (Hfull : headLength s <= Z.of_nat (length (inQueue (m_controlPipe s))))
    by (vm_compute; discriminate).
  assert (Hsp : to_signed 32
                  (le_decode
                     (firstn 4
                        (skipn 8
                           (fst (NamedPipe.read (Z.to_nat (headLength s))
                                   (m_controlPipe s))))))
                <> AgentMsg_StartProcess Sim.legacy64)
    by (vm_compute; discriminate).
  assert (Hss : to_signed 32
                  (le_decode
                     (firstn 4
                        (skipn 8
                           (fst (NamedPipe.read (Z.to_nat (headLength s))
                                   (m_controlPipe s))))))
                <> AgentMsg_SetSize Sim.legacy64)
    by (vm_compute; discriminate).
  eexists.
  split; [exact (@unrecognized_message_is_skipped _ Sim.legacy64 s Hlen Hsize
                   Hfull Hsp Hss)|].
  split; vm_compute; reflexivity.
Defined.

(** A SetSize message of sixteen bytes: fatal, no reply. *)
Lemma X7_witness :
  headLength Sim.shortSetSize = 16 /\
  exists s',
    pollControlPipe_body Sim.legacy64 Sim.shortSetSize
      = Abort Assert_decodeError s' /\
    outQueue (m_controlPipe s') = outQueue (m_controlPipe Sim.shortSetSize) /\
    world s' = world Sim.shortSetSize.
Proof.
  set (s := Sim.shortSetSize).
  assert (Hlen : (8 <= length (inQueue (m_controlPipe s)))%nat)
    by (vm_compute; lia).
  assert (Hsize : 12 <= headLength s <= SIZE_MAX (arch Sim.legacy64))
    by (vm_compute; split; discriminate).
  assert (Hfull : headLength s <= Z.of_nat (length (inQueue (m_controlPipe s))))
    by (vm_compute; discriminate).
  assert (Htype : to_signed 32
                    (le_decode
                       (firstn 4
                          (skipn 8
                             (fst (NamedPipe.read (Z.to_nat (headLength s))
                                     (m_controlPipe s))))))
                  = AgentMsg_SetSize Sim.legacy64)
    by (vm_compute; reflexivity).
  assert (Hdistinct : AgentMsg_SetSize Sim.legacy64
                      <> AgentMsg_StartProcess Sim.legacy64)
    by (vm_compute; discriminate).
  assert (Hne : headLength s <> 20) by (vm_compute; discriminate).
  split; [vm_compute; reflexivity|].
  eexists.
  split; [exact (@malformed_set_size_is_fatal _ Sim.legacy64 s Hlen Hsize Hfull
                   Htype Hdistinct Hne)|].
  split; vm_compute; reflexivity.
Defined.

(** A StartProcess message without fields: fatal, no reply, nothing
    created. *)
Lemma X8_witness :
  exists s',
    pollControlPipe_body Sim.legacy64 Sim.emptyStartProcess
      = Abort Assert_decodeError s' /\
    outQueue (m_controlPipe s')
      = outQueue (m_controlPipe Sim.emptyStartProcess) /\
    spawnAttempts (history s') = spawnAttempts (history Sim.emptyStartProcess).
Proof.
  set (s := Sim.emptyStartProcess).
  assert (Hlen : (8 <= length (inQueue (m_controlPipe s)))%nat)
    by (vm_compute; lia).
  assert (Hsize : 12 <= headLength s <= SIZE_MAX (arch Sim.legacy64))
    by (vm_compute; split; discriminate).
  assert (Hfull : headLength s <= Z.of_nat (length (inQueue (m_controlPipe s))))
    by (vm_compute; discriminate).
  assert (Htype : to_signed 32
                    (le_decode
                       (firstn 4
                          (skipn 8
                             (fst (NamedPipe.read (Z.to_nat (headLength s))
                                     (m_controlPipe s))))))
                  = AgentMsg_StartProcess Sim.legacy64)
    by (vm_compute; reflexivity).
  assert (Hchild : m_childProcess s = NULL) by reflexivity.
  assert (Hclosing : m_closingOutputPipes s = false) by reflexivity.
  assert (Hparse : parseStartProcess
                     (mkReadBuffer
                        (fst (NamedPipe.read (Z.to_nat (headLength s))
                                (m_controlPipe s))) 12) = None)
    by (vm_compute; reflexivity).
  eexists.
  split; [exact (@malformed_start_process_is_fatal _ Sim.legacy64 s Hlen Hsize
                   Hfull Htype Hchild Hclosing Hparse)|].
  split; vm_compute; reflexivity.
Defined.

(** [cmd.exe] spawned with auto-shutdown and both handles wanted: process
    100 is tracked, and the reply carries the duplicates 1100 and 1104. *)
Lemma X9_witness :
  exists s',
    handleStartProcessPacket Sim.legacy64 Sim.startProcessPacket Sim.connected
      = Ok tt s' /\
    m_childProcess s' = 100 /\
    m_autoShutdown s' = true /\
    outQueue (m_controlPipe s') =
      outQueue (m_controlPipe Sim.connected)
      ++ frameOf (WriteBuffer.putInt64 1104
                    (WriteBuffer.putInt64 1100 (WriteBuffer.putInt32 0 []))).
Proof.
  set (s := Sim.connected).
  set (w := world s).
  assert (Hchild : m_childProcess s = NULL) by reflexivity.
  assert (Hclosing : m_closingOutputPipes s = false) by reflexivity.
  assert (Hparse : parseStartProcess Sim.startProcessPacket
                   = Some Sim.startProcessRequest)
    by (vm_compute; reflexivity).
  assert (Hpending : pendingNames s = []) by (vm_compute; reflexivity).
  assert (Hcreate : CreateProcessW Sim.legacy64
                      (requestArgs Sim.legacy64 s Sim.startProcessRequest)
                      (world s)
                    = (Some (mkProcessInformation 100 104 7), w))
    by reflexivity.
  assert (Hp : replyHandle Sim.legacy64
                 (req_wantProcessHandle Sim.startProcessRequest)
                 (hProcess (mkProcessInformation 100 104 7)) w
               = Some (1100, w))
    by (vm_compute; reflexivity).
  assert (Ht : replyHandle Sim.legacy64
                 (req_wantThreadHandle Sim.startProcessRequest)
                 (hThread (mkProcessInformation 100 104 7)) w
               = Some (1104, w))
    by (vm_compute; reflexivity).
  destruct (@spawn_success _ Sim.legacy64 s Sim.startProcessPacket
              Sim.startProcessRequest _ _ _ _ _ _
              Hchild Hclosing Hparse Hpending Hcreate Hp Ht)
    as (s' & Hrun & Hc & Hauto & Hout & _).
  exists s'. split; [exact Hrun|]. split; [exact Hc|].
  split; [rewrite Hauto; vm_compute; reflexivity | exact Hout].
Defined.

(** The same request where [CreateProcessW] fails with error 2. *)
Lemma X10_witness :
  exists s',
    handleStartProcessPacket Sim.noSpawn Sim.startProcessPacket Sim.connected
      = Ok tt s' /\
    outQueue (m_controlPipe s') =
      outQueue (m_controlPipe Sim.connected)
      ++ frameOf (WriteBuffer.putInt32 2 (WriteBuffer.putInt32 1 [])) /\
    m_childProcess s' = NULL.
Proof.
  set (s := Sim.connected).
  assert (Hchild : m_childProcess s = NULL) by reflexivity.
  assert (Hclosing : m_closingOutputPipes s = false) by reflexivity.
  assert (Hparse : parseStartProcess Sim.startProcessPacket
                   = Some Sim.startProcessRequest)
    by (vm_compute; reflexivity).
  assert (Hpending : pendingNames s = []) by (vm_compute; reflexivity).
  assert (Hcreate : CreateProcessW Sim.noSpawn
                      (requestArgs Sim.noSpawn s Sim.startProcessRequest)
                      (world s)
                    = (None, world s))
    by reflexivity.
  destruct (@spawn_failure_is_reported _ Sim.noSpawn s Sim.startProcessPacket
              Sim.startProcessRequest _
              Hchild Hclosing Hparse Hpending Hcreate)
    as (s' & Hrun & Hout & _ & _ & Hc & _).
  exists s'. split; [exact Hrun|]. split; [exact Hout | exact Hc].
Defined.

(** The same request where [DuplicateHandle] fails: fatal, with the
    process created, nothing sent and nothing closed. *)
Lemma X11_witness :
  exists s',
    handleStartProcessPacket Sim.noDuplicate Sim.startProcessPacket
      Sim.connected = Abort Assert_duplicateHandle s' /\
    m_childProcess s' = NULL /\
    m_controlPipe s' = m_controlPipe Sim.connected /\
    created (history s') = 1%nat /\
    closedHandles (history s') = [].
Proof.
  set (s := Sim.connected).
  assert (Hchild : m_childProcess s = NULL) by reflexivity.
  assert (Hclosing : m_closingOutputPipes s = false) by reflexivity.
  assert (Hparse : parseStartProcess Sim.startProcessPacket
                   = Some Sim.startProcessRequest)
    by (vm_compute; reflexivity).
  assert (Hpending : pendingNames s = []) by (vm_compute; reflexivity).
  assert (Hcreate : CreateProcessW Sim.noDuplicate
                      (requestArgs Sim.noDuplicate s Sim.startProcessRequest)
                      (world s)
                    = (Some (mkProcessInformation 100 104 7), world s))
    by reflexivity.
  assert (Hdup :
    replyHandle Sim.noDuplicate
      (req_wantProcessHandle Sim.startProcessRequest)
      (hProcess (mkProcessInformation 100 104 7)) (world s) = None \/
    (exists rp w2,
        replyHandle Sim.noDuplicate
          (req_wantProcessHandle Sim.startProcessRequest)
          (hProcess (mkProcessInformation 100 104 7)) (world s)
          = Some (rp, w2) /\
        replyHandle Sim.noDuplicate
          (req_wantThreadHandle Sim.startProcessRequest)
          (hThread (mkProcessInformation 100 104 7)) w2 = None))
    by (left; vm_compute; reflexivity).
  destruct (@duplicate_failure_is_fatal _ Sim.noDuplicate s
              Sim.startProcessPacket Sim.startProcessRequest _ _
              Hchild Hclosing Hparse Hpending Hcreate Hdup)
    as (s' & Hrun & Hc & Hctl & Hcreated & Hclosed).
  exists s'. split; [exact Hrun|]. split; [exact Hc|]. split; [exact Hctl|].
  split; [rewrite Hcreated | rewrite Hclosed]; vm_compute; reflexivity.
Defined.

(** A resize to 100 by 30: SelectAll, the two scrapers resized, the
    freeze released. *)
Lemma X12_witness :
  exists s',
    resizeWindow Sim.legacy64 100 30 Sim.connected = Ok tt s' /\
    m_console s' = m_console Sim.connected /\
    history s' =
      history Sim.connected
      ++ [EvSyscommand SC_CONSOLE_SELECT_ALL;
          EvResizeWindow PrimaryScraper (mkCoord 100 30);
          EvResizeWindow ErrorScraper (mkCoord 100 30);
          EvSendEscape].
Proof.
  assert (Hcols : 1 <= 100 <= MAX_CONSOLE_WIDTH Sim.legacy64)
    by (vm_compute; split; discriminate).
  assert (Hrows : 1 <= 30 <= BUFFER_LINE_COUNT Sim.legacy64 - 1)
    by (vm_compute; split; discriminate).
  destruct (@resize_within_bounds _ Sim.legacy64 Sim.connected 100 30
              Hcols Hrows)
    as (s' & Hrun & Hconsole & _ & _ & _ & _ & _ & Hh).
  exists s'. split; [exact Hrun|]. split; [exact Hconsole|].
  refine (eq_trans Hh _). vm_compute. reflexivity.
Defined.

(** A tick in the closing phase: the drained primary pipe is closed, the
    secondary pipe with its byte is left, nothing is scraped. *)
Lemma X15_witness :
  exists s',
    onPollTimeout Sim.legacy64 Sim.closing = Ok tt s' /\
    NamedPipe.isClosed (m_conoutPipe s') = true /\
    m_conerrPipe s' = m_conerrPipe Sim.closing /\
    scrapes (history s') = scrapes (history Sim.closing).
Proof.
  assert (Hclosing : m_closingOutputPipes Sim.closing = true) by reflexivity.
  assert (Hchild : m_childProcess Sim.closing = NULL) by reflexivity.
  destruct (@tick_in_closing_phase _ Sim.legacy64 Sim.closing Hclosing Hchild)
    as (s' & Hrun & _ & Hout & Herr & _ & _ & Hscr & _).
  exists s'. split; [exact Hrun|].
  split; [rewrite Hout; vm_compute; reflexivity|].
  split; [rewrite Herr; vm_compute; reflexivity | exact Hscr].
Defined.

(** The freshly constructed agent with a request waiting. *)
Lemma X19_witness :
  m_errorScraper Sim.spawnRequested = true /\
  m_useConerr Sim.spawnRequested = true /\
  (m_exiting Sim.spawnRequested = true ->
   NamedPipe.isClosed (m_controlPipe Sim.spawnRequested) = true) /\
  (m_closingOutputPipes Sim.spawnRequested = true ->
   m_childProcess Sim.spawnRequested = NULL /\
   m_autoShutdown Sim.spawnRequested = true).
Proof.
  destruct (@life_of_the_agent _ Sim.legacy64 Sim.spawnRequested
              Sim_spawnRequested_reachable) as (H1 & _ & H3 & H4).
  split; [vm_compute; reflexivity|]. split; [vm_compute; reflexivity|].
  split; [exact H3 | exact H4].
Defined.
